(** * parquetChecker: the row window, the record decoders and the view state machine

    A shallow embedding of the viewer's main file (the bubbletea model of
    the parquet viewer; line numbers in the comments are those of that
    file): the [Update] message handler, the [View] function, the two
    background tasks [loadParquetData] and [loadMoreRows], and the schema
    and row decoding they perform on records of unknown shape.

    Conventions.
    - Go [int] is 64 bits wide; arithmetic on it is written with [wrap].
    - Go [string]s are byte strings: [string] of [ascii].
    - A Go [error] is represented by its message; [option GoError] is a
      nilable error.
    - A run-time panic is an explicit result ([Panic], [TPanic], [None]
      for the decoder).
    - The parquet reader is a pointer shared between the model and the
      background tasks: readers live in a heap and the model holds an
      address. *)

From Stdlib Require Import ZArith Ascii String List Bool Lia DecimalString.
From stdpp Require Import base option list gmap strings fin_maps.

Local Open Scope Z_scope.

(* ===================================================================== *)
(** ** Machine integers *)
(* ===================================================================== *)

Module GoInt.

Definition width : Z := 64.
Definition half : Z := 2 ^ 63.
Definition modulus : Z := 2 ^ 64.

(** Two's-complement reduction of a mathematical integer to [int]. *)
Definition wrap (z : Z) : Z := (z + half) mod modulus - half.

Definition in_range (z : Z) : Prop := - half <= z < half.

Definition add (a b : Z) : Z := wrap (a + b).
Definition sub (a b : Z) : Z := wrap (a - b).

(** [len(s)] of a slice. *)
Definition len {A} (l : list A) : Z := Z.of_nat (length l).

End GoInt.

(* ===================================================================== *)
(** ** The [strings] functions the decoders use *)
(* ===================================================================== *)

Module GoStrings.

Local Open Scope string_scope.

(** [strings.HasPrefix(s, prefix)]. *)
Definition HasPrefix (s pre : string) : bool := String.prefix pre s.

Fixpoint dropBytes (n : nat) (s : string) : string :=
  match n, s with
  | O, _ => s
  | S n', String _ s' => dropBytes n' s'
  | S _, EmptyString => EmptyString
  end.

(** [strings.TrimPrefix(s, prefix)]. *)
Definition TrimPrefix (s pre : string) : string :=
  if HasPrefix s pre then dropBytes (String.length pre) s else s.

(** [strings.Split(s, sep)] for a one-byte separator. *)
Fixpoint Split (s : string) (sep : ascii) : list string :=
  match s with
  | EmptyString => [EmptyString]
  | String c s' =>
      if Ascii.eqb c sep then EmptyString :: Split s' sep
      else match Split s' sep with
           | [] => [String c EmptyString]
           | p :: ps => String c p :: ps
           end
  end.

(** Byte length of a white-space rune (as [unicode.IsSpace] defines it)
    encoded at the head of a byte sequence, 0 when there is none. *)
Definition spaceRuneLen (l : list ascii) : nat :=
  match List.map nat_of_ascii l with
  | b :: rest =>
      if ((9 <=? b) && (b <=? 13))%nat || (b =? 32)%nat then 1%nat
      else match b, rest with
           | 194%nat, c :: _ =>
               if (c =? 133)%nat || (c =? 160)%nat then 2%nat else 0%nat
           | 225%nat, c :: d :: _ =>
               if (c =? 154)%nat && (d =? 128)%nat then 3%nat else 0%nat
           | 226%nat, c :: d :: _ =>
               if (c =? 128)%nat
                  && (((128 <=? d) && (d <=? 138))%nat
                      || (d =? 168)%nat || (d =? 169)%nat || (d =? 175)%nat)
               then 3%nat
               else if (c =? 129)%nat && (d =? 159)%nat then 3%nat else 0%nat
           | 227%nat, c :: d :: _ =>
               if (c =? 128)%nat && (d =? 128)%nat then 3%nat else 0%nat
           | _, _ => 0%nat
           end
  | [] => 0%nat
  end.

(** The same, for a white-space rune that ends a byte sequence given in
    reverse. *)
Definition spaceRuneLenRev (l : list ascii) : nat :=
  match l with
  | a :: b :: c :: _ =>
      match spaceRuneLen [c; b; a] with
      | 3%nat => 3%nat
      | _ => match spaceRuneLen [b; a] with
             | 2%nat => 2%nat
             | _ => match spaceRuneLen [a] with 1%nat => 1%nat | _ => 0%nat end
             end
      end
  | a :: b :: _ =>
      match spaceRuneLen [b; a] with
      | 2%nat => 2%nat
      | _ => match spaceRuneLen [a] with 1%nat => 1%nat | _ => 0%nat end
      end
  | [a] => match spaceRuneLen [a] with 1%nat => 1%nat | _ => 0%nat end
  | [] => 0%nat
  end.

Fixpoint trimWith (runeLen : list ascii -> nat) (fuel : nat) (l : list ascii)
  : list ascii :=
  match fuel with
  | O => l
  | S fuel' =>
      match runeLen l with
      | O => l
      | k => trimWith runeLen fuel' (drop k l)
      end
  end.

(** [strings.TrimSpace(s)]. *)
Definition TrimSpace (s : string) : string :=
  let l := list_ascii_of_string s in
  let l1 := trimWith spaceRuneLen (length l) l in
  let l2 := trimWith spaceRuneLenRev (length l1) (rev l1) in
  string_of_list_ascii (rev l2).

Fixpoint revString (s acc : string) : string :=
  match s with
  | EmptyString => acc
  | String c s' => revString s' (String c acc)
  end.

(** [strings.HasSuffix(s, suffix)]. *)
Definition HasSuffix (s suf : string) : bool :=
  String.prefix (revString suf EmptyString) (revString s EmptyString).

(** [strconv.Itoa] on a non-negative loop counter, as [%d] prints it. *)
Definition Itoa (n : nat) : string := NilZero.string_of_uint (Nat.to_uint n).

End GoStrings.

(* ===================================================================== *)
(** ** Messages, handles and the widget interface *)
(* ===================================================================== *)

(** A Go [error], by its message. *)
Definition GoError : Type := string.

(** [ViewState] represents the current view of the application
    (lines 19-26). *)
Inductive ViewState : Type := InputView | FileSelectView | TableView.

#[global] Instance ViewState_eq_dec : EqDecision ViewState.
Proof. solve_decision. Defined.

(** The [source.ParquetFile] handle a load returns.  [Close] answers with
    [pf_closeErr]. *)
Record ParquetFile : Type := {
  pf_path : string;
  pf_closeErr : option GoError
}.

(** Address of a [*reader.ParquetReader] in the heap of readers. *)
Definition ReaderRef : Type := nat.

(** [parquetDataMsg] is a message containing parquet data
    (lines 250-258). *)
Record parquetDataMsg : Type := {
  pd_columns : list string;
  pd_rows : list (list string);
  pd_err : option GoError;
  pd_totalRows : Z;
  pd_parquetReader : option ReaderRef;
  pd_parquetFile : option ParquetFile
}.

(** [parquetDataMsg{err: e}]: every other field has its zero value. *)
Definition parquetDataErr (e : GoError) : parquetDataMsg :=
  {| pd_columns := []; pd_rows := []; pd_err := Some e; pd_totalRows := 0;
     pd_parquetReader := None; pd_parquetFile := None |}.

(** [moreRowsMsg] is a message containing one more row (lines 265-269). *)
Record moreRowsMsg : Type := {
  mr_newRow : list string;
  mr_err : option GoError
}.

(** A [tea.Msg], by the cases of the type switch of [Update].  [KeyMsg]
    carries what [msg.String()] returns; [ParquetFilesMsg] is
    [parquetFilesMsg] (lines 260-263); [OtherMsg] is any message of a type
    the program does not define (window size, cursor blink, the nil
    message of a task). *)
Inductive Msg : Type :=
| KeyMsg (key : string)
| ParquetFilesMsg (files : list string)
| ParquetDataMsg (d : parquetDataMsg)
| MoreRowsMsg (r : moreRowsMsg)
| OtherMsg (tag : string).

(** [table.Column]. *)
Record Column : Type := { Title : string; Width : Z }.

(** The two bubbles widgets the model embeds, as an interface: the program
    only calls these operations and never looks inside the widgets. *)
Class Bubbles : Type := {
  table_Model : Type;
  textinput_Model : Type;
  WidgetCmd : Type;
  (** the zero [table.Model{}] *)
  table_zero : table_Model;
  (** [table.New(WithColumns, WithRows, WithFocused(true), WithHeight(10))]
      followed by [SetStyles] *)
  table_New : list Column -> list (list string) -> table_Model;
  table_Cursor : table_Model -> Z;
  table_Update : table_Model -> Msg -> table_Model * option WidgetCmd;
  table_SetRows : table_Model -> list (list string) -> table_Model;
  table_SetCursor : table_Model -> Z -> table_Model;
  table_View : table_Model -> string;
  (** the text input as [main] configures it *)
  textinput_New : textinput_Model;
  textinput_Value : textinput_Model -> string;
  textinput_Update : textinput_Model -> Msg -> textinput_Model * option WidgetCmd;
  textinput_View : textinput_Model -> string;
  textinput_Blink : WidgetCmd
}.

(** Values held by records, with their [%v] rendering. *)
Class GoValue : Type := {
  Value : Type;
  Sprintf_v : Value -> string
}.

(* ===================================================================== *)
(** ** Records of unknown shape *)
(* ===================================================================== *)

Section Records.

Context `{GoValue}.

(** One field of a struct value, as reflection shows it: [field.Name],
    [field.Tag.Get("parquet")], whether the field is exported, and
    [val.Field(i)]. *)
Record StructField : Type := {
  Name : string;
  TagParquet : string;
  Exported : bool;
  FieldValue : Value
}.

(** What [ReadByNumber] hands back, by the cases the type switches and
    [val.Kind()] tell apart. *)
Inductive GoRecord : Type :=
| MapRecord (data : gmap string Value)
| StructRecord (fields : list StructField)
| OtherRecord.

(** *** Column names from the sample row *)

(** Inner loop over the parts of one tag (lines 361-368): the first part
    starting with [name=] gives the column, then [break]. *)
Fixpoint schemaPartsLoop (parts : list string) (columns : list string)
  : list string :=
  match parts with
  | [] => columns
  | part :: parts' =>
      if GoStrings.HasPrefix part "name="%string then
        let name := GoStrings.TrimPrefix part "name="%string in
        let name := GoStrings.TrimSpace name in
        columns ++ [name]
      else schemaPartsLoop parts' columns
  end.

(** Loop over [typ.Field(i)], [i = 0 .. NumField-1] (lines 355-373). *)
Fixpoint schemaFieldLoop (fields : list StructField) (columns : list string)
  : list string :=
  match fields with
  | [] => columns
  | field :: fields' =>
      let tag := TagParquet field in
      if negb (String.eqb tag EmptyString) then
        schemaFieldLoop fields'
          (schemaPartsLoop (GoStrings.Split tag ","%char) columns)
      else
        schemaFieldLoop fields' (columns ++ [Name field])
  end.

(** [for k := range v { columns = append(columns, k) }] (lines 347-349);
    [order] is the sequence in which this run's [range] visits the keys. *)
Definition schemaMapLoop (order : list string) (columns : list string)
  : list string :=
  foldl (fun cols k => cols ++ [k]) columns order.

(** The schema extraction of [loadParquetData] (lines 340-376).
    [rangeOrder] is the iteration order the Go runtime picks for a map in
    this run. *)
Definition extractColumns (rangeOrder : gmap string Value -> list string)
    (sampleData : list GoRecord) : list string :=
  match sampleData with
  | [] => []
  | v :: _ =>
      match v with
      | MapRecord data => schemaMapLoop (rangeOrder data) []
      | StructRecord fields => schemaFieldLoop fields []
      | OtherRecord => []
      end
  end.

(** *** One row of cells from a record *)

(** [fmt.Sprintf("%v", val.Field(i).Interface())]: [Interface] panics on
    a field that is not exported. *)
Definition fieldCell (field : StructField) : option string :=
  if Exported field then Some (Sprintf_v (FieldValue field)) else None.

(** Inner loop over the parts of one tag (lines 441-451, 528-538);
    [break] leaves this loop only. *)
Fixpoint rowPartsLoop (col : string) (field : StructField)
    (parts : list string) (row : list string) (found : bool)
  : option (list string * bool) :=
  match parts with
  | [] => Some (row, found)
  | part :: parts' =>
      if GoStrings.HasPrefix part "name="%string then
        let tagName := GoStrings.TrimPrefix part "name="%string in
        let tagName := GoStrings.TrimSpace tagName in
        if String.eqb tagName col then
          match fieldCell field with
          | None => None
          | Some cell => Some (row ++ [cell], true)
          end
        else rowPartsLoop col field parts' row found
      else rowPartsLoop col field parts' row found
  end.

(** Loop over the fields for one column (lines 433-457, 520-544); the
    [break] of the untagged branch leaves this loop. *)
Fixpoint rowFieldLoop (col : string) (fields : list StructField)
    (row : list string) (found : bool) : option (list string * bool) :=
  match fields with
  | [] => Some (row, found)
  | field :: fields' =>
      let tag := TagParquet field in
      let name := Name field in
      if negb (String.eqb tag EmptyString) then
        match rowPartsLoop col field (GoStrings.Split tag ","%char) row found with
        | None => None
        | Some (row', found') => rowFieldLoop col fields' row' found'
        end
      else if String.eqb name col then
        match fieldCell field with
        | None => None
        | Some cell => Some (row ++ [cell], true)
        end
      else rowFieldLoop col fields' row found
  end.

(** Loop over the columns, struct case (lines 431-461, 518-548). *)
Fixpoint rowStructLoop (columns : list string) (fields : list StructField)
    (row : list string) : option (list string) :=
  match columns with
  | [] => Some row
  | col :: columns' =>
      match rowFieldLoop col fields row false with
      | None => None
      | Some (row', found) =>
          rowStructLoop columns' fields
            (if found then row' else row' ++ ["<nil>"%string])
      end
  end.

(** Loop over the columns, map case (lines 420-426, 507-513). *)
Fixpoint rowMapLoop (columns : list string) (data : gmap string Value)
    (row : list string) : list string :=
  match columns with
  | [] => row
  | col :: columns' =>
      match data !! col with
      | Some val => rowMapLoop columns' data (row ++ [Sprintf_v val])
      | None => rowMapLoop columns' data (row ++ ["<nil>"%string])
      end
  end.

(** Loop over the columns, any other kind (lines 464-466, 551-553). *)
Fixpoint rowOtherLoop (columns : list string) (row : list string)
  : list string :=
  match columns with
  | [] => row
  | _ :: columns' => rowOtherLoop columns' (row ++ ["<unsupported>"%string])
  end.

(** The row decoding that [loadParquetData] (lines 413-468) and
    [loadMoreRows] (lines 500-555) both perform on [rowData[0]], by the
    same code; [None] is a panic. *)
Definition decodeRow (columns : list string) (data : GoRecord)
  : option (list string) :=
  match data with
  | MapRecord data => Some (rowMapLoop columns data [])
  | StructRecord fields => rowStructLoop columns fields []
  | OtherRecord => Some (rowOtherLoop columns [])
  end.

End Records.

(* ===================================================================== *)
(** ** The data source: files, readers and the heap of readers *)
(* ===================================================================== *)

Section DataSource.

Context `{GoValue}.

(** What one [ReadByNumber(1)] call finds at a position of the file: a
    record, or a read error. *)
Definition Stored : Type := (GoRecord + GoError)%type.

(** A parquet file on disk, as the collaborators answer for it:
    the row slots in order, the row count of the footer, the result
    of the [k]-th [NewParquetReader] on it, and the result of [Close]. *)
Record FileData : Type := {
  fd_rows : list Stored;
  fd_numRows : Z;
  fd_newReaderErr : nat -> option GoError;
  fd_closeErr : option GoError
}.

(** A [reader.ParquetReader]: a forward-only cursor over the rows. *)
Record ParquetReader : Type := {
  rd_rows : list Stored;
  rd_numRows : Z;
  rd_pos : nat;
  rd_stopped : bool
}.

Definition Heap : Type := list ParquetReader.

(** The surroundings of one run: the file system, and the order in which
    the runtime ranges over a map. *)
Record Env : Type := {
  env_open : string -> GoError + FileData;
  env_rangeOrder : gmap string Value -> list string
}.

(** [reader.NewParquetReader(fr, nil, 4)] on success. *)
Definition NewParquetReader (fd : FileData) : ParquetReader :=
  {| rd_rows := fd_rows fd; rd_numRows := fd_numRows fd;
     rd_pos := 0%nat; rd_stopped := false |}.

Definition advanceReader (pr : ParquetReader) : ParquetReader :=
  {| rd_rows := rd_rows pr; rd_numRows := rd_numRows pr;
     rd_pos := S (rd_pos pr); rd_stopped := rd_stopped pr |}.

(** [pr.ReadStop()]. *)
Definition ReadStop (pr : ParquetReader) : ParquetReader :=
  {| rd_rows := rd_rows pr; rd_numRows := rd_numRows pr;
     rd_pos := rd_pos pr; rd_stopped := true |}.

(** [pr.ReadByNumber(1)]: the rows read (at most one), the error, and
    the reader afterwards.  Past the last row the result is empty with
    no error, which is the case line 496 tests for.  Two answers of the
    collaborator are not fixed by this program and are chosen here: a
    stopped reader, having released its column buffers, answers with an
    error; and a read that fails has consumed its slot.  No property
    below depends on either choice. *)
Definition ReadByNumber1 (pr : ParquetReader)
  : list GoRecord * option GoError * ParquetReader :=
  if rd_stopped pr then ([], Some "reader stopped"%string, pr)
  else match rd_rows pr !! rd_pos pr with
       | None => ([], None, pr)
       | Some (inl data) => ([data], None, advanceReader pr)
       | Some (inr e) => ([], Some e, advanceReader pr)
       end.

(** [pr.GetNumRows()]. *)
Definition GetNumRows (pr : ParquetReader) : Z := rd_numRows pr.

(** What a background task hands to the run-time: a panic, or a message
    (possibly the nil message). *)
Inductive TaskResult : Type :=
| TPanic
| TMsg (msg : option Msg).

(** [err := fr.Close(); if err != nil { return nil }; return msg]. *)
Definition closeThen (fr : ParquetFile) (msg : Msg) : TaskResult :=
  match pf_closeErr fr with
  | Some _ => TMsg None
  | None => TMsg (Some msg)
  end.

(** Result of the loop reading the initial rows. *)
Inductive LoopResult : Type :=
| LoopPanic
| LoopFail (i : nat) (pr : ParquetReader)
| LoopDone (rows : list (list string)) (pr : ParquetReader).

(** [for i := 0; i < num; i++ { ... }] of [loadParquetData] (lines
    398-471), with [n] iterations left. *)
Fixpoint readLoop (n : nat) (i : nat) (pr : ParquetReader)
    (columns : list string) (rows : list (list string)) : LoopResult :=
  match n with
  | O => LoopDone rows pr
  | S n' =>
      let '(rowData, err, pr) := ReadByNumber1 pr in
      match err with
      | Some _ => LoopFail i pr
      | None =>
          match rowData with
          | [] => readLoop n' (S i) pr columns rows
          | data :: _ =>
              match decodeRow columns data with
              | None => LoopPanic
              | Some row => readLoop n' (S i) pr columns (rows ++ [row])
              end
          end
      end
  end.

(** [loadParquetData] loads data from a parquet file (lines 296-481):
    the body of the command it returns.  The [err] that the four inner
    failure messages print is the shadowing [err] of [fr.Close()], which
    is nil where it is printed.  [make([][]string, 0, num)] panics on a
    negative [num]. *)
Definition loadParquetData (env : Env) (filePath : string) (maxRows : Z)
    (h : Heap) : TaskResult * Heap :=
  if String.eqb filePath EmptyString then
    (TMsg (Some (ParquetDataMsg (parquetDataErr "no parquet file specified"))), h)
  else
  match env_open env filePath with
  | inl err =>
      (TMsg (Some (ParquetDataMsg (parquetDataErr
         ("failed to open parquet file: " +:+ err)))), h)
  | inr fd =>
      let fr := {| pf_path := filePath; pf_closeErr := fd_closeErr fd |} in
      match fd_newReaderErr fd 0 with
      | Some _ =>
          (closeThen fr (ParquetDataMsg (parquetDataErr
             "failed to create parquet reader: <nil>")), h)
      | None =>
          let pr := NewParquetReader fd in
          let '(sampleData, err, pr) := ReadByNumber1 pr in
          match err with
          | Some _ =>
              (closeThen fr (ParquetDataMsg (parquetDataErr
                 "failed to read sample data: <nil>")), h ++ [ReadStop pr])
          | None =>
              let h := h ++ [ReadStop pr] in
              match fd_newReaderErr fd 1 with
              | Some _ =>
                  (closeThen fr (ParquetDataMsg (parquetDataErr
                     "failed to reset parquet reader: <nil>")), h)
              | None =>
                  let pr := NewParquetReader fd in
                  let columns := extractColumns (env_rangeOrder env) sampleData in
                  if (GoInt.len columns =? 0)%Z then
                    (closeThen fr (ParquetDataMsg (parquetDataErr
                       "could not determine columns from parquet file")),
                     h ++ [ReadStop pr])
                  else
                    let totalRows := GoInt.wrap (GetNumRows pr) in
                    let num := totalRows in
                    let num := if (num >? maxRows)%Z then maxRows else num in
                    if (num <? 0)%Z then (TPanic, h ++ [pr])
                    else
                      match readLoop (Z.to_nat num) 0 pr columns [] with
                      | LoopPanic => (TPanic, h ++ [pr])
                      | LoopFail i pr =>
                          (closeThen fr (ParquetDataMsg (parquetDataErr
                             ("failed to read row " +:+ GoStrings.Itoa i +:+ ": <nil>"))),
                           h ++ [ReadStop pr])
                      | LoopDone rows pr =>
                          (TMsg (Some (ParquetDataMsg
                             {| pd_columns := columns; pd_rows := rows;
                                pd_err := None; pd_totalRows := totalRows;
                                pd_parquetReader := Some (length h);
                                pd_parquetFile := Some fr |})),
                           h ++ [pr])
                      end
              end
          end
      end
  end.

(** One entry of [os.ReadDir]. *)
Record DirEntry : Type := { de_Name : string; de_IsDir : bool }.

(** [findParquetFiles] searches for parquet files in the current
    directory (lines 272-293): the body of the command, given what
    [os.Getwd] and [os.ReadDir] return ([None] when either fails). *)
Definition findParquetFiles (dir : option (list DirEntry)) : Msg :=
  match dir with
  | None => ParquetFilesMsg []
  | Some files =>
      ParquetFilesMsg
        (foldl (fun parquetFiles file =>
                  if negb (de_IsDir file)
                     && GoStrings.HasSuffix (de_Name file) ".parquet"
                  then parquetFiles ++ [de_Name file] else parquetFiles)
               [] files)
  end.

End DataSource.

(* ===================================================================== *)
(** ** The model and its message handler *)
(* ===================================================================== *)

Section Program.

Context `{Bubbles} `{GoValue}.

(** [Model] represents the application state (lines 28-45). *)
Record Model : Type := {
  table : table_Model;
  textInput : textinput_Model;
  filePath : string;
  error : option GoError;
  columns : list string;
  rows : list (list string);
  maxRows : Z;
  isLoading : bool;
  viewState : ViewState;
  parquetFiles : list string;
  selectedFile : Z;
  currentRowOffset : Z;
  totalRows : Z;
  parquetReader : option ReaderRef;
  parquetFile : option ParquetFile
}.

(** Field assignments [m.f = v]. *)
Definition set_table v m : Model :=
  {| table := v; textInput := textInput m; filePath := filePath m;
     error := error m; columns := columns m; rows := rows m;
     maxRows := maxRows m; isLoading := isLoading m;
     viewState := viewState m; parquetFiles := parquetFiles m;
     selectedFile := selectedFile m; currentRowOffset := currentRowOffset m;
     totalRows := totalRows m; parquetReader := parquetReader m;
     parquetFile := parquetFile m |}.
Definition set_textInput v m : Model :=
  {| table := table m; textInput := v; filePath := filePath m;
     error := error m; columns := columns m; rows := rows m;
     maxRows := maxRows m; isLoading := isLoading m;
     viewState := viewState m; parquetFiles := parquetFiles m;
     selectedFile := selectedFile m; currentRowOffset := currentRowOffset m;
     totalRows := totalRows m; parquetReader := parquetReader m;
     parquetFile := parquetFile m |}.
Definition set_filePath v m : Model :=
  {| table := table m; textInput := textInput m; filePath := v;
     error := error m; columns := columns m; rows := rows m;
     maxRows := maxRows m; isLoading := isLoading m;
     viewState := viewState m; parquetFiles := parquetFiles m;
     selectedFile := selectedFile m; currentRowOffset := currentRowOffset m;
     totalRows := totalRows m; parquetReader := parquetReader m;
     parquetFile := parquetFile m |}.
Definition set_error v m : Model :=
  {| table := table m; textInput := textInput m; filePath := filePath m;
     error := v; columns := columns m; rows := rows m;
     maxRows := maxRows m; isLoading := isLoading m;
     viewState := viewState m; parquetFiles := parquetFiles m;
     selectedFile := selectedFile m; currentRowOffset := currentRowOffset m;
     totalRows := totalRows m; parquetReader := parquetReader m;
     parquetFile := parquetFile m |}.
Definition set_columns v m : Model :=
  {| table := table m; textInput := textInput m; filePath := filePath m;
     error := error m; columns := v; rows := rows m;
     maxRows := maxRows m; isLoading := isLoading m;
     viewState := viewState m; parquetFiles := parquetFiles m;
     selectedFile := selectedFile m; currentRowOffset := currentRowOffset m;
     totalRows := totalRows m; parquetReader := parquetReader m;
     parquetFile := parquetFile m |}.
Definition set_rows v m : Model :=
  {| table := table m; textInput := textInput m; filePath := filePath m;
     error := error m; columns := columns m; rows := v;
     maxRows := maxRows m; isLoading := isLoading m;
     viewState := viewState m; parquetFiles := parquetFiles m;
     selectedFile := selectedFile m; currentRowOffset := currentRowOffset m;
     totalRows := totalRows m; parquetReader := parquetReader m;
     parquetFile := parquetFile m |}.
Definition set_isLoading v m : Model :=
  {| table := table m; textInput := textInput m; filePath := filePath m;
     error := error m; columns := columns m; rows := rows m;
     maxRows := maxRows m; isLoading := v;
     viewState := viewState m; parquetFiles := parquetFiles m;
     selectedFile := selectedFile m; currentRowOffset := currentRowOffset m;
     totalRows := totalRows m; parquetReader := parquetReader m;
     parquetFile := parquetFile m |}.
Definition set_viewState v m : Model :=
  {| table := table m; textInput := textInput m; filePath := filePath m;
     error := error m; columns := columns m; rows := rows m;
     maxRows := maxRows m; isLoading := isLoading m;
     viewState := v; parquetFiles := parquetFiles m;
     selectedFile := selectedFile m; currentRowOffset := currentRowOffset m;
     totalRows := totalRows m; parquetReader := parquetReader m;
     parquetFile := parquetFile m |}.
Definition set_parquetFiles v m : Model :=
  {| table := table m; textInput := textInput m; filePath := filePath m;
     error := error m; columns := columns m; rows := rows m;
     maxRows := maxRows m; isLoading := isLoading m;
     viewState := viewState m; parquetFiles := v;
     selectedFile := selectedFile m; currentRowOffset := currentRowOffset m;
     totalRows := totalRows m; parquetReader := parquetReader m;
     parquetFile := parquetFile m |}.
Definition set_selectedFile v m : Model :=
  {| table := table m; textInput := textInput m; filePath := filePath m;
     error := error m; columns := columns m; rows := rows m;
     maxRows := maxRows m; isLoading := isLoading m;
     viewState := viewState m; parquetFiles := parquetFiles m;
     selectedFile := v; currentRowOffset := currentRowOffset m;
     totalRows := totalRows m; parquetReader := parquetReader m;
     parquetFile := parquetFile m |}.
Definition set_currentRowOffset v m : Model :=
  {| table := table m; textInput := textInput m; filePath := filePath m;
     error := error m; columns := columns m; rows := rows m;
     maxRows := maxRows m; isLoading := isLoading m;
     viewState := viewState m; parquetFiles := parquetFiles m;
     selectedFile := selectedFile m; currentRowOffset := v;
     totalRows := totalRows m; parquetReader := parquetReader m;
     parquetFile := parquetFile m |}.
Definition set_totalRows v m : Model :=
  {| table := table m; textInput := textInput m; filePath := filePath m;
     error := error m; columns := columns m; rows := rows m;
     maxRows := maxRows m; isLoading := isLoading m;
     viewState := viewState m; parquetFiles := parquetFiles m;
     selectedFile := selectedFile m; currentRowOffset := currentRowOffset m;
     totalRows := v; parquetReader := parquetReader m;
     parquetFile := parquetFile m |}.
Definition set_parquetReader v m : Model :=
  {| table := table m; textInput := textInput m; filePath := filePath m;
     error := error m; columns := columns m; rows := rows m;
     maxRows := maxRows m; isLoading := isLoading m;
     viewState := viewState m; parquetFiles := parquetFiles m;
     selectedFile := selectedFile m; currentRowOffset := currentRowOffset m;
     totalRows := totalRows m; parquetReader := v;
     parquetFile := parquetFile m |}.
Definition set_parquetFile v m : Model :=
  {| table := table m; textInput := textInput m; filePath := filePath m;
     error := error m; columns := columns m; rows := rows m;
     maxRows := maxRows m; isLoading := isLoading m;
     viewState := viewState m; parquetFiles := parquetFiles m;
     selectedFile := selectedFile m; currentRowOffset := currentRowOffset m;
     totalRows := totalRows m; parquetReader := parquetReader m;
     parquetFile := v |}.

(** A [tea.Cmd], by what it will do.  [CmdLoadMoreRows m] is the closure
    [loadMoreRows(m)], which holds the model by value. *)
Inductive Cmd : Type :=
| CmdNil
| CmdQuit
| CmdWidget (c : WidgetCmd)
| CmdFindParquetFiles
| CmdLoadParquetData (filePath : string) (maxRows : Z)
| CmdLoadMoreRows (m : Model)
| CmdBatch (c1 c2 : Cmd).

Definition widgetCmd (c : option WidgetCmd) : Cmd :=
  match c with Some c => CmdWidget c | None => CmdNil end.

(** What [Update] does: it panics, or returns a model (possibly the nil
    model) and a command. *)
Inductive Outcome : Type :=
| Panic
| Return (m : option Model) (cmd : Cmd).

(** [Init] initializes the application (lines 47-53). *)
Definition Init (m : Model) : Cmd :=
  if negb (String.eqb (filePath m) EmptyString) then
    CmdLoadParquetData (filePath m) (maxRows m)
  else CmdBatch (CmdWidget textinput_Blink) CmdFindParquetFiles.

(** The model [main] builds from the command line arguments after the
    program name (lines 569-591). *)
Definition initialModel (args : list string) : Model :=
  let filePath := match args with a :: _ => a | [] => EmptyString end in
  let viewState := match args with _ :: _ => TableView | [] => InputView end in
  {| table := table_zero; textInput := textinput_New; filePath := filePath;
     error := None; columns := []; rows := [];
     maxRows := 32; isLoading := negb (String.eqb filePath EmptyString);
     viewState := viewState; parquetFiles := [];
     selectedFile := 0; currentRowOffset := 0; totalRows := 0;
     parquetReader := None; parquetFile := None |}.

(** [s[i]] on a slice with an [int] index: [None] is the index-out-of-
    range panic. *)
Definition index {A} (s : list A) (i : Z) : option A :=
  if (i <? 0)%Z then None else s !! Z.to_nat i.

(** The part of [Update] after the message switch (lines 183-204): the
    text input gets the message in the input view; in the table view the
    table gets it and the cursor is compared to decide whether to load one
    more row. *)
Definition updateTail (m : Model) (msg : Msg) : Outcome :=
  if decide (viewState m = InputView) then
    let '(ti, cmd) := textinput_Update (textInput m) msg in
    let m := set_textInput ti m in
    Return (Some m) (widgetCmd cmd)
  else if decide (viewState m = TableView) then
    let oldCursor := table_Cursor (table m) in
    let '(t, cmd) := table_Update (table m) msg in
    let m := set_table t m in
    let newCursor := table_Cursor (table m) in
    if (newCursor >? oldCursor)%Z
       && (newCursor =? GoInt.sub (GoInt.len (rows m)) 1)%Z
       && (GoInt.add (currentRowOffset m) (GoInt.len (rows m)) <? totalRows m)%Z
    then Return (Some m) (CmdLoadMoreRows m)
    else Return (Some m) (widgetCmd cmd)
  else Return (Some m) CmdNil.

(** Heap effect of [m.parquetReader.ReadStop()]. *)
Definition stopReader (p : ReaderRef) (h : Heap) : Heap :=
  match h !! p with
  | Some pr => <[p := ReadStop pr]> h
  | None => h
  end.

(** The [q]/[esc] branch taken in the table view (lines 71-86). *)
Definition leaveTable (m : Model) (h : Heap) : Outcome * Heap :=
  let '(m, h) :=
    match parquetReader m with
    | Some p => (set_parquetReader None m, stopReader p h)
    | None => (m, h)
    end in
  match parquetFile m with
  | Some fr =>
      match pf_closeErr fr with
      | Some _ => (Return None CmdNil, h)
      | None =>
          let m := set_parquetFile None m in
          let m := set_viewState FileSelectView m in
          (Return (Some m) CmdFindParquetFiles, h)
      end
  | None =>
      let m := set_viewState FileSelectView m in
      (Return (Some m) CmdFindParquetFiles, h)
  end.

Definition keyIs (key a : string) : bool := String.eqb key a.

(** [Update] handles events and updates the model (lines 55-205). *)
Definition Update (m : Model) (msg : Msg) (h : Heap) : Outcome * Heap :=
  match msg with
  | ParquetFilesMsg files =>
      let m := set_parquetFiles files m in
      let m := if (GoInt.len (parquetFiles m) >? 0)%Z
               then set_viewState FileSelectView m else m in
      (Return (Some m) CmdNil, h)

  | KeyMsg key =>
      if keyIs key "ctrl+d" then (Return (Some m) CmdQuit, h)
      else if keyIs key "q" || keyIs key "esc" then
        if decide (viewState m = TableView) then leaveTable m h
        else (updateTail m msg, h)
      else if keyIs key "enter" then
        if bool_decide (viewState m = InputView)
           && negb (String.eqb (textinput_Value (textInput m)) EmptyString)
        then
          let m := set_filePath (textinput_Value (textInput m)) m in
          let m := set_isLoading true m in
          let m := set_viewState TableView m in
          (Return (Some m) (CmdLoadParquetData (filePath m) (maxRows m)), h)
        else if bool_decide (viewState m = FileSelectView)
                && (GoInt.len (parquetFiles m) >? 0)%Z
        then
          match index (parquetFiles m) (selectedFile m) with
          | None => (Panic, h)
          | Some file =>
              let m := set_filePath file m in
              let m := set_isLoading true m in
              let m := set_viewState TableView m in
              (Return (Some m) (CmdLoadParquetData (filePath m) (maxRows m)), h)
          end
        else (updateTail m msg, h)
      else if keyIs key "up" || keyIs key "k" then
        let m :=
          if decide (viewState m = FileSelectView) then
            let m := set_selectedFile (GoInt.sub (selectedFile m) 1) m in
            if (selectedFile m <? 0)%Z
            then set_selectedFile (GoInt.sub (GoInt.len (parquetFiles m)) 1) m
            else m
          else m in
        (updateTail m msg, h)
      else if keyIs key "down" || keyIs key "j" then
        let m :=
          if decide (viewState m = FileSelectView) then
            let m := set_selectedFile (GoInt.add (selectedFile m) 1) m in
            if (selectedFile m >=? GoInt.len (parquetFiles m))%Z
            then set_selectedFile 0 m
            else m
          else m in
        (updateTail m msg, h)
      else (updateTail m msg, h)

  | ParquetDataMsg d =>
      let m := set_isLoading false m in
      match pd_err d with
      | Some err => (Return (Some (set_error (Some err) m)) CmdNil, h)
      | None =>
          let m := set_columns (pd_columns d) m in
          let m := set_rows (pd_rows d) m in
          let m := set_totalRows (pd_totalRows d) m in
          let m := set_parquetReader (pd_parquetReader d) m in
          let m := set_parquetFile (pd_parquetFile d) m in
          let m := set_currentRowOffset (GoInt.len (pd_rows d)) m in
          let columns' :=
            foldl (fun columns col => columns ++ [{| Title := col; Width := 20 |}])
                  [] (columns m) in
          let rows' := foldl (fun rows row => rows ++ [row]) [] (rows m) in
          let t := table_New columns' rows' in
          let m := set_table t m in
          (updateTail m msg, h)
      end

  | MoreRowsMsg r =>
      match mr_err r with
      | Some err => (Return (Some (set_error (Some err) m)) CmdNil, h)
      | None =>
          match rows m with
          | [] => (Panic, h)
          | _ :: rest =>
              let m := set_rows (rest ++ [mr_newRow r]) m in
              let m := set_currentRowOffset (GoInt.add (currentRowOffset m) 1) m in
              let rows' := foldl (fun rows row => rows ++ [row]) [] (rows m) in
              let cursor := GoInt.sub (GoInt.len rows') 1 in
              let t := table_SetRows (table m) rows' in
              let t := table_SetCursor t cursor in
              let m := set_table t m in
              (Return (Some m) CmdNil, h)
          end
      end

  | OtherMsg _ => (updateTail m msg, h)
  end.

(** [loadMoreRows] loads one more row from the parquet file (lines
    483-559): the body of the command [loadMoreRows(m)]. *)
Definition loadMoreRows (m : Model) (h : Heap) : TaskResult * Heap :=
  match parquetReader m with
  | None =>
      (TMsg (Some (MoreRowsMsg
         {| mr_newRow := []; mr_err := Some "parquet reader is not initialized"%string |})), h)
  | Some p =>
      match h !! p with
      | None => (TPanic, h)
      | Some pr =>
          let '(rowData, err, pr) := ReadByNumber1 pr in
          let h := <[p := pr]> h in
          match err with
          | Some err =>
              (TMsg (Some (MoreRowsMsg
                 {| mr_newRow := [];
                    mr_err := Some ("failed to read row: " +:+ err) |})), h)
          | None =>
              match rowData with
              | [] =>
                  (TMsg (Some (MoreRowsMsg
                     {| mr_newRow := [];
                        mr_err := Some "no more rows to read"%string |})), h)
              | data :: _ =>
                  match decodeRow (columns m) data with
                  | None => (TPanic, h)
                  | Some row =>
                      (TMsg (Some (MoreRowsMsg
                         {| mr_newRow := row; mr_err := None |})), h)
                  end
              end
          end
      end
  end.

Definition nl : string := String (ascii_of_nat 10) EmptyString.

(** The list of candidate files, with the selected one marked. *)
Fixpoint viewFiles (files : list string) (i : Z) (selectedFile : Z) (s : string)
  : string :=
  match files with
  | [] => s
  | file :: files' =>
      viewFiles files' (i + 1) selectedFile
        (if (i =? selectedFile)%Z
         then s +:+ "  > " +:+ file +:+ nl
         else s +:+ "    " +:+ file +:+ nl)
  end.

(** [View] renders the application UI (lines 207-248). *)
Definition View (m : Model) : string :=
  if decide (viewState m = InputView) then
    nl +:+ "  Enter path to parquet file:" +:+ nl +:+ nl +:+ "  "
       +:+ textinput_View (textInput m) +:+ nl +:+ nl
       +:+ "  (Press Enter to load file, Ctrl+D to quit)" +:+ nl
  else if decide (viewState m = FileSelectView) then
    if (GoInt.len (parquetFiles m) =? 0)%Z then
      nl +:+ "  No parquet files found in current directory." +:+ nl +:+ nl
         +:+ "  Enter path to parquet file:" +:+ nl +:+ nl +:+ "  "
         +:+ textinput_View (textInput m) +:+ nl +:+ nl
         +:+ "  (Press Enter to load file, Ctrl+D to quit)" +:+ nl
    else
      let s := nl +:+ "  Select a parquet file to view:" +:+ nl +:+ nl in
      let s := viewFiles (parquetFiles m) 0 (selectedFile m) s in
      s +:+ nl +:+ "  (Press Enter to select, Ctrl+D to quit)" +:+ nl
  else if isLoading m then "Loading parquet data..."
  else match error m with
       | Some err =>
           "Error: " +:+ err +:+ nl +:+ nl
             +:+ "Press q or ESC to go back, Ctrl+D to quit"
       | None =>
           if (GoInt.len (columns m) =? 0)%Z then
             "No data found in parquet file." +:+ nl +:+ nl
               +:+ "Press q or ESC to go back, Ctrl+D to quit"
           else
             nl +:+ table_View (table m) +:+ nl +:+ nl
                +:+ "Press q or ESC to go back, Ctrl+D to quit"
       end.

End Program.

(* ===================================================================== *)
(** ** Running the program: a table session *)
(* ===================================================================== *)

Section Session.

Context `{Bubbles} `{GoValue}.

(** A state of the running program: the model the run-time holds and
    the heap of readers. *)
Definition State : Type := (Model * Heap)%type.

(** Handle one message, whatever becomes of the command returned.
    [None] when the program panicked or lost its model. *)
Definition handle (s : State) (msg : Msg) : option State :=
  match Update s.1 msg s.2 with
  | (Return (Some m) _, h) => Some (m, h)
  | _ => None
  end.

(** Handle a sequence of messages that arrive in this order. *)
Fixpoint handleAll (msgs : list Msg) (s : State) : option State :=
  match msgs with
  | [] => Some s
  | msg :: msgs' =>
      match handle s msg with
      | Some s' => handleAll msgs' s'
      | None => None
      end
  end.

(** The text the table view shows for an error. *)
Definition errorText (err : GoError) : string :=
  "Error: " +:+ err +:+ nl +:+ nl
    +:+ "Press q or ESC to go back, Ctrl+D to quit".

(** Carry one handled message to rest: when the handler asked for one
    more row, the task [loadMoreRows(m)] runs and its result message is
    handled next.  [None] when the program panicked or lost its model. *)
Definition settle (r : Outcome * Heap) : option State :=
  match r with
  | (Return (Some m) (CmdLoadMoreRows mc), h) =>
      match loadMoreRows mc h with
      | (TMsg (Some res), h) =>
          match Update m res h with
          | (Return (Some m) _, h) => Some (m, h)
          | _ => None
          end
      | (TMsg None, h) => Some (m, h)
      | (TPanic, _) => None
      end
  | (Return (Some m) _, h) => Some (m, h)
  | _ => None
  end.

(** Handle one message in state [s]. *)
Definition step (s : State) (msg : Msg) : option State :=
  settle (Update s.1 msg s.2).

(** Messages of a table session: key presses other than the two that
    leave the table, and messages of the run-time. *)
Definition tableMsg (msg : Msg) : bool :=
  match msg with
  | KeyMsg key => negb (keyIs key "q" || keyIs key "esc")
  | OtherMsg _ => true
  | _ => false
  end.

(** Handle a sequence of messages. *)
Fixpoint run (msgs : list Msg) (s : State) : option State :=
  match msgs with
  | [] => Some s
  | msg :: msgs' =>
      match step s msg with
      | Some s' => run msgs' s'
      | None => None
      end
  end.

(** Open a file from model [m]: the task [loadParquetData] runs and its
    message is handled. *)
Definition openFile (env : Env) (path : string) (s : State) : option State :=
  match loadParquetData env path (maxRows s.1) s.2 with
  | (TMsg (Some msg), h) => step (s.1, h) msg
  | _ => None
  end.




(** The source row a cell row was decoded from. *)
Definition decodedFrom (columns : list string) (src : list GoRecord)
    (k : nat) (row : list string) : Prop :=
  exists data, src !! k = Some data /\ decodeRow columns data = Some row.

(** A file all of whose rows can be read, with a truthful footer. *)
Record valid_file (fd : FileData) (src : list GoRecord) : Prop := {
  vf_rows : fd_rows fd = inl <$> src;
  vf_numRows : fd_numRows fd = Z.of_nat (length src);
  vf_range : (Z.of_nat (length src) < GoInt.half)%Z;
  vf_reader0 : fd_newReaderErr fd 0 = None;
  vf_reader1 : fd_newReaderErr fd 1 = None
}.

(** The columns the file opens with, and rows that all decode. *)
Definition fileColumns (env : Env) (src : list GoRecord) : list string :=
  extractColumns (env_rangeOrder env) (take 1 src).

Definition decodable (columns : list string) (src : list GoRecord) : Prop :=
  Forall (fun data => is_Some (decodeRow columns data)) src.

(** Two models with the same window, reader and view. *)
Definition sameWindow (m m' : Model) : Prop :=
  viewState m' = viewState m /\ columns m' = columns m
  /\ totalRows m' = totalRows m /\ rows m' = rows m
  /\ parquetReader m' = parquetReader m
  /\ currentRowOffset m' = currentRowOffset m.

(** A struct all of whose fields are exported and carry no parquet tag:
    the shape the reader builds from a file's schema. *)
Definition plainStruct (fields : list StructField) : Prop :=
  Forall (fun field => TagParquet field = EmptyString /\ Exported field = true)
         fields.

(** A valid file at [path], with rows [src]: it opens, every row can be
    read and decoded, and its first row yields at least one column. *)
Record validFile (env : Env) (path : string) (src : list GoRecord) : Prop := {
  valid_path : path <> EmptyString;
  valid_open : exists fd, env_open env path = inr fd /\ valid_file fd src;
  valid_columns : fileColumns env src <> [];
  valid_decodable : decodable (fileColumns env src) src
}.

(** The state of a table session on a file whose rows are [src], opened
    with columns [columns] and a window of [w] rows: the reader stands
    at the offset the model records, the window holds the [w] rows that
    end there, and the offset is within the file. *)
Definition windowInv (cols : list string) (src : list GoRecord) (w : nat)
    (s : State) : Prop :=
  viewState s.1 = TableView
  /\ columns s.1 = cols
  /\ totalRows s.1 = Z.of_nat (length src)
  /\ length (rows s.1) = w
  /\ exists (p : ReaderRef) (pr : ParquetReader),
      parquetReader s.1 = Some p
      /\ s.2 !! p = Some pr
      /\ rd_rows pr = inl <$> src
      /\ rd_stopped pr = false
      /\ currentRowOffset s.1 = Z.of_nat (rd_pos pr)
      /\ (w <= rd_pos pr <= length src)%nat
      /\ forall (i : nat) (row : list string),
          rows s.1 !! i = Some row ->
          decodedFrom cols src (rd_pos pr - w + i) row.

End Session.

(* ===================================================================== *)
(** ** Concrete widgets, values and files for running the program *)
(* ===================================================================== *)

Module Fixture.

(** A table widget that keeps its rows and a cursor clamped to them, and
    moves the cursor by one on the up and down keys while focused. *)
Record Tbl : Type := {
  tb_columns : list Column;
  tb_rows : list (list string);
  tb_cursor : Z;
  tb_focus : bool
}.

Definition clamp (v lo hi : Z) : Z := Z.min (Z.max v lo) (Z.max lo hi).

Definition tbl_setCursor (t : Tbl) (n : Z) : Tbl :=
  {| tb_columns := tb_columns t; tb_rows := tb_rows t;
     tb_cursor := clamp n 0 (GoInt.len (tb_rows t) - 1);
     tb_focus := tb_focus t |}.

Definition tbl_update (t : Tbl) (msg : Msg) : Tbl * option unit :=
  if negb (tb_focus t) then (t, None)
  else match msg with
       | KeyMsg key =>
           if String.eqb key "up" || String.eqb key "k"
           then (tbl_setCursor t (tb_cursor t - 1), None)
           else if String.eqb key "down" || String.eqb key "j"
           then (tbl_setCursor t (tb_cursor t + 1), None)
           else (t, None)
       | _ => (t, None)
       end.

Definition renderRows (rs : list (list string)) : string :=
  String.concat nl (List.map (String.concat " ") rs).

(** A text input that appends one-byte keys to its buffer. *)
Definition input_update (buf : string) (msg : Msg) : string * option unit :=
  match msg with
  | KeyMsg (String c EmptyString) => (buf +:+ String c EmptyString, None)
  | _ => (buf, None)
  end.

Definition bubbles : Bubbles :=
  {| table_Model := Tbl;
     textinput_Model := string;
     WidgetCmd := unit;
     table_zero := {| tb_columns := []; tb_rows := []; tb_cursor := 0;
                      tb_focus := false |};
     table_New := fun cols rs =>
       {| tb_columns := cols; tb_rows := rs; tb_cursor := 0; tb_focus := true |};
     table_Cursor := tb_cursor;
     table_Update := tbl_update;
     table_SetRows := fun t rs =>
       {| tb_columns := tb_columns t; tb_rows := rs; tb_cursor := tb_cursor t;
          tb_focus := tb_focus t |};
     table_SetCursor := tbl_setCursor;
     table_View := fun t => renderRows (tb_rows t);
     textinput_New := EmptyString;
     textinput_Value := fun buf => buf;
     textinput_Update := input_update;
     textinput_View := fun buf => buf;
     textinput_Blink := tt |}.

(** Values are numbers, printed in decimal. *)
Definition values : GoValue :=
  {| Value := N; Sprintf_v := fun n => NilZero.string_of_uint (N.to_uint n) |}.

#[local] Existing Instance bubbles.
#[local] Existing Instance values.

(** A record of the map shape with two keys. *)
Definition mapRow (k : nat) : GoRecord :=
  MapRecord (<["id" := N.of_nat k]> (<["sq" := (N.of_nat k * N.of_nat k)%N]> ∅)).

(** A record of the struct shape, two untagged exported fields. *)
Definition structRow (k : nat) : GoRecord :=
  StructRecord
    [ {| Name := "Id"; TagParquet := EmptyString; Exported := true;
         FieldValue := N.of_nat k |};
      {| Name := "Sq"; TagParquet := EmptyString; Exported := true;
         FieldValue := (N.of_nat k * N.of_nat k)%N |} ].

(** A readable file holding the given rows. *)
Definition fileOf (src : list GoRecord) : FileData :=
  {| fd_rows := inl <$> src; fd_numRows := Z.of_nat (length src);
     fd_newReaderErr := fun _ => None; fd_closeErr := None |}.

Definition structFile (n : nat) : FileData := fileOf (structRow <$> seq 0 n).
Definition mapFile (n : nat) : FileData := fileOf (mapRow <$> seq 0 n).

(** Two orders in which a run may range over the keys of a map: one
    enumeration of the keys, and the same enumeration backwards. *)
Definition forwards (data : gmap string Value) : list string :=
  (map_to_list data).*1.
Definition backwards (data : gmap string Value) : list string :=
  rev (map_to_list data).*1.

(** A file system with files of 2, 5, 10, 64 and 100 struct rows and
    one of 3 map rows. *)
Definition openDemo (path : string) : GoError + FileData :=
  if String.eqb path "two.parquet" then inr (structFile 2)
  else if String.eqb path "five.parquet" then inr (structFile 5)
  else if String.eqb path "ten.parquet" then inr (structFile 10)
  else if String.eqb path "sixtyfour.parquet" then inr (structFile 64)
  else if String.eqb path "hundred.parquet" then inr (structFile 100)
  else if String.eqb path "maps.parquet" then inr (mapFile 3)
  else inl "no such file or directory"%string.

Definition env : Env :=
  {| env_open := openDemo; env_rangeOrder := forwards |}.

Definition envBackwards : Env :=
  {| env_open := openDemo; env_rangeOrder := backwards |}.

(** The program started with a path on the command line, before any
    message. *)
Definition started (path : string) : State := (initialModel [path], []).


Definition sourceRows (n : nat) : list GoRecord := structRow <$> seq 0 n.


(** The load of the 10-row file run from an empty heap, and the message
    it hands back. *)
Definition tenLoad : TaskResult * Heap :=
  loadParquetData env "ten.parquet" 32 [].
Definition tenData : Msg :=
  match tenLoad.1 with
  | TMsg (Some msg) => msg
  | _ => OtherMsg "nil"
  end.

(** A first load has failed; then the user goes back, picks the 10-row
    file from the list, and that load succeeds. *)
Definition failedLoad : State :=
  (set_error (Some "failed to open parquet file: no such file or directory"%string)
     (set_isLoading false (initialModel ["nope.parquet"%string])),
   tenLoad.2).
Definition thenSuccess : list Msg :=
  [ KeyMsg "q"; ParquetFilesMsg ["ten.parquet"]; KeyMsg "enter"; tenData ].


(** The program started without arguments. *)
Definition startedBare : State := (initialModel [], []).

(** Three candidates are found, the third is selected and opened, the
    user leaves the table, and the directory scan that follows finds
    one candidate only. *)
Definition shorterList : list Msg :=
  [ ParquetFilesMsg ["five.parquet"; "hundred.parquet"; "ten.parquet"];
    KeyMsg "down"; KeyMsg "down"; KeyMsg "enter";
    ParquetDataMsg (parquetDataErr "failed to open parquet file: gone");
    KeyMsg "q";
    ParquetFilesMsg ["five.parquet"] ].

(** Started on a path, the user leaves the table and presses up before
    the directory scan answers; then the scan finds one candidate. *)
Definition upOnEmptyList : list Msg :=
  [ KeyMsg "q"; KeyMsg "up"; ParquetFilesMsg ["five.parquet"] ].

(** A struct whose two fields both announce the column [x]. *)
Definition sharedName : GoRecord :=
  StructRecord
    [ {| Name := "A"; TagParquet := "name=x"; Exported := true; FieldValue := 1%N |};
      {| Name := "B"; TagParquet := "name=x"; Exported := true; FieldValue := 2%N |} ].

(** A struct with a matching field that is not exported. *)
Definition unexported : GoRecord :=
  StructRecord
    [ {| Name := "id"; TagParquet := EmptyString; Exported := false;
         FieldValue := 7%N |} ].

(** Struct fields with a tag that announces no name at its head. *)
Definition typeOnly : StructField :=
  {| Name := "Age"; TagParquet := "type=INT32"; Exported := true;
     FieldValue := 18%N |}.
Definition nameSecond : StructField :=
  {| Name := "Age"; TagParquet := "type=INT32, name=age"; Exported := true;
     FieldValue := 18%N |}.
Definition plainId : StructField :=
  {| Name := "Id"; TagParquet := EmptyString; Exported := true;
     FieldValue := 1%N |}.
Definition nameFirst : StructField :=
  {| Name := "Age"; TagParquet := "name=age, type=INT32"; Exported := true;
     FieldValue := 18%N |}.

End Fixture.

(* ===================================================================== *)
(** ** Declarative readings of the schema extraction *)
(* ===================================================================== *)

Section SchemaSpec.

Context `{GoValue}.

(** The name a tag announces: the trimmed text after [name=] of the
    first comma-separated part that starts with [name=]. *)
Definition tagName (tag : string) : option string :=
  match List.find (fun part => GoStrings.HasPrefix part "name=")
                  (GoStrings.Split tag ","%char) with
  | Some part => Some (GoStrings.TrimSpace (GoStrings.TrimPrefix part "name="))
  | None => None
  end.

(** The columns one declared field contributes. *)
Definition fieldColumns (field : StructField) : list string :=
  if String.eqb (TagParquet field) EmptyString then [Name field]
  else match tagName (TagParquet field) with
       | Some name => [name]
       | None => []
       end.

(** The keys of a map-shaped record. *)
Definition keysOf (data : gmap string Value) : list string :=
  (map_to_list data).*1.

(** An iteration order the runtime may pick: some enumeration of the
    keys of each map, each key once. *)
Definition rangesOverKeys (rangeOrder : gmap string Value -> list string) : Prop :=
  forall data, rangeOrder data ≡ₚ keysOf data.

End SchemaSpec.

(* ===================================================================== *)
(** ** Declarative readings of the row decoder *)
(* ===================================================================== *)

Section DecoderSpec.

Context `{GoValue}.

(** Whether a part of a tag names the column. *)
Definition partNames (col : string) (part : string) : bool :=
  GoStrings.HasPrefix part "name="
  && String.eqb (GoStrings.TrimSpace (GoStrings.TrimPrefix part "name=")) col.

(** Whether a field answers to a column in the row decoder: a tagged field
    when a part of its tag names the column, an untagged field when its
    identifier is the column. *)
Definition announces (col : string) (field : StructField) : bool :=
  if negb (String.eqb (TagParquet field) EmptyString)
  then existsb (partNames col) (GoStrings.Split (TagParquet field) ","%char)
  else String.eqb (Name field) col.

(** The cell of a column in a struct: the value of the first field that
    answers to it, the placeholder when none does. *)
Definition structCell (fields : list StructField) (col : string) : string :=
  match List.find (announces col) fields with
  | Some field => Sprintf_v (FieldValue field)
  | None => "<nil>"%string
  end.

(** The cell of a column in a map. *)
Definition mapCell (data : gmap string Value) (col : string) : string :=
  match data !! col with
  | Some val => Sprintf_v val
  | None => "<nil>"%string
  end.

(** A byte string without a comma. *)
Fixpoint commaFree (s : string) : bool :=
  match s with
  | EmptyString => true
  | String c s' => negb (Ascii.eqb c ","%char) && commaFree s'
  end.

End DecoderSpec.

(* ===================================================================== *)
(** ** More concrete records, files and models *)
(* ===================================================================== *)

Module Samples.

#[local] Existing Instance Fixture.bubbles.
#[local] Existing Instance Fixture.values.

(** An unexported field that no column names. *)
Definition secret : StructField :=
  {| Name := "secret"; TagParquet := EmptyString; Exported := false;
     FieldValue := 7%N |}.


(** A map with two keys. *)
Definition idSq : gmap string Value :=
  <["id" := 2%N]> (<["sq" := 4%N]> ∅).

(** A directory with two parquet files, a text file and a directory
    whose name ends in [.parquet]. *)
Definition listing : list DirEntry :=
  [ {| de_Name := "a.parquet"; de_IsDir := false |};
    {| de_Name := "notes.txt"; de_IsDir := false |};
    {| de_Name := "old.parquet"; de_IsDir := true |};
    {| de_Name := "b.parquet"; de_IsDir := false |} ].

(** The file list with three candidates and the last one selected. *)
Definition lastOfThree : Model :=
  set_selectedFile 2
    (set_viewState FileSelectView
       (set_parquetFiles ["five.parquet"; "hundred.parquet"; "ten.parquet"]
          (initialModel []))).

(** The file list after the table was left and the scan found nothing. *)
Definition emptyList : Model :=
  set_viewState FileSelectView (initialModel ["ten.parquet"%string]).

(** A table on the two-row file, with the reader at address 0. *)
Definition onTwoRows : State :=
  (set_columns ["Id"; "Sq"]%string
     (set_parquetReader (Some 0%nat)
        (set_isLoading false (initialModel ["two.parquet"%string]))),
   [NewParquetReader (Fixture.structFile 2)]).

(** A file whose third row cannot be read. *)
Definition brokenFile : FileData :=
  {| fd_rows := [inl (Fixture.structRow 0); inl (Fixture.structRow 1);
                 inr "bad page"%string];
     fd_numRows := 3;
     fd_newReaderErr := fun _ => None;
     fd_closeErr := None |}.

Definition env : Env :=
  {| env_open := fun path =>
       if String.eqb path "broken.parquet" then inr brokenFile
       else Fixture.openDemo path;
     env_rangeOrder := Fixture.forwards |}.

(** A load result that points to the reader at address 1. *)
Definition laterLoad : parquetDataMsg :=
  {| pd_columns := ["Id"; "Sq"]%string; pd_rows := [["0"; "0"]%string];
     pd_err := None; pd_totalRows := 5;
     pd_parquetReader := Some 1%nat; pd_parquetFile := None |}.

(** Two live readers on the heap, none of them held by the model. *)
Definition twoReaders : State :=
  (initialModel ["five.parquet"%string],
   [NewParquetReader (Fixture.structFile 2);
    NewParquetReader (Fixture.structFile 5)]).

End Samples.

(* ===================================================================== *)
(** * Properties *)
(* ===================================================================== *)

(** ** Machine integers *)

Ltac unfold_int :=
  unfold GoInt.in_range, GoInt.add, GoInt.sub, GoInt.wrap in *;
  change GoInt.half with 9223372036854775808%Z in *;
  change GoInt.modulus with 18446744073709551616%Z in *.

Lemma wrap_in_range (z : Z) : GoInt.in_range z -> GoInt.wrap z = z.
Proof.
  intros Hz. unfold_int. rewrite Z.mod_small by lia. lia.
Qed.

Lemma wrap_range (z : Z) : GoInt.in_range (GoInt.wrap z).
Proof.
  unfold_int.
  pose proof (Z.mod_pos_bound (z + 9223372036854775808) 18446744073709551616
                ltac:(lia)).
  lia.
Qed.

(** ** The [strings] functions *)

Example Split_student_tag :
  GoStrings.Split "name=age, type=INT32" ","%char = ["name=age"; " type=INT32"]%string.
Proof. reflexivity. Qed.

Example TrimSpace_ex : GoStrings.TrimSpace "  a b	 "%string = "a b"%string.
Proof. reflexivity. Qed.

(** ** The schema extraction *)

Section SchemaFacts.

Context `{GoValue}.

Lemma schemaMapLoop_app (order columns : list string) :
  schemaMapLoop order columns = columns ++ order.
Proof.
  unfold schemaMapLoop. revert columns.
  induction order as [|k order IH]; intros columns; simpl.
  - by rewrite app_nil_r.
  - rewrite IH. by rewrite <- app_assoc.
Qed.

Lemma schemaPartsLoop_find (parts columns : list string) :
  schemaPartsLoop parts columns =
  columns ++
    match List.find (fun part => GoStrings.HasPrefix part "name=") parts with
    | Some part => [GoStrings.TrimSpace (GoStrings.TrimPrefix part "name=")]
    | None => []
    end.
Proof.
  induction parts as [|part parts IH]; simpl.
  - by rewrite app_nil_r.
  - destruct (GoStrings.HasPrefix part "name="); [done | apply IH].
Qed.

Lemma schemaFieldLoop_concat (fields : list StructField) (columns : list string) :
  schemaFieldLoop fields columns = columns ++ concat (fieldColumns <$> fields).
Proof.
  revert columns. induction fields as [|field fields IH]; intros columns; simpl.
  - by rewrite app_nil_r.
  - unfold fieldColumns at 1, tagName.
    destruct (String.eqb (TagParquet field) EmptyString); simpl.
    + rewrite IH. by rewrite <- app_assoc.
    + rewrite IH, schemaPartsLoop_find, <- app_assoc. f_equal. f_equal.
      by destruct (List.find _ _).
Qed.

Lemma fieldColumns_length (field : StructField) :
  (length (fieldColumns field) <= 1)%nat.
Proof.
  unfold fieldColumns.
  destruct (String.eqb _ _); [simpl; lia|].
  destruct (tagName _); simpl; lia.
Qed.

Lemma concat_fieldColumns_length (fields : list StructField) :
  (length (concat (fieldColumns <$> fields)) <= length fields)%nat.
Proof.
  induction fields as [|field fields IH]; [simpl; lia|].
  rewrite fmap_cons, concat_cons, length_app, length_cons.
  pose proof (fieldColumns_length field). lia.
Qed.

(** C7 (amended). For a struct-shaped sample record the columns are the
    contributions of the declared fields, in declaration order, and each
    field contributes at most one column: an untagged field its own
    identifier; a tagged field the trimmed text after [name=] of the
    first comma-separated part of the tag that starts with [name=], and
    nothing at all when no part does. *)
Theorem extractColumns_struct_fields
    (rangeOrder : gmap string Value -> list string)
    (fields : list StructField) (rest : list GoRecord) :
  extractColumns rangeOrder (StructRecord fields :: rest)
    = concat (fieldColumns <$> fields)
  /\ (length (extractColumns rangeOrder (StructRecord fields :: rest))
        <= length fields)%nat
  /\ (forall field, TagParquet field = EmptyString ->
        fieldColumns field = [Name field])
  /\ (forall field name, TagParquet field <> EmptyString ->
        tagName (TagParquet field) = Some name ->
        fieldColumns field = [name])
  /\ (forall field, TagParquet field <> EmptyString ->
        tagName (TagParquet field) = None ->
        fieldColumns field = []).
Proof.
  simpl. rewrite schemaFieldLoop_concat. simpl.
  split; [done|]. split; [apply concat_fieldColumns_length|].
  unfold fieldColumns. repeat split.
  - intros field ->. done.
  - intros field name Hne ->.
    destruct (String.eqb_spec (TagParquet field) EmptyString); done.
  - intros field Hne ->.
    destruct (String.eqb_spec (TagParquet field) EmptyString); done.
Qed.

(** C6 (amended). The columns of a struct-shaped sample record (and of
    a record of any other non-map kind) do not depend on the run; those
    of a map-shaped record are its keys in the order this run's [range]
    visits them, so two runs give the same columns up to order. *)
Theorem extractColumns_runs
    (order1 order2 : gmap string Value -> list string) :
  (forall fields rest,
      extractColumns order1 (StructRecord fields :: rest)
      = extractColumns order2 (StructRecord fields :: rest))
  /\ (forall rest,
      extractColumns order1 (OtherRecord :: rest)
      = extractColumns order2 (OtherRecord :: rest))
  /\ (forall data rest,
      extractColumns order1 (MapRecord data :: rest) = order1 data)
  /\ (rangesOverKeys order1 -> rangesOverKeys order2 ->
      forall data rest,
        extractColumns order1 (MapRecord data :: rest)
        ≡ₚ extractColumns order2 (MapRecord data :: rest)).
Proof.
  repeat split; try done.
  - intros data rest. simpl. by rewrite schemaMapLoop_app.
  - intros H1 H2 data rest. simpl. rewrite !schemaMapLoop_app. simpl.
    by rewrite (H1 data), (H2 data).
Qed.

End SchemaFacts.

(** ** The row decoder *)

Section DecoderFacts.

Context `{GoValue}.

Lemma rowMapLoop_length (columns : list string) (data : gmap string Value)
    (row : list string) :
  length (rowMapLoop columns data row) = (length row + length columns)%nat.
Proof.
  revert row. induction columns as [|col columns IH]; intros row; simpl.
  - lia.
  - destruct (data !! col); rewrite IH, length_app; simpl; lia.
Qed.

Lemma rowOtherLoop_length (columns : list string) (row : list string) :
  length (rowOtherLoop columns row) = (length row + length columns)%nat.
Proof.
  revert row. induction columns as [|col columns IH]; intros row; simpl.
  - lia.
  - rewrite IH, length_app; simpl; lia.
Qed.

(** Records of the map shape and of the unsupported kinds always decode,
    to one cell per column. *)
Lemma decodeRow_map_other (columns : list string) (data : GoRecord) :
  (forall fields, data <> StructRecord fields) ->
  exists row, decodeRow columns data = Some row
              /\ length row = length columns.
Proof.
  intros Hshape. destruct data as [m|fields|]; simpl.
  - eexists; split; [done|]. by rewrite rowMapLoop_length.
  - by destruct (Hshape fields).
  - eexists; split; [done|]. by rewrite rowOtherLoop_length.
Qed.

Lemma rowFieldLoop_plain (col : string) (fields : list StructField)
    (row : list string) :
  plainStruct fields ->
  exists row' found,
    rowFieldLoop col fields row false = Some (row', found)
    /\ length (if found then row' else row' ++ ["<nil>"%string])
       = S (length row).
Proof.
  intros Hplain. induction Hplain as [|field fields [Htag Hexp] _ IH]; simpl.
  - exists row, false. split; [done|]. rewrite length_app. simpl. lia.
  - rewrite Htag. simpl. destruct (String.eqb (Name field) col).
    + unfold fieldCell. rewrite Hexp. eexists _, true. split; [done|].
      rewrite length_app. simpl. lia.
    + apply IH.
Qed.

Lemma rowStructLoop_plain (columns : list string) (fields : list StructField)
    (row : list string) :
  plainStruct fields ->
  exists row', rowStructLoop columns fields row = Some row'
               /\ length row' = (length row + length columns)%nat.
Proof.
  intros Hplain. revert row.
  induction columns as [|col columns IH]; intros row; simpl.
  - exists row. split; [done | lia].
  - destruct (rowFieldLoop_plain col fields row Hplain)
      as (row1 & found & -> & Hlen).
    destruct (IH (if found then row1 else row1 ++ ["<nil>"%string]))
      as (row' & -> & Hlen').
    exists row'. split; [done | lia].
Qed.

(** The decoder is total, with one cell per column, on every record of
    the map shape, of an unsupported kind, or of the struct shape with
    plain fields (exported, without parquet tag). *)
Lemma decodeRow_plain (columns : list string) (data : GoRecord) :
  (forall fields, data = StructRecord fields -> plainStruct fields) ->
  exists row, decodeRow columns data = Some row
              /\ length row = length columns.
Proof.
  intros Hplain. destruct data as [m|fields|].
  - apply decodeRow_map_other. done.
  - simpl. destruct (rowStructLoop_plain columns fields [] (Hplain _ eq_refl))
      as (row & -> & Hlen).
    exists row. split; [done|]. simpl in Hlen. lia.
  - apply decodeRow_map_other. done.
Qed.

(** X1. The row decoder is total, with exactly one cell per column, on
    every record of the map shape, of an unsupported kind, or of the
    struct shape with plain fields (exported, without parquet tag). *)
Theorem decodeRow_total_on_plain (columns : list string) (data : GoRecord) :
  (forall fields, data = StructRecord fields -> plainStruct fields) ->
  exists row, decodeRow columns data = Some row
              /\ length row = length columns.
Proof. apply decodeRow_plain. Qed.

End DecoderFacts.

(** C5. The row decoder on a struct whose two fields both announce the
    column [x]: the [break] of the tag branch leaves only the loop over
    the parts of the tag, the loop over the fields goes on, and the one
    column receives two cells. *)
Lemma decodeRow_shared_name_two_cells :
  @decodeRow Fixture.values ["x"%string] Fixture.sharedName
  = Some ["1"%string; "2"%string]
  /\ length ["x"%string] = 1%nat.
Proof. split; reflexivity. Qed.

(** A struct with a matching field that is not exported: reading the
    field's value panics, and the decoder returns no row. *)
Lemma decodeRow_unexported_panics :
  @decodeRow Fixture.values ["id"%string] Fixture.unexported = None.
Proof. reflexivity. Qed.

(** ** The message handler *)

Section UpdateFacts.

Context `{Bubbles} `{GoValue}.

(** The tail of [Update] touches the two widgets only. *)
Lemma updateTail_returns (m : Model) (msg : Msg) :
  exists m' cmd,
    updateTail m msg = Return (Some m') cmd
    /\ error m' = error m /\ rows m' = rows m /\ columns m' = columns m
    /\ currentRowOffset m' = currentRowOffset m /\ totalRows m' = totalRows m
    /\ viewState m' = viewState m /\ isLoading m' = isLoading m
    /\ parquetReader m' = parquetReader m /\ parquetFile m' = parquetFile m
    /\ parquetFiles m' = parquetFiles m /\ selectedFile m' = selectedFile m
    /\ maxRows m' = maxRows m /\ filePath m' = filePath m.
Proof.
  unfold updateTail.
  destruct (decide (viewState m = InputView)).
  - destruct (textinput_Update (textInput m) msg) as [ti cmd].
    eexists _, _. split; [done|]. simpl. repeat split; done.
  - destruct (decide (viewState m = TableView)).
    + destruct (table_Update (table m) msg) as [t cmd]. simpl.
      destruct (_ && _ && _); eexists _, _; (split; [done|]);
        simpl; repeat split; done.
    + eexists _, _. split; [done|]. repeat split; done.
Qed.

(** When the tail asks for one more row: the view is the table, the
    cursor moved forward onto the last row, and the offset test passed;
    the closure holds the model returned. *)
Lemma updateTail_trigger (m : Model) (msg : Msg) (m' : option Model) (mc : Model) :
  updateTail m msg = Return m' (CmdLoadMoreRows mc) <->
  viewState m = TableView
  /\ m' = Some mc
  /\ mc = set_table (table_Update (table m) msg).1 m
  /\ (table_Cursor (table mc) > table_Cursor (table m))%Z
  /\ table_Cursor (table mc) = GoInt.sub (GoInt.len (rows m)) 1
  /\ (GoInt.add (currentRowOffset m) (GoInt.len (rows m)) < totalRows m)%Z.
Proof.
  unfold updateTail.
  destruct (decide (viewState m = InputView)) as [Hin|Hin].
  - destruct (textinput_Update (textInput m) msg) as [ti cmd].
    split.
    + intros Heq. destruct cmd; simpl in Heq; discriminate.
    + intros (Hv & _). congruence.
  - destruct (decide (viewState m = TableView)) as [Htab|Htab].
    + destruct (table_Update (table m) msg) as [t cmd] eqn:Htu. simpl.
      destruct (table_Cursor t >? table_Cursor (table m))%Z eqn:E1;
        destruct (table_Cursor t =? GoInt.sub (GoInt.len (rows m)) 1)%Z eqn:E2;
        destruct (GoInt.add (currentRowOffset m) (GoInt.len (rows m))
                  <? totalRows m)%Z eqn:E3; simpl;
        (split;
         [ intros Heq; try (destruct cmd; simpl in Heq; discriminate);
           inversion Heq; subst; simpl; repeat split; try done; lia
         | intros (_ & -> & -> & H1 & H2 & H3); simpl in *; try lia; done ]).
    + split; [discriminate|]. intros (Hv & _). congruence.
Qed.

(** The handler of a one-row result does not look at the view state. *)
Lemma Update_moreRows (m : Model) (r : moreRowsMsg) (h : Heap) :
  Update m (MoreRowsMsg r) h =
  match mr_err r with
  | Some err => (Return (Some (set_error (Some err) m)) CmdNil, h)
  | None =>
      match rows m with
      | [] => (Panic, h)
      | _ :: rest =>
          let m1 := set_currentRowOffset (GoInt.add (currentRowOffset m) 1)
                      (set_rows (rest ++ [mr_newRow r]) m) in
          (Return (Some
             (set_table
                (table_SetCursor (table_SetRows (table m) (rest ++ [mr_newRow r]))
                   (GoInt.sub (GoInt.len (rest ++ [mr_newRow r])) 1)) m1))
             CmdNil, h)
      end
  end.
Proof.
  simpl. destruct (mr_err r); [done|]. destruct (rows m) as [|row0 rest]; [done|].
  simpl.
  assert (Hcopy : forall (l acc : list (list string)),
             foldl (fun rows row => rows ++ [row]) acc l = acc ++ l).
  { induction l as [|x l IH]; intros acc; simpl.
    - by rewrite app_nil_r.
    - rewrite IH. by rewrite <- app_assoc. }
  by rewrite Hcopy.
Qed.

End UpdateFacts.

Section ErrorSlot.

Context `{Bubbles} `{GoValue}.

Ltac use_tail :=
  match goal with
  | Heq : context [updateTail ?m ?msg] |- _ =>
      let m1 := fresh "m1" in
      let c1 := fresh "c1" in
      let Ht := fresh "Ht" in
      let He := fresh "He" in
      destruct (updateTail_returns m msg) as (m1 & c1 & Ht & He & _);
      rewrite Ht in Heq; simplify_eq/=
  end.

(** No branch of [Update] stores nil in the error slot. *)
Lemma Update_error_kept (m : Model) (msg : Msg) (h : Heap)
    (m' : Model) (cmd : Cmd) (h' : Heap) :
  Update m msg h = (Return (Some m') cmd, h') ->
  is_Some (error m) -> is_Some (error m').
Proof.
  intros Heq Herr. destruct msg as [key|files|d|r|tag].
  - unfold Update, leaveTable in Heq.
    repeat (case_match; simplify_eq/=; try done); try use_tail;
      try (rewrite He; simpl; done); try done.
  - unfold Update in Heq. repeat (case_match; simplify_eq/=); done.
  - unfold Update in Heq. destruct (pd_err d); simplify_eq/=; [done|].
    use_tail. rewrite He. simpl. done.
  - rewrite Update_moreRows in Heq.
    repeat (case_match; simplify_eq/=); done.
  - unfold Update in Heq. use_tail. rewrite He. done.
Qed.

Lemma handleAll_error_kept (msgs : list Msg) (s s' : State) :
  handleAll msgs s = Some s' ->
  is_Some (error s.1) -> is_Some (error s'.1).
Proof.
  revert s. induction msgs as [|msg msgs IH]; intros [m h]; simpl.
  - intros [= <-]. done.
  - unfold handle. simpl.
    destruct (Update m msg h) as [[|[m1|] c1] h1] eqn:Heq; try discriminate.
    intros Hrun Herr. apply (IH (m1, h1) Hrun). simpl.
    eapply Update_error_kept; eauto.
Qed.

(** C9. A failed load stores its error; after that no sequence of
    messages, whatever they are (a later successful load included),
    brings the error slot back to nil, and whenever the table view is
    shown and is not loading it renders the error text, not the
    table. *)
Theorem error_slot_never_reset :
  (forall (m : Model) (d : parquetDataMsg) (err : GoError) (h : Heap),
      pd_err d = Some err ->
      Update m (ParquetDataMsg d) h
      = (Return (Some (set_error (Some err) (set_isLoading false m))) CmdNil, h))
  /\ (forall (s s' : State) (msgs : list Msg),
      is_Some (error s.1) ->
      handleAll msgs s = Some s' ->
      exists err, error s'.1 = Some err
                  /\ (viewState s'.1 = TableView -> isLoading s'.1 = false ->
                      View s'.1 = errorText err)).
Proof.
  split.
  - intros m d err h Hd. simpl. by rewrite Hd.
  - intros s s' msgs Herr Hrun.
    destruct (handleAll_error_kept msgs s s' Hrun Herr) as [err Hsome].
    exists err. split; [done|]. intros Hv Hl.
    unfold View. rewrite Hv, Hl, Hsome. simpl. done.
Qed.


End ErrorSlot.

(** ** The data source *)

Section ReaderFacts.

Context `{GoValue}.

Lemma ReadByNumber1_row (pr : ParquetReader) (src : list GoRecord)
    (data : GoRecord) :
  rd_rows pr = inl <$> src -> rd_stopped pr = false ->
  src !! rd_pos pr = Some data ->
  ReadByNumber1 pr = ([data], None, advanceReader pr).
Proof.
  intros Hrows Hlive Hat. unfold ReadByNumber1.
  rewrite Hlive, Hrows, list_lookup_fmap, Hat. done.
Qed.

Lemma ReadByNumber1_end (pr : ParquetReader) (src : list GoRecord) :
  rd_rows pr = inl <$> src -> rd_stopped pr = false ->
  (length src <= rd_pos pr)%nat ->
  ReadByNumber1 pr = ([], None, pr).
Proof.
  intros Hrows Hlive Hend. unfold ReadByNumber1.
  rewrite Hlive, Hrows, list_lookup_fmap.
  rewrite (lookup_ge_None_2 src (rd_pos pr)) by lia. done.
Qed.

(** The initial read loop on a readable file: [n] rows from the
    reader's position on, decoded in order. *)
Lemma readLoop_rows (columns : list string) (src : list GoRecord) :
  decodable columns src ->
  forall (n i : nat) (pr : ParquetReader) (rows : list (list string)),
    rd_rows pr = inl <$> src -> rd_stopped pr = false ->
    (rd_pos pr + n <= length src)%nat ->
    exists rows' pr',
      readLoop n i pr columns rows = LoopDone (rows ++ rows') pr'
      /\ length rows' = n
      /\ rd_rows pr' = inl <$> src /\ rd_stopped pr' = false
      /\ rd_numRows pr' = rd_numRows pr
      /\ rd_pos pr' = (rd_pos pr + n)%nat
      /\ forall j row, rows' !! j = Some row ->
           decodedFrom columns src (rd_pos pr + j) row.
Proof.
  intros Hdec. induction n as [|n IH]; intros i pr rows Hrows Hlive Hfit.
  - exists [], pr. simpl. rewrite app_nil_r. repeat split; try done; try lia.
  - destruct (lookup_lt_is_Some_2 src (rd_pos pr) ltac:(lia)) as [data Hat].
    simpl. rewrite (ReadByNumber1_row pr src data Hrows Hlive Hat).
    destruct (proj1 (Forall_forall _ _) Hdec data
                ltac:(eapply list_elem_of_lookup_2; eauto)) as [row Hrow].
    rewrite Hrow.
    destruct (IH (S i) (advanceReader pr) (rows ++ [row]))
      as (rows' & pr' & Hloop & Hlen & Hr & Hs & Hn & Hp & Hwin);
      try done; [simpl; lia|].
    exists (row :: rows'), pr'. rewrite Hloop, <- app_assoc. simpl.
    repeat split; try done; try lia.
    + simpl in Hp. lia.
    + intros [|j] row' Hj; simpl in Hj.
      * simplify_eq. exists data. by rewrite Nat.add_0_r.
      * specialize (Hwin j row' Hj). simpl in Hwin.
        by replace (rd_pos pr + S j)%nat with (S (rd_pos pr) + j)%nat by lia.
Qed.

End ReaderFacts.

Section LoadFacts.

Context `{GoValue}.

Lemma fileColumns_nonempty_src (env : Env) (src : list GoRecord) :
  fileColumns env src <> [] -> exists data rest, src = data :: rest.
Proof.
  destruct src as [|data rest]; [done|]. intros _. by exists data, rest.
Qed.

(** The load of a readable file succeeds: its message carries the
    columns of the first row, the first [min maxRows totalRows] rows
    decoded in order, the row count, and a reader standing after the
    rows read. *)
Lemma loadParquetData_valid (env : Env) (path : string) (fd : FileData)
    (src : list GoRecord) (W : Z) (h : Heap) :
  path <> EmptyString ->
  env_open env path = inr fd ->
  valid_file fd src ->
  fileColumns env src <> [] ->
  decodable (fileColumns env src) src ->
  (0 <= W)%Z ->
  exists (rows : list (list string)) (pr0 pr : ParquetReader),
    loadParquetData env path W h
    = (TMsg (Some (ParquetDataMsg
         {| pd_columns := fileColumns env src; pd_rows := rows;
            pd_err := None; pd_totalRows := Z.of_nat (length src);
            pd_parquetReader := Some (S (length h));
            pd_parquetFile :=
              Some {| pf_path := path; pf_closeErr := fd_closeErr fd |} |})),
       (h ++ [pr0]) ++ [pr])
    /\ length rows = Nat.min (Z.to_nat W) (length src)
    /\ rd_rows pr = inl <$> src /\ rd_stopped pr = false
    /\ rd_pos pr = length rows
    /\ forall j row, rows !! j = Some row ->
         decodedFrom (fileColumns env src) src j row.
Proof.
  intros Hpath Hopen Hvalid Hcols Hdec HW.
  destruct Hvalid as [Hrows Hnum Hrange Hr0 Hr1].
  destruct (fileColumns_nonempty_src env src Hcols) as (data0 & rest & Hsrc).
  unfold loadParquetData.
  destruct (String.eqb_spec path EmptyString) as [|_]; [done|].
  rewrite Hopen, Hr0.
  rewrite (ReadByNumber1_row (NewParquetReader fd) src data0);
    [|done|done|by rewrite Hsrc].
  cbv beta iota zeta. rewrite Hr1.
  assert (Hcolumns : extractColumns (env_rangeOrder env) [data0]
                     = fileColumns env src).
  { unfold fileColumns. by rewrite Hsrc. }
  rewrite Hcolumns.
  assert (Hlen0 : (GoInt.len (fileColumns env src) =? 0)%Z = false).
  { apply Z.eqb_neq. unfold GoInt.len.
    destruct (fileColumns env src); [done | simpl; lia]. }
  rewrite Hlen0.
  assert (Htotal : GoInt.wrap (GetNumRows (NewParquetReader fd))
                   = Z.of_nat (length src)).
  { simpl. rewrite Hnum. apply wrap_in_range. unfold_int. lia. }
  rewrite Htotal.
  set (num := if (Z.of_nat (length src) >? W)%Z then W else Z.of_nat (length src)).
  assert (Hnum' : Z.to_nat num = Nat.min (Z.to_nat W) (length src)).
  { subst num. destruct (Z.gtb_spec (Z.of_nat (length src)) W); lia. }
  assert (Hneg : (num <? 0)%Z = false).
  { apply Z.ltb_ge. subst num.
    destruct (Z.gtb_spec (Z.of_nat (length src)) W); lia. }
  rewrite Hneg.
  destruct (readLoop_rows (fileColumns env src) src Hdec
              (Z.to_nat num) 0 (NewParquetReader fd) [])
    as (rows & pr & Hloop & Hlen & Hrd & Hlive & _ & Hpos & Hwin);
    [done | done | simpl; lia |].
  rewrite Hloop. simpl.
  exists rows, (ReadStop (advanceReader (NewParquetReader fd))), pr.
  rewrite length_app. simpl.
  replace (length h + 1)%nat with (S (length h)) by lia.
  repeat split; try done.
  - lia.
  - simpl in Hpos. lia.
Qed.

End LoadFacts.

(** ** The table session *)

Section SessionFacts.

Context `{Bubbles} `{GoValue}.

Lemma windowInv_sameWindow cols src w (m m' : Model) (h : Heap) :
  sameWindow m m' -> windowInv cols src w (m, h) -> windowInv cols src w (m', h).
Proof.
  intros (Hv & Hc & Ht & Hr & Hp & Ho).
  unfold windowInv. simpl. rewrite Hv, Hc, Ht, Hr, Hp, Ho. done.
Qed.

Lemma updateTail_sameWindow (m : Model) (msg : Msg) :
  exists m' cmd, updateTail m msg = Return (Some m') cmd /\ sameWindow m m'.
Proof.
  destruct (updateTail_returns m msg)
    as (m' & cmd & Heq & _ & Hr & Hc & Ho & Ht & Hv & _ & Hp & _).
  exists m', cmd. split; [done|]. repeat split; done.
Qed.

(** A message of a table session, handled in the table view, reaches
    the tail of [Update] with the model as it was, or quits. *)
Lemma Update_tableMsg (m : Model) (msg : Msg) (h : Heap) :
  viewState m = TableView -> tableMsg msg = true ->
  Update m msg h = (updateTail m msg, h)
  \/ Update m msg h = (Return (Some m) CmdQuit, h).
Proof.
  intros Hv Hmsg. destruct msg as [key| | | |tag]; try discriminate.
  - simpl in Hmsg. apply negb_true_iff in Hmsg.
    unfold Update. rewrite Hmsg, Hv. simpl.
    repeat (case_match; simplify_eq/=; try done); auto.
  - by left.
Qed.

(** The handled data message of a successful load. *)
Lemma Update_data (m : Model) (d : parquetDataMsg) (h : Heap) :
  pd_err d = None ->
  exists m' cmd,
    Update m (ParquetDataMsg d) h = (Return (Some m') cmd, h)
    /\ rows m' = pd_rows d /\ columns m' = pd_columns d
    /\ totalRows m' = pd_totalRows d
    /\ currentRowOffset m' = GoInt.len (pd_rows d)
    /\ parquetReader m' = pd_parquetReader d
    /\ parquetFile m' = pd_parquetFile d
    /\ viewState m' = viewState m /\ error m' = error m
    /\ isLoading m' = false /\ maxRows m' = maxRows m
    /\ (forall mc, cmd = CmdLoadMoreRows mc -> mc = m').
Proof.
  intros Herr. unfold Update. rewrite Herr.
  match goal with |- context [updateTail ?m1 ?msg] =>
    destruct (updateTail_returns m1 msg)
      as (m' & cmd & Heq & He & Hr & Hc & Ho & Ht & Hv & Hl & Hp & Hf & _ & _ & Hm & _);
    pose proof (updateTail_trigger m1 msg (Some m')) as Htrig
  end.
  rewrite Heq in *. exists m', cmd. split; [done|].
  simpl in *. repeat split; try done.
  intros mc ->. destruct (proj1 (Htrig mc) eq_refl) as (_ & Hsome & _).
  congruence.
Qed.

Variables (cols : list string) (src : list GoRecord) (w : nat).
Hypothesis Hdec : decodable cols src.
Hypothesis Hrange : (Z.of_nat (length src) < GoInt.half)%Z.

(** The task [loadMoreRows] in a table session: it decodes the row at
    the reader's position and moves the reader, or, at the end of the
    file, reports that there are no more rows and leaves the reader. *)
Lemma loadMoreRows_session (m : Model) (h : Heap) :
  windowInv cols src w (m, h) ->
  exists (p : ReaderRef) (pr : ParquetReader),
    parquetReader m = Some p /\ h !! p = Some pr
    /\ currentRowOffset m = Z.of_nat (rd_pos pr)
    /\ ((rd_pos pr < length src)%nat ->
        exists row,
          loadMoreRows m h
          = (TMsg (Some (MoreRowsMsg {| mr_newRow := row; mr_err := None |})),
             <[p := advanceReader pr]> h)
          /\ decodedFrom cols src (rd_pos pr) row)
    /\ (rd_pos pr = length src ->
        loadMoreRows m h
        = (TMsg (Some (MoreRowsMsg
             {| mr_newRow := []; mr_err := Some "no more rows to read"%string |})),
           h)).
Proof.
  intros (Hv & Hc & Ht & Hl & p & pr & Hp & Hh & Hrows & Hlive & Ho & Hpos & Hwin).
  simpl in *. exists p, pr. repeat split; try done.
  - intros Hlt.
    destruct (lookup_lt_is_Some_2 src (rd_pos pr) Hlt) as [data Hat].
    destruct (proj1 (Forall_forall _ _) Hdec data
                ltac:(eapply list_elem_of_lookup_2; eauto)) as [row Hrow].
    exists row. split; [|by exists data].
    unfold loadMoreRows. rewrite Hp, Hh.
    rewrite (ReadByNumber1_row pr src data Hrows Hlive Hat).
    cbv beta iota zeta. rewrite Hc, Hrow. done.
  - intros Hend. unfold loadMoreRows. rewrite Hp, Hh.
    rewrite (ReadByNumber1_end pr src Hrows Hlive ltac:(lia)).
    cbv beta iota zeta. f_equal. by apply list_insert_id.
Qed.

(** Taking in the row read at the reader's position keeps the session
    invariant, with the offset and the reader one row further. *)
Lemma take_in_row (m : Model) (h : Heap) (p : ReaderRef) (pr : ParquetReader)
    (row : list string) :
  (1 <= w)%nat ->
  windowInv cols src w (m, h) ->
  parquetReader m = Some p -> h !! p = Some pr ->
  (rd_pos pr < length src)%nat ->
  decodedFrom cols src (rd_pos pr) row ->
  exists m',
    Update m (MoreRowsMsg {| mr_newRow := row; mr_err := None |})
           (<[p := advanceReader pr]> h)
    = (Return (Some m') CmdNil, <[p := advanceReader pr]> h)
    /\ windowInv cols src w (m', <[p := advanceReader pr]> h)
    /\ currentRowOffset m' = (currentRowOffset m + 1)%Z
    /\ error m' = error m.
Proof.
  intros Hw (Hv & Hc & Ht & Hl & p' & pr' & Hp' & Hh' & Hrows & Hlive & Ho & Hpos & Hwin)
         Hp Hh Hlt Hrow.
  rewrite Update_moreRows. simpl in *.
  assert (p' = p) by congruence; subst p'.
  assert (pr' = pr) by congruence; subst pr'.
  destruct (rows m) as [|row0 rest] eqn:Hrs; simpl in Hl; [lia|].
  eexists. split; [done|].
  assert (Hadd : GoInt.add (currentRowOffset m) 1 = (currentRowOffset m + 1)%Z).
  { unfold GoInt.add. apply wrap_in_range. rewrite Ho. unfold_int. lia. }
  split; [|by rewrite <- Hadd].
  unfold windowInv. simpl.
  repeat split; try done.
  { rewrite length_app. simpl. lia. }
  exists p, (advanceReader pr). simpl.
  repeat split; try done; try lia.
  - apply list_lookup_insert_eq. by eapply lookup_lt_Some.
  - intros i row' Hi.
    destruct (decide (i < length rest)%nat) as [Hin|Hout].
    + rewrite lookup_app_l in Hi by done.
      specialize (Hwin (S i) row' Hi).
      by replace (S (rd_pos pr) - w + i)%nat
        with (rd_pos pr - w + S i)%nat by lia.
    + rewrite lookup_app_r in Hi by lia.
      destruct (i - length rest)%nat eqn:Hd; simpl in Hi; [|done].
      injection Hi as <-.
      by replace (S (rd_pos pr) - w + i)%nat with (rd_pos pr) by lia.
Qed.

(** Carrying a handled message to rest keeps the invariant, and the
    program neither panics nor loses its model. *)
Lemma settle_windowInv (m1 : Model) (cmd : Cmd) (h : Heap) :
  (1 <= w)%nat ->
  windowInv cols src w (m1, h) ->
  (forall mc, cmd = CmdLoadMoreRows mc -> mc = m1) ->
  exists s', settle (Return (Some m1) cmd, h) = Some s'
             /\ windowInv cols src w s'.
Proof.
  intros Hw Hinv1 Hclosure.
  destruct cmd as [| |c| |path maxRows0|mc|c1 c2];
    try (exists (m1, h); done).
  rewrite (Hclosure mc eq_refl). simpl.
  destruct (loadMoreRows_session m1 h Hinv1)
    as (p & pr & Hp & Hh & Ho & Hmore & Hend).
  destruct (decide (rd_pos pr < length src)%nat) as [Hlt|Hge].
  - destruct (Hmore Hlt) as (row & -> & Hrow).
    destruct (take_in_row m1 h p pr row Hw Hinv1 Hp Hh Hlt Hrow)
      as (m' & -> & Hinv' & _).
    by exists (m', <[p := advanceReader pr]> h).
  - assert (Hat : rd_pos pr = length src).
    { destruct Hinv1 as (_ & _ & _ & _ & p' & pr' & Hp' & Hh' & _ & _ & _ & Hpos & _).
      simpl in *.
      assert (p' = p) by congruence; subst p'.
      assert (pr' = pr) by congruence; subst pr'. lia. }
    rewrite (Hend Hat), Update_moreRows. simpl.
    eexists. split; [done|].
    apply (windowInv_sameWindow cols src w m1); [by repeat split | done].
Qed.

(** One message of a table session keeps the invariant. *)
Lemma step_windowInv (s : State) (msg : Msg) :
  (1 <= w)%nat -> tableMsg msg = true ->
  windowInv cols src w s ->
  exists s', step s msg = Some s' /\ windowInv cols src w s'.
Proof.
  intros Hw Hmsg Hinv. destruct s as [m h]. unfold step. simpl.
  pose proof Hinv as (Hv & _). simpl in Hv.
  destruct (Update_tableMsg m msg h Hv Hmsg) as [-> | ->];
    [|exists (m, h); done].
  destruct (updateTail_sameWindow m msg) as (m1 & cmd & Heq & Hsame).
  rewrite Heq.
  apply settle_windowInv; [done | by eapply windowInv_sameWindow |].
  intros mc ->.
  destruct (proj1 (updateTail_trigger m msg (Some m1) mc) Heq)
    as (_ & Hsome & _).
  congruence.
Qed.

Lemma run_windowInv (msgs : list Msg) (s : State) :
  (1 <= w)%nat -> forallb tableMsg msgs = true ->
  windowInv cols src w s ->
  exists s', run msgs s = Some s' /\ windowInv cols src w s'.
Proof.
  intros Hw. revert s. induction msgs as [|msg msgs IH]; intros s Hmsgs Hinv.
  - by exists s.
  - simpl in Hmsgs. apply andb_true_iff in Hmsgs as [Hmsg Hmsgs].
    destruct (step_windowInv s msg Hw Hmsg Hinv) as (s1 & Hstep & Hinv1).
    simpl. rewrite Hstep. by apply IH.
Qed.

End SessionFacts.

Section WindowFacts.

Context `{Bubbles} `{GoValue}.

Variables (cols : list string) (src : list GoRecord) (w : nat).
Hypothesis Hdec : decodable cols src.
Hypothesis Hrange : (Z.of_nat (length src) < GoInt.half)%Z.

(** What the invariant says in terms of the model alone. *)
Lemma windowInv_bounds (s : State) :
  windowInv cols src w s ->
  length (rows s.1) = w
  /\ (GoInt.len (rows s.1) <= currentRowOffset s.1 <= totalRows s.1)%Z
  /\ forall i row, rows s.1 !! i = Some row ->
       decodedFrom cols src
         (Z.to_nat (currentRowOffset s.1) - length (rows s.1) + i) row.
Proof.
  intros (Hv & Hc & Ht & Hl & p & pr & Hp & Hh & Hrows & Hlive & Ho & Hpos & Hwin).
  split; [done|]. unfold GoInt.len. rewrite Hl, Ho, Ht, Nat2Z.id.
  split; [lia | done].
Qed.





End WindowFacts.

Section OpenFacts.

Context `{Bubbles} `{GoValue}.

(** Opening a valid file from the table view: the load succeeds, the
    handler takes the data in, and the session invariant holds with a
    window of [min maxRows totalRows] rows. *)
Lemma open_windowInv (env : Env) (path : string) (src : list GoRecord)
    (m : Model) (h : Heap) :
  validFile env path src -> (0 <= maxRows m)%Z -> viewState m = TableView ->
  exists d h' m' cmd,
    loadParquetData env path (maxRows m) h = (TMsg (Some (ParquetDataMsg d)), h')
    /\ pd_err d = None
    /\ Update m (ParquetDataMsg d) h' = (Return (Some m') cmd, h')
    /\ (forall mc, cmd = CmdLoadMoreRows mc -> mc = m')
    /\ error m' = error m
    /\ currentRowOffset m'
       = Z.of_nat (Nat.min (Z.to_nat (maxRows m)) (length src))
    /\ windowInv (fileColumns env src) src
         (Nat.min (Z.to_nat (maxRows m)) (length src)) (m', h').
Proof.
  intros [Hpath (fd & Hopen & Hvalid) Hcols Hdec] HW Hview.
  destruct (loadParquetData_valid env path fd src (maxRows m) h
              Hpath Hopen Hvalid Hcols Hdec HW)
    as (rows0 & pr0 & pr & Hload & Hlen & Hrows & Hlive & Hpos & Hwin).
  eexists _, _. 
  destruct (Update_data m
              {| pd_columns := fileColumns env src; pd_rows := rows0;
                 pd_err := None; pd_totalRows := Z.of_nat (length src);
                 pd_parquetReader := Some (S (length h));
                 pd_parquetFile :=
                   Some {| pf_path := path; pf_closeErr := fd_closeErr fd |} |}
              ((h ++ [pr0]) ++ [pr]) eq_refl)
    as (m' & cmd & Hup & Hr & Hc & Ht & Ho & Hp & _ & Hv & He & _ & _ & Hclosure).
  exists m', cmd. split; [exact Hload|]. split; [done|]. split; [exact Hup|].
  split; [done|]. split; [done|].
  split; [simpl in Ho; rewrite Ho; unfold GoInt.len; by rewrite Hlen|].
  simpl in *. unfold windowInv. simpl.
  rewrite Hv, Hc, Ht, Hr, Hp, Ho.
  repeat split; try done.
  exists (S (length h)), pr. unfold GoInt.len. rewrite Hpos.
  repeat split; try done; try lia.
  - apply list_lookup_middle. rewrite length_app. simpl. lia.
  - intros i row Hi.
    replace (length rows0 - Nat.min (Z.to_nat (maxRows m)) (length src) + i)%nat
      with i by lia.
    by apply Hwin.
Qed.

Lemma openFile_windowInv (env : Env) (path : string) (src : list GoRecord)
    (m : Model) (h : Heap) :
  validFile env path src -> (1 <= maxRows m)%Z -> viewState m = TableView ->
  exists s0,
    openFile env path (m, h) = Some s0
    /\ windowInv (fileColumns env src) src
         (Nat.min (Z.to_nat (maxRows m)) (length src)) s0.
Proof.
  intros Hvalid HW Hview.
  destruct (open_windowInv env path src m h Hvalid ltac:(lia) Hview)
    as (d & h' & m' & cmd & Hload & _ & Hup & Hclosure & _ & _ & Hinv).
  unfold openFile, step. cbn [fst snd]. rewrite Hload. cbn [fst snd].
  rewrite Hup.
  destruct Hvalid as [_ (fd & _ & [_ _ Hrange _ _]) Hcols Hdec].
  apply settle_windowInv; try done.
  destruct (fileColumns_nonempty_src env src Hcols) as (data & rest & ->).
  simpl. lia.
Qed.


End OpenFacts.

Section TriggerFacts.

Context `{Bubbles} `{GoValue}.

Lemma updateTail_trigger_needs (m : Model) (msg : Msg) (m' : option Model)
    (mc : Model) :
  updateTail m msg = Return m' (CmdLoadMoreRows mc) ->
  m' = Some mc /\ viewState mc = TableView
  /\ table_Cursor (table mc) = GoInt.sub (GoInt.len (rows mc)) 1
  /\ (GoInt.add (currentRowOffset mc) (GoInt.len (rows mc)) < totalRows mc)%Z.
Proof.
  intros Heq.
  destruct (proj1 (updateTail_trigger m msg m' mc) Heq)
    as (Hv & -> & -> & _ & Hlast & Hmore).
  simpl in *. done.
Qed.

Ltac tail_trigger :=
  match goal with
  | Heq : (updateTail ?m ?msg, _) = (Return _ (CmdLoadMoreRows _), _) |- _ =>
      injection Heq as Heq ?; subst;
      by apply updateTail_trigger_needs in Heq
  end.

(** Whatever the message, a command to load one more row is returned
    only in the table view, with the cursor on the last row of the
    window and with the offset test passed. *)
Lemma Update_trigger_needs (m : Model) (msg : Msg) (h h' : Heap)
    (m' : option Model) (mc : Model) :
  Update m msg h = (Return m' (CmdLoadMoreRows mc), h') ->
  m' = Some mc /\ viewState mc = TableView
  /\ table_Cursor (table mc) = GoInt.sub (GoInt.len (rows mc)) 1
  /\ (GoInt.add (currentRowOffset mc) (GoInt.len (rows mc)) < totalRows mc)%Z.
Proof.
  intros Heq. destruct msg as [key|files|d|r|tag].
  - unfold Update, leaveTable in Heq.
    repeat (case_match; try discriminate; try tail_trigger; simplify_eq/=).
  - unfold Update in Heq. discriminate.
  - unfold Update in Heq. destruct (pd_err d); [discriminate|]. tail_trigger.
  - rewrite Update_moreRows in Heq.
    repeat (case_match; try discriminate).
  - unfold Update in Heq. tail_trigger.
Qed.

End TriggerFacts.

Section ScrollLimit.

Context `{Bubbles} `{GoValue}.

Variables (cols : list string) (src : list GoRecord) (w : nat).
Hypothesis Hdec : decodable cols src.
Hypothesis Hsmall : (2 * Z.of_nat (length src) < GoInt.half)%Z.

(** Carrying a handled message to rest leaves the offset, or adds one to
    it after the offset test passed. *)
Lemma settle_offset (m1 : Model) (cmd : Cmd) (h : Heap) (s' : State) :
  (1 <= w)%nat ->
  windowInv cols src w (m1, h) ->
  (forall mc, cmd = CmdLoadMoreRows mc ->
     mc = m1
     /\ (GoInt.add (currentRowOffset m1) (GoInt.len (rows m1)) < totalRows m1)%Z) ->
  settle (Return (Some m1) cmd, h) = Some s' ->
  currentRowOffset s'.1 = currentRowOffset m1
  \/ (currentRowOffset s'.1 = (currentRowOffset m1 + 1)%Z
      /\ (currentRowOffset m1 + Z.of_nat w < Z.of_nat (length src))%Z).
Proof.
  intros Hw Hinv1 Hclosure Hsettle.
  assert (Hrange : (Z.of_nat (length src) < GoInt.half)%Z) by lia.
  destruct (windowInv_bounds _ _ _ (m1, h) Hinv1) as (Hlen & Hbounds & _).
  pose proof Hinv1 as (_ & _ & Ht & _). cbn [fst snd] in Hlen, Hbounds, Ht.
  destruct cmd as [| |c| |path maxRows0|mc|c1 c2];
    try (injection Hsettle as <-; by left).
  destruct (Hclosure mc eq_refl) as [-> Hlt].
  assert (Hroom : (currentRowOffset m1 + Z.of_nat w < Z.of_nat (length src))%Z).
  { revert Hlt. unfold GoInt.add, GoInt.len in *.
    rewrite wrap_in_range; [lia|]. unfold_int. lia. }
  destruct (loadMoreRows_session cols src w Hdec m1 h Hinv1)
    as (p & pr & Hp & Hh & Ho & Hmore & _).
  assert (Hpos : (rd_pos pr < length src)%nat) by lia.
  destruct (Hmore Hpos) as (row & Hload & Hrow).
  destruct (take_in_row cols src w Hrange m1 h p pr row Hw Hinv1 Hp Hh Hpos Hrow)
    as (m' & Hup & _ & Hoff' & _).
  cbn [settle] in Hsettle. rewrite Hload, Hup in Hsettle.
  injection Hsettle as <-. right. cbn [fst]. split; [lia | done].
Qed.

(** One message of a table session does the same. *)
Lemma step_offset (s s' : State) (msg : Msg) :
  (1 <= w)%nat -> tableMsg msg = true ->
  windowInv cols src w s -> step s msg = Some s' ->
  currentRowOffset s'.1 = currentRowOffset s.1
  \/ (currentRowOffset s'.1 = (currentRowOffset s.1 + 1)%Z
      /\ (currentRowOffset s.1 + Z.of_nat w < Z.of_nat (length src))%Z).
Proof.
  intros Hw Hmsg Hinv Hstep. destruct s as [m h]. unfold step in Hstep.
  cbn [fst snd] in *.
  pose proof Hinv as (Hv & _). cbn [fst] in Hv.
  destruct (Update_tableMsg m msg h Hv Hmsg) as [Hu|Hu]; rewrite Hu in Hstep.
  2: { injection Hstep as <-. by left. }
  destruct (updateTail_sameWindow m msg) as (m1 & cmd & Heq & Hsame).
  rewrite Heq in Hstep.
  pose proof (windowInv_sameWindow _ _ _ _ _ h Hsame Hinv) as Hinv1.
  destruct Hsame as (_ & _ & Htot & Hrows & _ & Hoff1).
  rewrite <- Hoff1.
  apply (settle_offset m1 cmd h s' Hw Hinv1); [|done].
  intros mc ->.
  destruct (proj1 (updateTail_trigger m msg (Some m1) mc) Heq)
    as (_ & Hsome & _ & _ & _ & Hlt).
  split; [congruence|]. by rewrite Hoff1, Hrows, Htot.
Qed.

(** Along a table session the offset stays at or below the larger of the
    window length and the row count less the window length. *)
Lemma run_offset_limit (msgs : list Msg) (s s' : State) :
  (1 <= w)%nat -> forallb tableMsg msgs = true ->
  windowInv cols src w s -> run msgs s = Some s' ->
  (currentRowOffset s.1 <= Z.max (Z.of_nat w) (Z.of_nat (length src) - Z.of_nat w))%Z ->
  (currentRowOffset s'.1 <= Z.max (Z.of_nat w) (Z.of_nat (length src) - Z.of_nat w))%Z.
Proof.
  intros Hw. revert s. induction msgs as [|msg msgs IH];
    intros s Hmsgs Hinv Hrun Hle; simpl in Hrun.
  - by injection Hrun as <-.
  - simpl in Hmsgs. apply andb_true_iff in Hmsgs as [Hmsg Hmsgs].
    assert (Hrange : (Z.of_nat (length src) < GoInt.half)%Z) by lia.
    destruct (step_windowInv cols src w Hdec Hrange s msg Hw Hmsg Hinv)
      as (s1 & Hstep & Hinv1).
    rewrite Hstep in Hrun.
    apply (IH s1 Hmsgs Hinv1 Hrun).
    destruct (step_offset s s1 msg Hw Hmsg Hinv Hstep) as [-> | [-> Hroom]]; lia.
Qed.

End ScrollLimit.

(** ** The row window *)

Section RowWindow.

Context `{Bubbles} `{GoValue}.





(** X2. How far a table session scrolls. On a valid file of [T] rows opened
    with a window of [w = min W T] rows, [currentRowOffset] never exceeds
    [max w (T - w)], and every row in the window is a source row with an
    index below that bound: when [T > W], the source rows from index
    [max W (T - W)] on never enter the window. *)
Theorem scroll_limit (env : Env) (path : string) (src : list GoRecord)
    (m : Model) (h : Heap) :
  validFile env path src -> (1 <= maxRows m)%Z -> viewState m = TableView ->
  (2 * Z.of_nat (length src) < GoInt.half)%Z ->
  let w := Nat.min (Z.to_nat (maxRows m)) (length src) in
  exists s0,
    openFile env path (m, h) = Some s0
    /\ forall msgs s, forallb tableMsg msgs = true -> run msgs s0 = Some s ->
       (currentRowOffset s.1
        <= Z.max (Z.of_nat w) (Z.of_nat (length src) - Z.of_nat w))%Z
       /\ forall i row, rows s.1 !! i = Some row ->
          exists k,
            (Z.of_nat k < Z.max (Z.of_nat w) (Z.of_nat (length src) - Z.of_nat w))%Z
            /\ decodedFrom (columns s.1) src k row.
Proof.
  intros Hvalid HW Hview Hsmall w.
  destruct (open_windowInv env path src m h Hvalid ltac:(lia) Hview)
    as (d & h' & m' & cmd & Hload & _ & Hup & _ & _ & Hstart & Hinv').
  destruct (openFile_windowInv env path src m h Hvalid HW Hview)
    as (s0 & Hopen & Hinv0).
  exists s0. split; [done|]. intros msgs s Hmsgs Hrun.
  destruct Hvalid as [_ (fd & _ & [_ _ Hrange _ _]) Hcols Hdec].
  assert (Hw : (1 <= w)%nat).
  { subst w. destruct (fileColumns_nonempty_src env src Hcols) as (data & rest & ->).
    simpl. lia. }
  assert (Hle0 : (currentRowOffset s0.1
                  <= Z.max (Z.of_nat w) (Z.of_nat (length src) - Z.of_nat w))%Z).
  { unfold openFile, step in Hopen. cbn [fst snd] in Hopen.
    rewrite Hload in Hopen. cbn [fst snd] in Hopen. rewrite Hup in Hopen.
    destruct (settle_offset _ src w Hdec Hsmall m' cmd h' s0 Hw Hinv')
      as [-> | [-> Hroom]]; try done; [|fold w in Hstart; lia..].
    intros mc ->. by apply Update_trigger_needs in Hup as (Hsome & _ & _ & Hlt);
      injection Hsome as ->. }
  destruct (run_windowInv _ _ _ Hdec Hrange msgs s0 Hw Hmsgs Hinv0)
    as (s1 & Hrun1 & Hinv).
  assert (s1 = s) by congruence; subst s1.
  pose proof (run_offset_limit _ src w Hdec Hsmall msgs s0 s Hw Hmsgs Hinv0 Hrun Hle0)
    as Hle.
  split; [done|]. intros i row Hi.
  destruct (windowInv_bounds _ _ _ s Hinv) as (Hlen & Hbounds & Hwin).
  pose proof Hinv as (_ & Hc & _). rewrite Hc.
  exists (Z.to_nat (currentRowOffset s.1) - length (rows s.1) + i)%nat.
  split; [|by apply Hwin].
  apply lookup_lt_Some in Hi. unfold GoInt.len in Hbounds. lia.
Qed.

End RowWindow.

(** ** The row decoder, cell by cell *)

Section DecoderCells.

Context `{GoValue}.

Lemma rowMapLoop_cells (columns : list string) (data : gmap string Value)
    (row : list string) :
  rowMapLoop columns data row = row ++ (mapCell data <$> columns).
Proof.
  revert row. induction columns as [|col columns IH]; intros row; simpl.
  - by rewrite app_nil_r.
  - destruct (data !! col) eqn:Hcol;
      rewrite IH, <- app_assoc; simpl; unfold mapCell at 2; by rewrite Hcol.
Qed.

Lemma rowPartsLoop_cells (col : string) (field : StructField)
    (parts : list string) (row : list string) (found : bool) :
  rowPartsLoop col field parts row found =
  if existsb (partNames col) parts
  then match fieldCell field with
       | Some cell => Some (row ++ [cell], true)
       | None => None
       end
  else Some (row, found).
Proof.
  induction parts as [|part parts IH]; simpl; [done|].
  unfold partNames at 1.
  destruct (GoStrings.HasPrefix part "name="); simpl; [|exact IH].
  destruct (String.eqb _ col); simpl; [done | exact IH].
Qed.

(** A field that does not answer to the column is passed over. *)
Lemma rowFieldLoop_skip (col : string) (field : StructField)
    (fields : list StructField) (row : list string) (found : bool) :
  announces col field = false ->
  rowFieldLoop col (field :: fields) row found
  = rowFieldLoop col fields row found.
Proof.
  unfold announces. intros Hno. simpl.
  destruct (negb (String.eqb (TagParquet field) EmptyString)).
  - by rewrite rowPartsLoop_cells, Hno.
  - by rewrite Hno.
Qed.

Lemma rowFieldLoop_none (col : string) (fields : list StructField)
    (row : list string) (found : bool) :
  List.find (announces col) fields = None ->
  rowFieldLoop col fields row found = Some (row, found).
Proof.
  induction fields as [|field fields IH]; [done|]. simpl List.find.
  destruct (announces col field) eqn:Hann; [done|]. intros Hnone.
  rewrite rowFieldLoop_skip by done. by apply IH.
Qed.

(** The loop over the fields when at most one field answers to the
    column. *)
Lemma rowFieldLoop_unique (col : string) (fields : list StructField)
    (row : list string) :
  (length (List.filter (announces col) fields) <= 1)%nat ->
  rowFieldLoop col fields row false =
  match List.find (announces col) fields with
  | Some field =>
      match fieldCell field with
      | Some cell => Some (row ++ [cell], true)
      | None => None
      end
  | None => Some (row, false)
  end.
Proof.
  induction fields as [|field fields IH]; [done|].
  simpl List.filter. simpl List.find.
  destruct (announces col field) eqn:Hann.
  - simpl. intros Hone.
    assert (Hrest : List.find (announces col) fields = None).
    { destruct (List.find (announces col) fields) as [g|] eqn:Hg; [|done].
      apply find_some in Hg as [Hin Hg].
      assert (In g (List.filter (announces col) fields))
        by (apply filter_In; done).
      destruct (List.filter (announces col) fields); [done | simpl in Hone; lia]. }
    unfold announces in Hann.
    destruct (negb (String.eqb (TagParquet field) EmptyString)).
    + rewrite rowPartsLoop_cells, Hann.
      destruct (fieldCell field) as [cell|]; [|done].
      by apply rowFieldLoop_none.
    + by rewrite Hann.
  - intros Hone. rewrite rowFieldLoop_skip by done. by apply IH.
Qed.

Lemma rowStructLoop_unique (columns : list string) (fields : list StructField)
    (row : list string) :
  (forall col, col ∈ columns ->
     (length (List.filter (announces col) fields) <= 1)%nat) ->
  (forall col field, col ∈ columns -> field ∈ fields ->
     announces col field = true -> Exported field = true) ->
  rowStructLoop columns fields row = Some (row ++ (structCell fields <$> columns)).
Proof.
  revert row. induction columns as [|col columns IH]; intros row Hone Hexp; simpl.
  - by rewrite app_nil_r.
  - assert (Hone' : forall c, c ∈ columns ->
      (length (List.filter (announces c) fields) <= 1)%nat)
      by (intros c Hc; apply Hone; by right).
    assert (Hexp' : forall c f, c ∈ columns -> f ∈ fields ->
      announces c f = true -> Exported f = true)
      by (intros c f Hc; apply Hexp; by right).
    rewrite rowFieldLoop_unique by (apply Hone; left).
    assert (Hcell : structCell fields col =
      match List.find (announces col) fields with
      | Some field => Sprintf_v (FieldValue field)
      | None => "<nil>"%string
      end) by done.
    destruct (List.find (announces col) fields) as [field|] eqn:Hfind.
    + apply find_some in Hfind as [Hin Hann].
      unfold fieldCell.
      rewrite (Hexp col field); [|by left|by apply list_elem_of_In|done].
      by rewrite IH, <- app_assoc, Hcell.
    + by rewrite IH, <- app_assoc, Hcell.
Qed.

Lemma rowOtherLoop_cells (columns : list string) (row : list string) :
  rowOtherLoop columns row
  = row ++ ((fun _ => "<unsupported>"%string) <$> columns).
Proof.
  revert row. induction columns as [|col columns IH]; intros row; simpl.
  - by rewrite app_nil_r.
  - by rewrite IH, <- app_assoc.
Qed.

(** X3. The row of a map-shaped record, cell by cell: for each column in
    order, the rendering of the value under that key, or the placeholder
    [<nil>] when the map has no such key; keys that are not columns play
    no part.  A record of any other non-struct kind gives
    [<unsupported>] in every cell. *)
Theorem decodeRow_map_cells (columns : list string) :
  (forall data : gmap string Value,
      decodeRow columns (MapRecord data) = Some (mapCell data <$> columns))
  /\ decodeRow columns OtherRecord
     = Some ((fun _ => "<unsupported>"%string) <$> columns).
Proof.
  split.
  - intros data. simpl. by rewrite rowMapLoop_cells.
  - simpl. by rewrite rowOtherLoop_cells.
Qed.

(** X4. The row of a struct-shaped record, cell by cell.  When every
    column is answered by at most one field, and the answering fields are
    exported, the decoder returns one cell per column: the rendering of
    the answering field, or [<nil>] when no field answers. *)
Theorem decodeRow_struct_cells (columns : list string)
    (fields : list StructField) :
  (forall col, col ∈ columns ->
     (length (List.filter (announces col) fields) <= 1)%nat) ->
  (forall col field, col ∈ columns -> field ∈ fields ->
     announces col field = true -> Exported field = true) ->
  decodeRow columns (StructRecord fields)
  = Some (structCell fields <$> columns).
Proof.
  intros Hone Hexp. simpl. by rewrite rowStructLoop_unique.
Qed.

(** A field that answers to no column may stand anywhere among the
    fields. *)
Lemma rowFieldLoop_without (col : string) (pre : list StructField)
    (field : StructField) (post : list StructField)
    (row : list string) (found : bool) :
  announces col field = false ->
  rowFieldLoop col (pre ++ field :: post) row found
  = rowFieldLoop col (pre ++ post) row found.
Proof.
  intros Hno. revert row found.
  induction pre as [|g pre IH]; intros row found.
  - by apply rowFieldLoop_skip.
  - simpl. destruct (negb (String.eqb (TagParquet g) EmptyString)).
    + destruct (rowPartsLoop col g _ row found) as [[row' found']|]; [|done].
      apply IH.
    + destruct (String.eqb (Name g) col); [done|]. apply IH.
Qed.

Lemma rowStructLoop_without (columns : list string) (pre : list StructField)
    (field : StructField) (post : list StructField) (row : list string) :
  (forall col, col ∈ columns -> announces col field = false) ->
  rowStructLoop columns (pre ++ field :: post) row
  = rowStructLoop columns (pre ++ post) row.
Proof.
  revert row. induction columns as [|col columns IH]; intros row Hno; [done|].
  simpl. rewrite rowFieldLoop_without by (apply Hno; left).
  destruct (rowFieldLoop col (pre ++ post) row false) as [[row' found]|];
    [|done].
  apply IH. intros c Hc. apply Hno. by right.
Qed.

(** X5. What the decoder does not look at.  A key of a map-shaped record
    that is not a column, and a field of a struct-shaped record that
    answers to no column, change nothing in the row; such a field is not
    read at all, so it may be unexported without a panic. *)
Theorem decodeRow_ignores_unnamed (columns : list string) :
  (forall (data : gmap string Value) (k : string) (v : Value),
      k ∉ columns ->
      decodeRow columns (MapRecord (<[k := v]> data))
      = decodeRow columns (MapRecord data))
  /\ (forall (pre : list StructField) (field : StructField)
             (post : list StructField),
      (forall col, col ∈ columns -> announces col field = false) ->
      decodeRow columns (StructRecord (pre ++ field :: post))
      = decodeRow columns (StructRecord (pre ++ post))).
Proof.
  split.
  - intros data k v Hk. simpl. rewrite !rowMapLoop_cells. do 2 f_equal.
    apply Forall_fmap_ext, Forall_forall. intros col Hcol.
    unfold mapCell. rewrite lookup_insert_ne; [done|].
    intros ->. done.
  - intros pre field post Hno. simpl. by apply rowStructLoop_without.
Qed.

End DecoderCells.

(** ** A record decoded against its own schema *)

Section RoundTrip.

Context `{GoValue}.






End RoundTrip.

(** ** Tags written with a space after each comma *)

Section ConventionalTags.

Context `{GoValue}.

Lemma Split_commaFree (p : string) :
  commaFree p = true -> GoStrings.Split p ","%char = [p].
Proof.
  induction p as [|c p IH]; [done|]. simpl.
  intros [Hc Hp]%andb_prop. apply negb_true_iff in Hc.
  rewrite Hc, IH by done. done.
Qed.

Lemma Split_commaFree_app (p s : string) :
  commaFree p = true ->
  GoStrings.Split (p +:+ String ","%char s) ","%char
  = p :: GoStrings.Split s ","%char.
Proof.
  induction p as [|c p IH]; [done|]. simpl.
  intros [Hc Hp]%andb_prop. apply negb_true_iff in Hc.
  rewrite Hc, IH by done. done.
Qed.

Lemma Split_conventional (p : string) (ps : list string) :
  Forall (fun q => commaFree q = true) (p :: ps) ->
  GoStrings.Split (String.concat ", " (p :: ps)) ","%char
  = p :: (String " "%char <$> ps).
Proof.
  revert p. induction ps as [|q ps IH]; intros p [Hp Hps]%Forall_cons.
  - simpl. by apply Split_commaFree.
  - change (String.concat ", " (p :: q :: ps))
      with (p +:+ String ","%char (String " "%char (String.concat ", " (q :: ps)))).
    rewrite Split_commaFree_app by done.
    assert (Hhead : String " "%char (String.concat ", " (q :: ps))
                    = String.concat ", " (String " "%char q :: ps))
      by (by destruct ps).
    rewrite Hhead.
    rewrite IH; [done|].
    apply Forall_cons in Hps as [Hq Hps]. by apply Forall_cons.
Qed.

Lemma schemaPartsLoop_spaced (ps : list string) (columns : list string) :
  schemaPartsLoop (String " "%char <$> ps) columns = columns.
Proof. induction ps as [|q ps IH]; [done|]. exact IH. Qed.

Lemma rowPartsLoop_spaced (col : string) (field : StructField)
    (ps : list string) (row : list string) (found : bool) :
  rowPartsLoop col field (String " "%char <$> ps) row found
  = Some (row, found).
Proof. induction ps as [|q ps IH]; [done|]. exact IH. Qed.

(** X8. Tags written in the usual way, [k1=v1, k2=v2, ...] with a space
    after each comma.  Both loops over the parts of such a tag look for a
    part that starts with [name=], and every part but the first starts
    with the space: only the first part can name the column, and a
    [name=] further on is seen neither by the schema extraction nor by
    the row decoder. *)
Theorem conventional_tag_first_part (p : string) (ps : list string)
    (columns : list string) (col : string) (field : StructField)
    (row : list string) (found : bool) :
  Forall (fun q => commaFree q = true) (p :: ps) ->
  schemaPartsLoop (GoStrings.Split (String.concat ", " (p :: ps)) ","%char)
    columns
  = (if GoStrings.HasPrefix p "name="
     then columns ++ [GoStrings.TrimSpace (GoStrings.TrimPrefix p "name=")]
     else columns)
  /\ rowPartsLoop col field
       (GoStrings.Split (String.concat ", " (p :: ps)) ","%char) row found
     = rowPartsLoop col field [p] row found.
Proof.
  intros Hfree. rewrite Split_conventional by done. split.
  - simpl. destruct (GoStrings.HasPrefix p "name="); [done|].
    apply schemaPartsLoop_spaced.
  - simpl. destruct (GoStrings.HasPrefix p "name="); simpl.
    + destruct (String.eqb _ col); [done|]. apply rowPartsLoop_spaced.
    + apply rowPartsLoop_spaced.
Qed.

End ConventionalTags.

(** ** The directory scan *)

Section DirectoryScan.

Lemma string_app_cons (x : ascii) (a b : string) :
  (String x a +:+ b = String x (a +:+ b))%string.
Proof. done. Qed.

Lemma string_app_assoc (a b c : string) :
  ((a +:+ b) +:+ c = a +:+ (b +:+ c))%string.
Proof.
  induction a as [|x a IH]; [done|]. by rewrite !string_app_cons, IH.
Qed.

Lemma string_app_nil_r (a : string) : (a +:+ EmptyString = a)%string.
Proof. induction a as [|x a IH]; [done|]. by rewrite string_app_cons, IH. Qed.

Lemma revString_acc (s acc : string) :
  GoStrings.revString s acc
  = (GoStrings.revString s EmptyString +:+ acc)%string.
Proof.
  revert acc. induction s as [|c s IH]; intros acc; simpl; [done|].
  rewrite (IH (String c acc)), (IH (String c EmptyString)).
  by rewrite string_app_assoc.
Qed.

Lemma revString_app (s t : string) :
  GoStrings.revString (s +:+ t) EmptyString
  = (GoStrings.revString t EmptyString
     +:+ GoStrings.revString s EmptyString)%string.
Proof.
  induction s as [|c s IH]; simpl.
  - by rewrite string_app_nil_r.
  - rewrite revString_acc, IH, (revString_acc s (String c EmptyString)).
    by rewrite string_app_assoc.
Qed.

Lemma revString_involutive (s : string) :
  GoStrings.revString (GoStrings.revString s EmptyString) EmptyString = s.
Proof.
  induction s as [|c s IH]; simpl; [done|].
  by rewrite (revString_acc s (String c EmptyString)), revString_app, IH.
Qed.

Lemma prefix_app (p s : string) :
  String.prefix p s = true <-> exists r, s = (p +:+ r)%string.
Proof.
  revert s. induction p as [|a p IH]; intros s.
  - split; [|by destruct s]. intros _. by exists s.
  - destruct s as [|b s]; simpl.
    + split; [done|]. intros [r Hr]. by rewrite string_app_cons in Hr.
    + destruct (ascii_dec a b) as [->|Hne].
      * rewrite IH. split; intros [r Hr]; exists r.
        -- by rewrite string_app_cons, Hr.
        -- rewrite string_app_cons in Hr. congruence.
      * split; [done|]. intros [r Hr].
        rewrite string_app_cons in Hr. congruence.
Qed.

(** [strings.HasSuffix(s, suffix)] holds exactly when [s] ends in
    [suffix]. *)
Lemma HasSuffix_app (s suf : string) :
  GoStrings.HasSuffix s suf = true <-> exists stem, s = (stem +:+ suf)%string.
Proof.
  unfold GoStrings.HasSuffix. rewrite prefix_app. split.
  - intros [r Hr]. exists (GoStrings.revString r EmptyString).
    rewrite <- (revString_involutive s), Hr, revString_app.
    by rewrite revString_involutive.
  - intros [stem ->]. exists (GoStrings.revString stem EmptyString).
    apply revString_app.
Qed.

Lemma scan_loop (files : list DirEntry) (acc : list string) :
  foldl (fun parquetFiles file =>
           if negb (de_IsDir file)
              && GoStrings.HasSuffix (de_Name file) ".parquet"
           then parquetFiles ++ [de_Name file] else parquetFiles)
        acc files
  = acc ++ (de_Name <$>
            List.filter (fun file =>
                           negb (de_IsDir file)
                           && GoStrings.HasSuffix (de_Name file) ".parquet")
                        files).
Proof.
  revert acc. induction files as [|file files IH]; intros acc; simpl.
  - by rewrite app_nil_r.
  - rewrite IH.
    destruct (negb (de_IsDir file)
              && GoStrings.HasSuffix (de_Name file) ".parquet"); [|done].
    by rewrite <- app_assoc.
Qed.

(** X9. The directory scan.  The files listed are the names of the
    entries that are not directories and end in [.parquet], in the order
    of the directory listing; nothing else is listed, and a directory
    that cannot be read gives the empty list rather than an error. *)
Theorem findParquetFiles_lists (dir : option (list DirEntry)) :
  exists files,
    findParquetFiles dir = ParquetFilesMsg files
    /\ files `sublist_of` (de_Name <$> default [] dir)
    /\ forall name,
        name ∈ files <->
        exists entry stem,
          entry ∈ default [] dir /\ de_IsDir entry = false
          /\ de_Name entry = name /\ name = (stem +:+ ".parquet")%string.
Proof.
  destruct dir as [entries|]; simpl.
  - eexists. split; [done|]. rewrite scan_loop. simpl. split.
    + induction entries as [|entry entries IH]; simpl; [constructor|].
      destruct (negb (de_IsDir entry) && _); simpl.
      * by apply sublist_skip.
      * by apply sublist_cons.
    + intros name. rewrite list_elem_of_fmap. split.
      * intros (entry & -> & Hin).
        apply list_elem_of_In, filter_In in Hin as [Hin Htest].
        apply andb_prop in Htest as [Hdir Hsuf].
        apply negb_true_iff in Hdir.
        apply HasSuffix_app in Hsuf as [stem Hstem].
        exists entry, stem. by rewrite <- list_elem_of_In in Hin.
      * intros (entry & stem & Hin & Hdir & <- & Hstem).
        exists entry. split; [done|].
        apply list_elem_of_In, filter_In. split; [by apply list_elem_of_In|].
        rewrite Hdir. simpl. apply HasSuffix_app. by exists stem.
  - exists []. split; [done|]. split; [constructor|].
    intros name. split; [by intros ?%elem_of_nil|].
    by intros (entry & _ & ?%elem_of_nil & _).
Qed.

End DirectoryScan.

(** ** The keys of the file list *)

Section FileList.

Context `{Bubbles} `{GoValue}.

Lemma sub1_small (z : Z) :
  (0 <= z < GoInt.half)%Z -> GoInt.sub z 1 = (z - 1)%Z.
Proof.
  intros Hz. unfold GoInt.sub. apply wrap_in_range. unfold_int. lia.
Qed.

Lemma add1_small (z : Z) :
  (-1 <= z < GoInt.half - 1)%Z -> GoInt.add z 1 = (z + 1)%Z.
Proof.
  intros Hz. unfold GoInt.add. apply wrap_in_range. unfold_int. lia.
Qed.

(** In the file list the tail of [Update] does nothing. *)
Lemma updateTail_list (m : Model) (msg : Msg) :
  viewState m = FileSelectView -> updateTail m msg = Return (Some m) CmdNil.
Proof.
  intros Hv. unfold updateTail.
  destruct (decide (viewState m = InputView)); [congruence|].
  destruct (decide (viewState m = TableView)); [congruence|]. done.
Qed.

Lemma Update_down (m : Model) (h : Heap) (key : string) :
  viewState m = FileSelectView ->
  key = "down"%string \/ key = "j"%string ->
  Update m (KeyMsg key) h
  = (Return (Some (set_selectedFile
       (if (GoInt.add (selectedFile m) 1 >=? GoInt.len (parquetFiles m))%Z
        then 0%Z else GoInt.add (selectedFile m) 1) m)) CmdNil, h).
Proof.
  intros Hv [-> | ->]; unfold Update; simpl;
    (destruct (decide (viewState m = FileSelectView)); [|done]);
    destruct (GoInt.add (selectedFile m) 1 >=? GoInt.len (parquetFiles m))%Z;
    by rewrite updateTail_list.
Qed.

Lemma Update_up (m : Model) (h : Heap) (key : string) :
  viewState m = FileSelectView ->
  key = "up"%string \/ key = "k"%string ->
  Update m (KeyMsg key) h
  = (Return (Some (set_selectedFile
       (if (GoInt.sub (selectedFile m) 1 <? 0)%Z
        then GoInt.sub (GoInt.len (parquetFiles m)) 1
        else GoInt.sub (selectedFile m) 1) m)) CmdNil, h).
Proof.
  intros Hv [-> | ->]; unfold Update; simpl;
    (destruct (decide (viewState m = FileSelectView)); [|done]);
    destruct (GoInt.sub (selectedFile m) 1 <? 0)%Z;
    by rewrite updateTail_list.
Qed.

Lemma down_in_range (sel n : Z) :
  (n < GoInt.half)%Z -> (0 <= sel < n)%Z ->
  (if (GoInt.add sel 1 >=? n)%Z then 0%Z else GoInt.add sel 1)
  = ((sel + 1) mod n)%Z.
Proof.
  intros Hn Hsel. rewrite add1_small by lia.
  destruct (Z.geb_spec (sel + 1) n).
  - assert (sel + 1 = n)%Z as -> by lia. by rewrite Z.mod_same by lia.
  - by rewrite Z.mod_small by lia.
Qed.

Lemma up_in_range (sel n : Z) :
  (n < GoInt.half)%Z -> (0 <= sel < n)%Z ->
  (if (GoInt.sub sel 1 <? 0)%Z then GoInt.sub n 1 else GoInt.sub sel 1)
  = ((sel - 1) mod n)%Z.
Proof.
  intros Hn Hsel. rewrite !sub1_small by lia.
  destruct (Z.ltb_spec (sel - 1) 0).
  - assert (sel = 0)%Z as -> by lia.
    replace (0 - 1)%Z with (n - 1 + (-1) * n)%Z by lia.
    by rewrite Z.mod_add, Z.mod_small by lia.
  - by rewrite Z.mod_small by lia.
Qed.

Lemma set_selectedFile_same (m : Model) :
  set_selectedFile (selectedFile m) m = m.
Proof. by destruct m. Qed.

(** X10. Moving in the file list.  With a selection within a non-empty
    list, down (or [j]) selects the next file and up (or [k]) the
    previous one, around the ends of the list; nothing else in the model
    changes, no command is issued, and each of the two keys undoes the
    other. *)
Theorem selection_wraps (m : Model) (h : Heap) :
  viewState m = FileSelectView ->
  (GoInt.len (parquetFiles m) < GoInt.half)%Z ->
  (0 <= selectedFile m < GoInt.len (parquetFiles m))%Z ->
  let n := GoInt.len (parquetFiles m) in
  let down := set_selectedFile ((selectedFile m + 1) mod n) m in
  let up := set_selectedFile ((selectedFile m - 1) mod n) m in
  (forall key, key = "down"%string \/ key = "j"%string ->
     Update m (KeyMsg key) h = (Return (Some down) CmdNil, h))
  /\ (forall key, key = "up"%string \/ key = "k"%string ->
     Update m (KeyMsg key) h = (Return (Some up) CmdNil, h))
  /\ Update down (KeyMsg "up") h = (Return (Some m) CmdNil, h)
  /\ Update up (KeyMsg "down") h = (Return (Some m) CmdNil, h).
Proof.
  intros Hv Hn Hsel n down up.
  assert (Hpos : (0 < n)%Z) by (unfold n; lia).
  split; [|split; [|split]].
  - intros key Hkey. rewrite Update_down by done.
    by rewrite down_in_range.
  - intros key Hkey. rewrite Update_up by done.
    by rewrite up_in_range.
  - rewrite (Update_up down h "up") by (done || by left). simpl.
    rewrite up_in_range; [|done|apply Z.mod_pos_bound; done].
    rewrite Zminus_mod_idemp_l.
    replace (selectedFile m + 1 - 1)%Z with (selectedFile m) by lia.
    rewrite Z.mod_small by done.
    change (set_selectedFile (selectedFile m) down)
      with (set_selectedFile (selectedFile m) m).
    by rewrite set_selectedFile_same.
  - rewrite (Update_down up h "down") by (done || by left). simpl.
    rewrite down_in_range; [|done|apply Z.mod_pos_bound; done].
    rewrite Zplus_mod_idemp_l.
    replace (selectedFile m - 1 + 1)%Z with (selectedFile m) by lia.
    rewrite Z.mod_small by done.
    change (set_selectedFile (selectedFile m) up)
      with (set_selectedFile (selectedFile m) m).
    by rewrite set_selectedFile_same.
Qed.

Lemma handleAll_app (msgs1 msgs2 : list Msg) (s : State) :
  handleAll (msgs1 ++ msgs2) s
  = match handleAll msgs1 s with
    | Some s' => handleAll msgs2 s'
    | None => None
    end.
Proof.
  revert s. induction msgs1 as [|msg msgs1 IH]; intros s; simpl; [done|].
  destruct (handle s msg); [apply IH | done].
Qed.

Lemma downs_select (k : nat) (m : Model) (h : Heap) :
  viewState m = FileSelectView ->
  (GoInt.len (parquetFiles m) < GoInt.half)%Z ->
  (0 <= selectedFile m < GoInt.len (parquetFiles m))%Z ->
  handleAll (repeat (KeyMsg "down") k) (m, h)
  = Some (set_selectedFile
            ((selectedFile m + Z.of_nat k) mod GoInt.len (parquetFiles m)) m,
          h).
Proof.
  revert m. induction k as [|k IH]; intros m Hv Hn Hsel.
  - simpl. rewrite Z.add_0_r, Z.mod_small by done.
    by rewrite set_selectedFile_same.
  - change (repeat (KeyMsg "down") (S k))
      with (KeyMsg "down" :: repeat (KeyMsg "down") k).
    cbn [handleAll]. unfold handle at 1. cbn [fst snd].
    rewrite (Update_down m h "down") by (done || by left).
    rewrite down_in_range by done.
    rewrite IH; cbn [selectedFile parquetFiles viewState set_selectedFile];
      [|done|done|apply Z.mod_pos_bound; lia].
    rewrite Zplus_mod_idemp_l.
    replace (selectedFile m + 1 + Z.of_nat k)%Z
      with (selectedFile m + Z.of_nat (S k))%Z by lia.
    done.
Qed.

(** Enter on a selection within the list opens the file selected. *)
Lemma enter_opens_selected (m : Model) (h : Heap) :
  viewState m = FileSelectView ->
  (0 <= selectedFile m < GoInt.len (parquetFiles m))%Z ->
  exists file,
    parquetFiles m !! Z.to_nat (selectedFile m) = Some file
    /\ Update m (KeyMsg "enter") h
       = (Return (Some (set_viewState TableView
                          (set_isLoading true (set_filePath file m))))
            (CmdLoadParquetData file (maxRows m)), h).
Proof.
  intros Hv Hsel.
  destruct (lookup_lt_is_Some_2 (parquetFiles m) (Z.to_nat (selectedFile m)))
    as [file Hfile]; [unfold GoInt.len in Hsel; lia|].
  exists file. split; [done|]. unfold Update. simpl. rewrite Hv. simpl.
  destruct (Z.gtb_spec (GoInt.len (parquetFiles m)) 0) as [_|]; [|lia].
  unfold index. destruct (Z.ltb_spec (selectedFile m) 0) as [|_]; [lia|].
  by rewrite Hfile.
Qed.

(** X11. From the scan to the load.  Started without arguments, when the
    directory scan reports a non-empty list and the user presses down
    [k] times and then enter, the file opened is the one at position
    [k] modulo the length of the list: the program goes to the table
    view in the loading state and issues the load of that file with the
    window size 32. *)
Theorem kth_file_is_opened (files : list string) (k : nat) (h : Heap) :
  (0 < GoInt.len files < GoInt.half)%Z ->
  exists (s : State) (file : string) (m' : Model),
    handleAll (ParquetFilesMsg files :: repeat (KeyMsg "down") k)
      (initialModel [], h) = Some s
    /\ files !! (k mod length files)%nat = Some file
    /\ Update s.1 (KeyMsg "enter") s.2
       = (Return (Some m') (CmdLoadParquetData file 32), h)
    /\ filePath m' = file /\ viewState m' = TableView
    /\ isLoading m' = true.
Proof.
  intros Hlen.
  assert (Hn : (length files > 0)%nat) by (unfold GoInt.len in Hlen; lia).
  assert (Hfirst :
    Update (initialModel []) (ParquetFilesMsg files) h
    = (Return (Some (set_viewState FileSelectView
                       (set_parquetFiles files (initialModel [])))) CmdNil, h)).
  { unfold Update. cbn [parquetFiles set_parquetFiles].
    destruct (Z.gtb_spec (GoInt.len files) 0) as [_|]; [done|lia]. }
  set (m0 := set_viewState FileSelectView
               (set_parquetFiles files (initialModel []))) in *.
  assert (Hfiles0 : parquetFiles m0 = files) by done.
  assert (Hsel0 : selectedFile m0 = 0%Z) by done.
  assert (Hv0 : viewState m0 = FileSelectView) by done.
  assert (Hrun :
    handleAll (ParquetFilesMsg files :: repeat (KeyMsg "down") k)
      (initialModel [], h)
    = Some (set_selectedFile (Z.of_nat k mod GoInt.len files) m0, h)).
  { cbn [handleAll]. unfold handle at 1. cbn [fst snd]. rewrite Hfirst.
    rewrite downs_select; rewrite ?Hfiles0, ?Hsel0; [|done|lia|lia].
    by rewrite Z.add_0_l. }
  set (m1 := set_selectedFile (Z.of_nat k mod GoInt.len files) m0) in *.
  assert (Hfiles1 : parquetFiles m1 = files) by done.
  assert (Hsel1 : selectedFile m1 = (Z.of_nat k mod GoInt.len files)%Z) by done.
  assert (Hmax1 : maxRows m1 = 32%Z) by done.
  pose proof (Z.mod_pos_bound (Z.of_nat k) (GoInt.len files)) as Hbound.
  destruct (enter_opens_selected m1 h) as (file & Hfile & Henter);
    [done|rewrite Hfiles1, Hsel1; lia|].
  rewrite Hfiles1, Hsel1 in Hfile. rewrite Hmax1 in Henter.
  unfold GoInt.len in Hfile. rewrite <- Nat2Z.inj_mod, Nat2Z.id in Hfile.
  exists (m1, h), file,
    (set_viewState TableView (set_isLoading true (set_filePath file m1))).
  split; [exact Hrun|]. split; [exact Hfile|]. split; [exact Henter|].
  done.
Qed.

(** X12. An empty file list is a dead end.  In the file list view with
    no file to list, the screen asks for a path, but no key other than
    ctrl+d has any effect: whatever is typed, the text input is not
    touched, no command is issued, the view state stays, and the screen
    stays the same. *)
Theorem empty_file_list_is_dead_end (m : Model) (h : Heap)
    (keys : list string) :
  viewState m = FileSelectView ->
  parquetFiles m = [] ->
  Forall (fun key => key <> "ctrl+d"%string) keys ->
  exists m',
    handleAll (KeyMsg <$> keys) (m, h) = Some (m', h)
    /\ viewState m' = FileSelectView /\ parquetFiles m' = []
    /\ textInput m' = textInput m
    /\ View m' = View m
    /\ forall key, key <> "ctrl+d"%string ->
         exists m'', Update m' (KeyMsg key) h = (Return (Some m'') CmdNil, h).
Proof.
  intros Hv Hnil Hkeys.
  assert (Hstep : forall (m : Model) (key : string),
    viewState m = FileSelectView -> parquetFiles m = [] ->
    key <> "ctrl+d"%string ->
    exists m', Update m (KeyMsg key) h = (Return (Some m') CmdNil, h)
      /\ viewState m' = FileSelectView /\ parquetFiles m' = []
      /\ textInput m' = textInput m).
  { clear. intros m key Hv Hnil Hkey. unfold Update, keyIs.
    apply String.eqb_neq in Hkey. rewrite Hkey.
    destruct (String.eqb key "q" || String.eqb key "esc").
    { destruct (decide (viewState m = TableView)); [congruence|].
      rewrite updateTail_list by done. by exists m. }
    destruct (String.eqb key "enter").
    { rewrite Hv, Hnil. simpl. rewrite updateTail_list by done. by exists m. }
    destruct (String.eqb key "up" || String.eqb key "k").
    { destruct (decide (viewState m = FileSelectView)); [|congruence].
      simpl. destruct (_ <? 0)%Z;
        rewrite updateTail_list by done; eexists; split; done. }
    destruct (String.eqb key "down" || String.eqb key "j").
    { destruct (decide (viewState m = FileSelectView)); [|congruence].
      simpl. destruct (_ >=? _)%Z;
        rewrite updateTail_list by done; eexists; split; done. }
    rewrite updateTail_list by done. by exists m. }
  assert (Hview : forall m1 m2 : Model,
    viewState m1 = FileSelectView -> viewState m2 = FileSelectView ->
    parquetFiles m1 = [] -> parquetFiles m2 = [] ->
    textInput m1 = textInput m2 -> View m1 = View m2).
  { clear. intros m1 m2 Hv1 Hv2 Hn1 Hn2 Hti. unfold View.
    rewrite Hv1, Hv2, Hn1, Hn2, Hti. done. }
  revert m Hv Hnil. induction Hkeys as [|key keys Hkey Hkeys IH]; intros m Hv Hnil.
  - exists m. simpl. repeat split; try done.
    intros key Hkey. destruct (Hstep m key Hv Hnil Hkey) as (m'' & Hm'' & _).
    by exists m''.
  - destruct (Hstep m key Hv Hnil Hkey) as (m1 & Hm1 & Hv1 & Hn1 & Hti1).
    destruct (IH m1 Hv1 Hn1) as (m' & Hrun & Hv' & Hn' & Hti' & Hview' & Hnext).
    exists m'. rewrite fmap_cons. cbn [handleAll].
    unfold handle at 1. cbn [fst snd]. rewrite Hm1.
    repeat split; try done; [congruence|].
    rewrite Hview'. apply Hview; done.
Qed.

End FileList.

(** ** What the handler keeps *)

Section HandlerFrame.

Context `{Bubbles} `{GoValue}.

Ltac tail_all :=
  match goal with
  | Heq : context [updateTail ?m ?msg] |- _ =>
      let m1 := fresh "m1" in
      let c1 := fresh "c1" in
      let Ht := fresh "Ht" in
      destruct (updateTail_returns m msg)
        as (m1 & c1 & Ht & ? & ? & ? & ? & ? & ? & ? & ? & ? & ? & ? & ? & ?);
      rewrite Ht in Heq; simplify_eq/=
  end.

Ltac sel_arith :=
  try match goal with
  | Hp : parquetFiles ?a = _ |- (_ <= selectedFile ?a < _)%Z => rewrite Hp
  end;
  try match goal with
  | Ht : updateTail _ _ = _ |- _ => clear Ht
  end;
  repeat match goal with
  | Hc : (_ <? _)%Z = true |- _ => apply Z.ltb_lt in Hc
  | Hc : (_ <? _)%Z = false |- _ => apply Z.ltb_ge in Hc
  | Hc : (_ >=? _)%Z = true |- _ => apply Z.geb_le in Hc
  | Hc : (_ >=? _)%Z = false |- _ => rewrite Z.geb_leb in Hc; apply Z.leb_gt in Hc
  end;
  repeat match goal with
  | Hc : context [GoInt.sub (selectedFile ?m) 1] |- _ =>
      rewrite (sub1_small (selectedFile m)) in Hc by lia
  | Hc : context [GoInt.add (selectedFile ?m) 1] |- _ =>
      rewrite (add1_small (selectedFile m)) in Hc by lia
  | Hc : context [GoInt.sub (GoInt.len ?l) 1] |- _ =>
      rewrite (sub1_small (GoInt.len l)) in Hc by (unfold GoInt.len in *; lia)
  end;
  unfold GoInt.len in *; lia.

Lemma Update_selection_kept (m : Model) (msg : Msg) (h : Heap)
    (m' : Model) (cmd : Cmd) (h' : Heap) :
  (forall files, msg <> ParquetFilesMsg files) ->
  (GoInt.len (parquetFiles m) < GoInt.half)%Z ->
  (0 <= selectedFile m < GoInt.len (parquetFiles m))%Z ->
  Update m msg h = (Return (Some m') cmd, h') ->
  parquetFiles m' = parquetFiles m
  /\ (0 <= selectedFile m' < GoInt.len (parquetFiles m'))%Z.
Proof.
  intros Hmsg Hn Hsel Heq. destruct msg as [key|files|d|r|tag].
  - unfold Update, leaveTable in Heq.
    repeat (case_match; simplify_eq/=; try done); try tail_all;
      try (split; [congruence|sel_arith]).
  - by destruct (Hmsg files).
  - unfold Update in Heq. destruct (pd_err d); simplify_eq/=; [done|].
    tail_all. split; [congruence|sel_arith].
  - rewrite Update_moreRows in Heq.
    repeat (case_match; simplify_eq/=); done.
  - unfold Update in Heq. tail_all. split; [congruence|sel_arith].
Qed.

(** X13. The selection stays within the list for as long as no new list
    arrives.  From a selection within the list, whatever keys, load
    results and other messages are handled, the list is the same and the
    selection is still within it; so enter, pressed in the file list,
    does not panic and opens the file selected. *)
Theorem selection_stays_in_range (msgs : list Msg) (s s' : State) :
  Forall (fun msg => forall files, msg <> ParquetFilesMsg files) msgs ->
  (GoInt.len (parquetFiles s.1) < GoInt.half)%Z ->
  (0 <= selectedFile s.1 < GoInt.len (parquetFiles s.1))%Z ->
  handleAll msgs s = Some s' ->
  parquetFiles s'.1 = parquetFiles s.1
  /\ (0 <= selectedFile s'.1 < GoInt.len (parquetFiles s'.1))%Z
  /\ (viewState s'.1 = FileSelectView ->
      exists file m',
        parquetFiles s'.1 !! Z.to_nat (selectedFile s'.1) = Some file
        /\ Update s'.1 (KeyMsg "enter") s'.2
           = (Return (Some m') (CmdLoadParquetData file (maxRows s'.1)),
              s'.2)).
Proof.
  intros Hmsgs Hn Hsel Hrun.
  assert (Hkept : parquetFiles s'.1 = parquetFiles s.1
    /\ (0 <= selectedFile s'.1 < GoInt.len (parquetFiles s'.1))%Z).
  { revert s Hn Hsel Hrun.
    induction Hmsgs as [|msg msgs Hmsg Hmsgs IH]; intros [m h] Hn Hsel Hrun.
    - simpl in Hrun. by injection Hrun as <-.
    - cbn [handleAll] in Hrun. unfold handle in Hrun. cbn [fst snd] in *.
      destruct (Update m msg h) as [[|[m1|] c1] h1] eqn:Heq; try discriminate.
      destruct (Update_selection_kept m msg h m1 c1 h1 Hmsg Hn Hsel Heq)
        as [Hfiles Hsel1].
      destruct (IH (m1, h1)) as [Hfiles' Hsel']; cbn [fst snd];
        [by rewrite Hfiles|done|done|].
      cbn [fst snd] in Hfiles'. split; [congruence|done]. }
  destruct Hkept as [Hfiles Hsel']. split; [done|]. split; [done|].
  intros Hv.
  destruct (enter_opens_selected s'.1 s'.2 Hv Hsel') as (file & Hfile & Hup).
  eexists file, _. split; [exact Hfile | exact Hup].
Qed.

Lemma stopReader_lookup (p : ReaderRef) (h : Heap) :
  length (stopReader p h) = length h
  /\ forall q pr, h !! q = Some pr ->
       stopReader p h !! q = Some (if decide (q = p) then ReadStop pr else pr).
Proof.
  unfold stopReader. destruct (h !! p) as [pr0|] eqn:Hp.
  - split; [apply length_insert|]. intros q pr Hq.
    destruct (decide (q = p)) as [->|Hne].
    + assert (pr0 = pr) as -> by congruence.
      apply list_lookup_insert_eq. by eapply lookup_lt_Some.
    + rewrite <- Hq. by apply list_lookup_insert_ne.
  - split; [done|]. intros q pr Hq.
    destruct (decide (q = p)) as [->|Hne]; [congruence|done].
Qed.

(** X14. Leaving the table with [q] or [esc].  When the file closes
    without error, the reader is stopped, the model drops both handles
    and shows the file list, and a new directory scan is issued; the
    window, the columns, the error slot and the loading flag are left as
    they were.  After that a one-row read reports that the reader is not
    initialized, without touching the heap, and pressing the key again
    does nothing.  When the file fails to close, the handler returns the
    nil model. *)
Theorem leaving_the_table (m : Model) (h : Heap) (key : string) :
  key = "q"%string \/ key = "esc"%string ->
  viewState m = TableView ->
  let h' := match parquetReader m with
            | Some p => stopReader p h
            | None => h
            end in
  let m' := set_viewState FileSelectView
              (set_parquetFile None (set_parquetReader None m)) in
  (forall p pr, parquetReader m = Some p -> h !! p = Some pr ->
     h' !! p = Some (ReadStop pr))
  /\ ((forall fr, parquetFile m = Some fr -> pf_closeErr fr = None) ->
      Update m (KeyMsg key) h = (Return (Some m') CmdFindParquetFiles, h')
      /\ (forall h0,
           loadMoreRows m' h0
           = (TMsg (Some (MoreRowsMsg
                {| mr_newRow := [];
                   mr_err := Some "parquet reader is not initialized"%string |})),
              h0))
      /\ (forall h0, Update m' (KeyMsg key) h0 = (Return (Some m') CmdNil, h0)))
  /\ (forall fr e, parquetFile m = Some fr -> pf_closeErr fr = Some e ->
      Update m (KeyMsg key) h = (Return None CmdNil, h')).
Proof.
  intros Hkey Hv h' m'. split; [|split].
  - intros p pr Hp Hpr. unfold h'. rewrite Hp.
    destruct (stopReader_lookup p h) as [_ Hlook].
    rewrite (Hlook p pr Hpr). by destruct (decide (p = p)).
  - intros Hclose.
    assert (Hup : Update m (KeyMsg key) h = leaveTable m h).
    { destruct Hkey as [-> | ->]; unfold Update; simpl;
        by destruct (decide (viewState m = TableView)). }
    split; [|split].
    + rewrite Hup. unfold leaveTable, h', m'.
      destruct m as [t ti fp er cs rs mr il vs pfs sf off tot [p|] [fr|]];
        simpl in *; subst vs; try rewrite (Hclose fr eq_refl); done.
    + intros h0. done.
    + intros h0. destruct Hkey as [-> | ->]; unfold Update; simpl;
        by rewrite updateTail_list.
  - intros fr e Hfr He.
    assert (Hup : Update m (KeyMsg key) h = leaveTable m h).
    { destruct Hkey as [-> | ->]; unfold Update; simpl;
        by destruct (decide (viewState m = TableView)). }
    rewrite Hup. unfold leaveTable, h'.
    destruct (parquetReader m); simpl; rewrite Hfr, He; done.
Qed.

Lemma Update_heap (m : Model) (msg : Msg) (h : Heap) :
  (Update m msg h).2 = h
  \/ exists key p,
       msg = KeyMsg key /\ (key = "q"%string \/ key = "esc"%string)
       /\ viewState m = TableView /\ parquetReader m = Some p
       /\ (Update m msg h).2 = stopReader p h.
Proof.
  destruct msg as [key|files|d|r|tag]; try (left; done).
  - unfold Update.
    destruct (keyIs key "ctrl+d"); [by left|].
    destruct (keyIs key "q" || keyIs key "esc") eqn:Hq.
    + destruct (decide (viewState m = TableView)) as [Hv|]; [|by left].
      unfold leaveTable. destruct (parquetReader m) as [p|] eqn:Hp.
      * right. exists key, p. split; [done|]. split.
        { apply orb_prop in Hq as [Hq|Hq]; apply String.eqb_eq in Hq; auto. }
        split; [done|]. split; [done|]. simpl.
        destruct (parquetFile m) as [fr|]; [destruct (pf_closeErr fr)|]; done.
      * left. destruct (parquetFile m) as [fr|]; [destruct (pf_closeErr fr)|];
          done.
    + left. repeat (case_match; simpl; try done).
  - left. unfold Update. by destruct (pd_err d).
  - left. rewrite Update_moreRows. repeat (case_match; simpl; try done).
Qed.

(** X15. The handler does no file input.  Whatever the message, the
    heap of readers keeps its length and every reader keeps its rows and
    its position; a reader that was stopped stays stopped; and the only
    change ever made is that [q] or [esc], in the table view, stops the
    reader of the model.  Rows are read by the two tasks only. *)
Theorem Update_never_reads (m : Model) (msg : Msg) (h : Heap) :
  length (Update m msg h).2 = length h
  /\ forall p pr,
      h !! p = Some pr ->
      exists pr',
        (Update m msg h).2 !! p = Some pr'
        /\ rd_rows pr' = rd_rows pr /\ rd_numRows pr' = rd_numRows pr
        /\ rd_pos pr' = rd_pos pr
        /\ (rd_stopped pr = true -> rd_stopped pr' = true)
        /\ (pr' <> pr ->
            pr' = ReadStop pr /\ parquetReader m = Some p
            /\ viewState m = TableView
            /\ exists key, msg = KeyMsg key
                           /\ (key = "q"%string \/ key = "esc"%string)).
Proof.
  destruct (Update_heap m msg h)
    as [-> | (key & p0 & -> & Hkey & Hv & Hp0 & ->)].
  - split; [done|]. intros p pr Hpr. exists pr. repeat split; done.
  - destruct (stopReader_lookup p0 h) as [Hlen Hlook].
    split; [done|]. intros p pr Hpr. rewrite (Hlook p pr Hpr).
    destruct (decide (p = p0)) as [->|Hne].
    + exists (ReadStop pr). repeat split; try done. by exists key.
    + exists pr. repeat split; done.
Qed.

Lemma updateTail_textInput (m0 : Model) (msg0 : Msg) (m1 : Model) (c1 : Cmd) :
  updateTail m0 msg0 = Return (Some m1) c1 ->
  viewState m0 <> InputView -> textInput m1 = textInput m0.
Proof.
  unfold updateTail.
  destruct (decide (viewState m0 = InputView)); [done|].
  destruct (decide (viewState m0 = TableView)).
  - destruct (table_Update (table m0) msg0) as [t c]. simpl.
    destruct (_ && _ && _); intros [= <- _]; done.
  - intros [= <- _]. done.
Qed.

Ltac tail_frame :=
  match goal with
  | Hu : updateTail ?m0 ?msg0 = Return (Some ?m1) ?c1 |- _ =>
      let Hti := fresh "Hti" in
      let m2 := fresh "m2" in
      let c2 := fresh "c2" in
      let Ht := fresh "Ht" in
      pose proof (updateTail_textInput m0 msg0 m1 c1 Hu) as Hti;
      destruct (updateTail_returns m0 msg0)
        as (m2 & c2 & Ht & ? & ? & ? & ? & ? & ? & ? & ? & ? & ? & ? & ? & ?);
      rewrite Ht in Hu; simplify_eq/=
  end.

(** X16. What the handler leaves alone.  No message changes the window
    size; keys reach the text input in the input view only; and a
    message that is not the result of a load or of a one-row read changes
    neither the window, the columns, the row count, the offset nor the
    error slot: leaving the table, in particular, keeps the old rows. *)
Theorem Update_frame (m : Model) (msg : Msg) (h : Heap)
    (m' : Model) (cmd : Cmd) (h' : Heap) :
  Update m msg h = (Return (Some m') cmd, h') ->
  maxRows m' = maxRows m
  /\ (viewState m <> InputView -> textInput m' = textInput m)
  /\ ((forall d, msg <> ParquetDataMsg d) ->
      (forall r, msg <> MoreRowsMsg r) ->
      rows m' = rows m /\ columns m' = columns m
      /\ totalRows m' = totalRows m
      /\ currentRowOffset m' = currentRowOffset m
      /\ error m' = error m).
Proof.
  intros Heq. destruct msg as [key|files|d|r|tag].
  - unfold Update, leaveTable in Heq.
    repeat (case_match; simplify_eq/=; try done); try tail_frame;
      repeat split; try congruence; try done.
  - unfold Update in Heq. repeat (case_match; simplify_eq/=); done.
  - unfold Update in Heq. destruct (pd_err d); simplify_eq/=.
    + repeat split; try done;
        match goal with
        | Hd : forall d0, ParquetDataMsg ?d <> ParquetDataMsg d0 |- _ =>
            by destruct (Hd d)
        end.
    + tail_frame. repeat split; try done;
        match goal with
        | Hd : forall d0, ParquetDataMsg ?d <> ParquetDataMsg d0 |- _ =>
            by destruct (Hd d)
        end.
  - rewrite Update_moreRows in Heq.
    repeat (case_match; simplify_eq/=); repeat split; try done;
      match goal with
      | Hr : forall r0, MoreRowsMsg ?r <> MoreRowsMsg r0 |- _ =>
          by destruct (Hr r)
      end.
  - unfold Update in Heq. simplify_eq/=. tail_frame.
    repeat split; try congruence; done.
Qed.

(** The reader a returned model holds: the one it held, none, or the one
    a successful load result brought. *)
Lemma Update_reader (m : Model) (msg : Msg) (h : Heap)
    (m' : Model) (cmd : Cmd) (h' : Heap) :
  Update m msg h = (Return (Some m') cmd, h') ->
  parquetReader m' = parquetReader m
  \/ parquetReader m' = None
  \/ exists d, msg = ParquetDataMsg d /\ pd_err d = None
               /\ parquetReader m' = pd_parquetReader d.
Proof.
  intros Heq. destruct msg as [key|files|d|r|tag].
  - unfold Update, leaveTable in Heq.
    repeat (case_match; simplify_eq/=; try done); try tail_frame;
      auto.
  - unfold Update in Heq. repeat (case_match; simplify_eq/=); auto.
  - unfold Update in Heq. destruct (pd_err d) eqn:Herr; simplify_eq/=.
    + by left.
    + tail_frame. right. right. by exists d.
  - rewrite Update_moreRows in Heq.
    repeat (case_match; simplify_eq/=); auto.
  - unfold Update in Heq. simplify_eq/=. tail_frame. by left.
Qed.

(** X24. A reader the model lets go of without stopping it is never
    stopped.  A successful load result replaces the reader of the model
    and leaves the heap as it is, so a reader the model held is then
    still live and no longer referred to; and from a state in which the
    model does not refer to a reader, no sequence of messages touches
    that reader, unless a load result brings its address back. *)
Theorem orphaned_reader_is_never_stopped (p : ReaderRef) :
  (forall (m : Model) (d : parquetDataMsg) (h : Heap),
      pd_err d = None -> pd_parquetReader d <> Some p ->
      exists m' cmd,
        Update m (ParquetDataMsg d) h = (Return (Some m') cmd, h)
        /\ parquetReader m' <> Some p)
  /\ (forall (msgs : list Msg) (s s' : State) (pr : ParquetReader),
      s.2 !! p = Some pr ->
      parquetReader s.1 <> Some p ->
      Forall (fun msg => forall d, msg = ParquetDataMsg d ->
                           pd_parquetReader d <> Some p) msgs ->
      handleAll msgs s = Some s' ->
      s'.2 !! p = Some pr /\ parquetReader s'.1 <> Some p).
Proof.
  split.
  - intros m d h Herr Hd.
    destruct (Update_data m d h Herr)
      as (m' & cmd & Hup & _ & _ & _ & _ & Hp & _).
    exists m', cmd. split; [done|]. by rewrite Hp.
  - intros msgs s s' pr Hpr Hnot Hmsgs. revert s Hpr Hnot.
    induction Hmsgs as [|msg msgs Hmsg Hmsgs IH]; intros [m h] Hpr Hnot Hrun.
    + simpl in Hrun. by injection Hrun as <-.
    + cbn [handleAll] in Hrun. unfold handle in Hrun. cbn [fst snd] in *.
      destruct (Update m msg h) as [[|[m1|] c1] h1] eqn:Heq; try discriminate.
      apply (IH (m1, h1)); cbn [fst snd]; [| |done].
      * destruct (Update_heap m msg h)
          as [Hh | (key & p0 & _ & _ & _ & Hp0 & Hh)];
          rewrite Heq in Hh; cbn [snd] in Hh; subst h1; [done|].
        destruct (stopReader_lookup p0 h) as [_ Hlook].
        rewrite (Hlook p pr Hpr).
        destruct (decide (p = p0)) as [->|]; [congruence|done].
      * destruct (Update_reader m msg h m1 c1 h1 Heq)
          as [Hsame | [Hnone | (d & -> & _ & Hd)]].
        -- by rewrite Hsame.
        -- by rewrite Hnone.
        -- rewrite Hd. by apply Hmsg.
Qed.

End HandlerFrame.

(** ** The two tasks on any file *)

Section TaskFacts.

Context `{Bubbles} `{GoValue}.

(** One read: the reader keeps its rows, moves on by at most one row,
    and hands back a record exactly when it moved without error. *)
Lemma ReadByNumber1_any (pr : ParquetReader) (rowData : list GoRecord)
    (err : option GoError) (pr' : ParquetReader) :
  ReadByNumber1 pr = (rowData, err, pr') ->
  rd_rows pr' = rd_rows pr /\ rd_numRows pr' = rd_numRows pr
  /\ rd_stopped pr' = rd_stopped pr
  /\ (err = None -> rd_stopped pr = false)
  /\ ((rowData = [] /\ (err = None -> pr' = pr)
       /\ (rd_pos pr <= rd_pos pr' <= S (rd_pos pr))%nat)
      \/ (exists data, rowData = [data] /\ err = None
            /\ rd_rows pr !! rd_pos pr = Some (inl data)
            /\ pr' = advanceReader pr)).
Proof.
  unfold ReadByNumber1. destruct (rd_stopped pr) eqn:Hs.
  - intros [= <- <- <-]. split_and!; try done.
    left. split_and!; try done; lia.
  - destruct (rd_rows pr !! rd_pos pr) as [[data|e]|] eqn:Hat;
      intros [= <- <- <-]; split_and!; try done.
    + right. by exists data.
    + left. split_and!; try done; simpl; lia.
    + left. split_and!; try done; lia.
Qed.

(** The loop reading the initial rows, on any reader. *)
Lemma readLoop_any (columns : list string) (n : nat) :
  forall (i : nat) (pr : ParquetReader) (rows : list (list string)),
    match readLoop n i pr columns rows with
    | LoopPanic => True
    | LoopFail j pr' =>
        rd_rows pr' = rd_rows pr /\ rd_stopped pr' = rd_stopped pr
        /\ (i <= j < i + n)%nat
    | LoopDone rows' pr' =>
        rd_rows pr' = rd_rows pr /\ rd_numRows pr' = rd_numRows pr
        /\ rd_stopped pr' = rd_stopped pr
        /\ (n = O \/ rd_stopped pr = false)
        /\ exists new,
            rows' = rows ++ new /\ (length new <= n)%nat
            /\ rd_pos pr' = (rd_pos pr + length new)%nat
            /\ forall k row, new !! k = Some row ->
                 exists data,
                   rd_rows pr !! (rd_pos pr + k)%nat = Some (inl data)
                   /\ decodeRow columns data = Some row
    end.
Proof.
  induction n as [|n IH]; intros i pr rows.
  - simpl. split_and!; try done; [by left|].
    exists []. rewrite app_nil_r. split_and!; try done; try (simpl; lia).
  - simpl. destruct (ReadByNumber1 pr) as [[rowData err] pr1] eqn:Hread.
    destruct (ReadByNumber1_any pr rowData err pr1 Hread)
      as (Hrows & Hnum & Hstop & Hlive & Hcase).
    destruct err as [e|].
    { split_and!; try done; lia. }
    specialize (Hlive eq_refl).
    destruct Hcase as [(-> & Hsame & Hpos) | (data & -> & _ & Hat & ->)].
    + rewrite (Hsame eq_refl). specialize (IH (S i) pr rows).
      destruct (readLoop n (S i) pr columns rows) as [|j pr'|rows' pr'];
        [done| |].
      * destruct IH as (? & ? & ?). split_and!; try done; lia.
      * destruct IH as (? & ? & ? & _ & new & ? & ? & ? & ?).
        split_and!; try done; [by right|].
        exists new. split_and!; try done. lia.
    + destruct (decodeRow columns data) as [row|] eqn:Hdec; [|done].
      specialize (IH (S i) (advanceReader pr) (rows ++ [row])).
      destruct (readLoop n (S i) (advanceReader pr) columns (rows ++ [row]))
        as [|j pr'|rows' pr']; [done| |].
      * destruct IH as (? & ? & ?). split_and!; try done; lia.
      * destruct IH as (? & ? & ? & _ & new & -> & Hlen & Hpos & Hnew).
        split_and!; try done; [by right|].
        exists (row :: new). rewrite <- app_assoc. simpl in *.
        split_and!; try done; try lia.
        intros [|k] row' Hk; simpl in Hk.
        -- injection Hk as <-. exists data. by rewrite Nat.add_0_r.
        -- destruct (Hnew k row' Hk) as (data' & Hat' & Hdec').
           exists data'. split; [|done].
           by replace (rd_pos pr + S k)%nat with (S (rd_pos pr + k)) by lia.
Qed.

(** Every way [loadParquetData] can end, on any file. *)
Lemma loadParquetData_any (env : Env) (path : string) (W : Z) (h : Heap) :
  exists new,
    (loadParquetData env path W h).2 = h ++ new
    /\ (length new <= 2)%nat
    /\ match (loadParquetData env path W h).1 with
       | TPanic => True
       | TMsg None =>
           Forall (fun pr => rd_stopped pr = true) new
           /\ exists fd e, env_open env path = inr fd
                           /\ fd_closeErr fd = Some e
       | TMsg (Some msg) =>
           exists d, msg = ParquetDataMsg d
           /\ match pd_err d with
              | Some e =>
                  d = parquetDataErr e
                  /\ Forall (fun pr => rd_stopped pr = true) new
                  /\ ((path = EmptyString /\ new = []
                       /\ e = "no parquet file specified"%string)
                      \/ (exists cause, env_open env path = inl cause
                            /\ new = []
                            /\ e = ("failed to open parquet file: " +:+ cause)%string)
                      \/ (exists fd, env_open env path = inr fd
                            /\ (e ∈ [ "failed to create parquet reader: <nil>";
                                      "failed to read sample data: <nil>";
                                      "failed to reset parquet reader: <nil>";
                                      "could not determine columns from parquet file"
                                    ]%string
                                \/ exists i : nat,
                                     (Z.of_nat i < W)%Z
                                     /\ e = ("failed to read row "
                                             +:+ GoStrings.Itoa i
                                             +:+ ": <nil>")%string)))
              | None =>
                  exists fd sample pr data0,
                    env_open env path = inr fd
                    /\ new = [sample; pr]
                    /\ rd_stopped sample = true /\ rd_stopped pr = false
                    /\ pd_parquetReader d = Some (S (length h))
                    /\ pd_parquetFile d
                       = Some {| pf_path := path;
                                 pf_closeErr := fd_closeErr fd |}
                    /\ fd_rows fd !! 0%nat = Some (inl data0)
                    /\ pd_columns d
                       = extractColumns (env_rangeOrder env) [data0]
                    /\ pd_columns d <> []
                    /\ pd_totalRows d = GoInt.wrap (fd_numRows fd)
                    /\ rd_rows pr = fd_rows fd
                    /\ rd_pos pr = length (pd_rows d)
                    /\ (Z.of_nat (length (pd_rows d))
                        <= Z.min W (pd_totalRows d))%Z
                    /\ forall k row,
                        pd_rows d !! k = Some row ->
                        exists data,
                          fd_rows fd !! k = Some (inl data)
                          /\ decodeRow (pd_columns d) data = Some row
              end
       end.
Proof.
  unfold loadParquetData.
  destruct (String.eqb_spec path EmptyString) as [->|Hpath].
  { exists []. simpl. rewrite app_nil_r. split_and!; try done; try lia.
    eexists. split; [done|]. simpl. split_and!; try done. by left. }
  destruct (env_open env path) as [cause|fd] eqn:Hopen.
  { exists []. simpl. rewrite app_nil_r. split_and!; try done; try lia.
    eexists. split; [done|]. simpl. split_and!; try done.
    right. left. by exists cause. }
  destruct (fd_newReaderErr fd 0) as [e0|] eqn:Hr0.
  { exists []. unfold closeThen. simpl. rewrite app_nil_r.
    split_and!; try done; try lia.
    destruct (fd_closeErr fd) as [ec|] eqn:Hclose.
    - split; [done|]. by exists fd, ec.
    - eexists. split; [done|]. simpl. split_and!; try done.
      right. right. exists fd. split; [done|]. left. by repeat constructor. }
  destruct (ReadByNumber1 (NewParquetReader fd)) as [[sampleData err] pr0]
    eqn:Hsample.
  destruct (ReadByNumber1_any _ _ _ _ Hsample)
    as (Hrows0 & _ & _ & _ & Hcase0).
  destruct err as [e1|].
  { exists [ReadStop pr0]. unfold closeThen. simpl.
    split_and!; try done; try lia.
    destruct (fd_closeErr fd) as [ec|] eqn:Hclose.
    - split; [by repeat constructor|]. by exists fd, ec.
    - eexists. split; [done|]. simpl. split_and!; try done.
      + by repeat constructor.
      + right. right. exists fd. split; [done|]. left. by repeat constructor. }
  destruct (fd_newReaderErr fd 1) as [e2|] eqn:Hr1.
  { exists [ReadStop pr0]. unfold closeThen. simpl.
    split_and!; try done; try lia.
    destruct (fd_closeErr fd) as [ec|] eqn:Hclose.
    - split; [by repeat constructor|]. by exists fd, ec.
    - eexists. split; [done|]. simpl. split_and!; try done.
      + by repeat constructor.
      + right. right. exists fd. split; [done|]. left. by repeat constructor. }
  destruct (GoInt.len (extractColumns (env_rangeOrder env) sampleData) =? 0)%Z
    eqn:Hcols.
  { exists [ReadStop pr0; ReadStop (NewParquetReader fd)].
    unfold closeThen. simpl. rewrite <- app_assoc.
    split_and!; try done; try lia.
    destruct (fd_closeErr fd) as [ec|] eqn:Hclose.
    - split; [by repeat constructor|]. by exists fd, ec.
    - eexists. split; [done|]. simpl. split_and!; try done.
      + by repeat constructor.
      + right. right. exists fd. split; [done|]. left. by repeat constructor. }
  set (total := GoInt.wrap (GetNumRows (NewParquetReader fd))).
  set (num := if (total >? W)%Z then W else total).
  assert (Hnum : (num <= Z.min W total)%Z).
  { unfold num. destruct (Z.gtb_spec total W); lia. }
  destruct (Z.ltb_spec num 0) as [Hneg|Hpos].
  { exists [ReadStop pr0; NewParquetReader fd]. simpl. rewrite <- app_assoc.
    split_and!; try done; lia. }
  pose proof (readLoop_any (extractColumns (env_rangeOrder env) sampleData)
                (Z.to_nat num) 0 (NewParquetReader fd) []) as Hloop.
  destruct (readLoop (Z.to_nat num) 0 (NewParquetReader fd) _ [])
    as [|i pr|rows pr].
  - exists [ReadStop pr0; NewParquetReader fd]. simpl. rewrite <- app_assoc.
    split_and!; try done; lia.
  - exists [ReadStop pr0; ReadStop pr]. unfold closeThen. simpl.
    rewrite <- app_assoc. split_and!; try done; try lia.
    destruct Hloop as (_ & _ & Hi).
    destruct (fd_closeErr fd) as [ec|] eqn:Hclose.
    + split; [by repeat constructor|]. by exists fd, ec.
    + eexists. split; [done|]. simpl. split_and!; try done.
      * by repeat constructor.
      * right. right. exists fd. split; [done|]. right. exists i.
        split; [lia|done].
  - exists [ReadStop pr0; pr]. simpl. rewrite <- app_assoc.
    split_and!; try done; try lia.
    eexists. split; [done|].
    cbn [pd_err pd_columns pd_rows pd_totalRows pd_parquetReader
         pd_parquetFile].
    destruct Hloop as (Hrows & _ & Hstop & _ & new & -> & Hlen & Hposn & Hnew).
    simpl in Hrows, Hstop, Hposn, Hnew.
    assert (Hsample0 : exists data0,
      fd_rows fd !! 0%nat = Some (inl data0) /\ sampleData = [data0]).
    { destruct Hcase0 as [(-> & _) | (data0 & -> & _ & Hat & _)].
      - simpl in Hcols. done.
      - by exists data0. }
    destruct Hsample0 as (data0 & Hat0 & ->).
    exists fd, (ReadStop pr0), pr, data0.
    rewrite length_app. cbn [length app]. split_and!; try done.
    + f_equal. lia.
    + intros Hnil. rewrite Hnil in Hcols. done.
    + lia.
Qed.

(** X17. A load that fails releases what it took.  Whenever
    [loadParquetData] ends in an error message or in the nil message,
    the heap is the old heap followed by at most two readers, all of them
    stopped; the error message carries the error only (no rows, no
    columns, no handles); and the nil message is returned only when
    closing the file failed. *)
Theorem loadParquetData_failure_releases (env : Env) (path : string)
    (W : Z) (h : Heap) (r : TaskResult) (h' : Heap) :
  loadParquetData env path W h = (r, h') ->
  (r = TMsg None
   \/ exists d e, r = TMsg (Some (ParquetDataMsg d)) /\ pd_err d = Some e) ->
  exists new,
    h' = h ++ new /\ (length new <= 2)%nat
    /\ Forall (fun pr => rd_stopped pr = true) new
    /\ (r = TMsg None ->
        exists fd e, env_open env path = inr fd /\ fd_closeErr fd = Some e)
    /\ (forall d, r = TMsg (Some (ParquetDataMsg d)) ->
        exists e, d = parquetDataErr e).
Proof.
  intros Heq Hfail.
  destruct (loadParquetData_any env path W h) as (new & Hh & Hlen & Hres).
  rewrite Heq in Hh, Hres. simpl in Hh, Hres. exists new.
  destruct Hfail as [-> | (d & e & -> & He)].
  - destruct Hres as (Hstopped & Hclose). split_and!; try done.
  - destruct Hres as (d' & [= <-] & Hres). rewrite He in Hres.
    destruct Hres as (Hd & Hstopped & _).
    split_and!; try done. intros d0 [= <-]. by exists e.
Qed.

(** X18. What a successful load hands over, on any file.  The heap
    gains exactly two readers: the one that read the sample row, stopped,
    and the one the message points to, live.  The columns are those of
    the first row of the file and are not empty; the row count is the
    footer's; the rows are the first rows of the file, one decoded row
    per record, at most the window size and at most the row count; and
    the reader stands exactly behind the last row loaded. *)
Theorem loadParquetData_success (env : Env) (path : string)
    (W : Z) (h : Heap) (d : parquetDataMsg) (h' : Heap) :
  loadParquetData env path W h = (TMsg (Some (ParquetDataMsg d)), h') ->
  pd_err d = None ->
  exists fd sample pr data0,
    env_open env path = inr fd
    /\ h' = h ++ [sample; pr]
    /\ rd_stopped sample = true /\ rd_stopped pr = false
    /\ pd_parquetReader d = Some (S (length h))
    /\ pd_parquetFile d
       = Some {| pf_path := path; pf_closeErr := fd_closeErr fd |}
    /\ fd_rows fd !! 0%nat = Some (inl data0)
    /\ pd_columns d = extractColumns (env_rangeOrder env) [data0]
    /\ pd_columns d <> []
    /\ pd_totalRows d = GoInt.wrap (fd_numRows fd)
    /\ rd_rows pr = fd_rows fd
    /\ rd_pos pr = length (pd_rows d)
    /\ (Z.of_nat (length (pd_rows d)) <= Z.min W (pd_totalRows d))%Z
    /\ forall k row,
        pd_rows d !! k = Some row ->
        exists data,
          fd_rows fd !! k = Some (inl data)
          /\ decodeRow (pd_columns d) data = Some row.
Proof.
  intros Heq Hok.
  destruct (loadParquetData_any env path W h) as (new & Hh & Hlen & Hres).
  rewrite Heq in Hh, Hres. simpl in Hh, Hres.
  destruct Hres as (d' & [= <-] & Hres). rewrite Hok in Hres.
  destruct Hres as (fd & sample & pr & data0 & Hopen & -> & Hres).
  exists fd, sample, pr, data0. split_and!; try done; apply Hres.
Qed.

(** X19. The error of a failed load names its cause only when the file
    does not open.  Once the file is open, the text is one of four fixed
    texts or [failed to read row i: <nil>] with [i] below the window
    size: the cause the reader gave appears in none of them, the error
    printed being the nil result of closing the file. *)
Theorem load_error_hides_cause (env : Env) (path : string)
    (W : Z) (h : Heap) (d : parquetDataMsg) (h' : Heap) (e : GoError) :
  loadParquetData env path W h = (TMsg (Some (ParquetDataMsg d)), h') ->
  pd_err d = Some e ->
  (path = EmptyString /\ e = "no parquet file specified"%string)
  \/ (exists cause, env_open env path = inl cause
        /\ e = ("failed to open parquet file: " +:+ cause)%string)
  \/ (exists fd, env_open env path = inr fd
        /\ (e ∈ [ "failed to create parquet reader: <nil>";
                  "failed to read sample data: <nil>";
                  "failed to reset parquet reader: <nil>";
                  "could not determine columns from parquet file" ]%string
            \/ exists i : nat,
                 (Z.of_nat i < W)%Z
                 /\ e = ("failed to read row " +:+ GoStrings.Itoa i
                         +:+ ": <nil>")%string)).
Proof.
  intros Heq He.
  destruct (loadParquetData_any env path W h) as (new & Hh & Hlen & Hres).
  rewrite Heq in Hres. simpl in Hres.
  destruct Hres as (d' & [= <-] & Hres). rewrite He in Hres.
  destruct Hres as (_ & _ & [(? & _ & ?) | [(cause & ? & _ & ?) | Hfd]]).
  - by left.
  - right. left. by exists cause.
  - right. right. done.
Qed.


End TaskFacts.

(** ** What is on the screen *)

Section Screens.

Context `{Bubbles} `{GoValue}.

Lemma viewFiles_lines (files : list string) (i sel : Z) (s : string) :
  viewFiles files i sel s
  = (s +:+ foldr String.append EmptyString
             (imap (fun j file =>
                      (if (i + Z.of_nat j =? sel)%Z then "  > " else "    ")
                      +:+ file +:+ nl) files))%string.
Proof.
  revert i s. induction files as [|file files IH]; intros i s.
  - simpl. by rewrite string_app_nil_r.
  - cbn [viewFiles]. rewrite IH. rewrite imap_cons. cbn [foldr].
    rewrite Z.add_0_r.
    assert (Hshift :
      imap (fun j file0 =>
              ((if (i + 1 + Z.of_nat j =? sel)%Z then "  > " else "    ")
               +:+ file0 +:+ nl)%string) files
      = imap ((fun j file0 =>
                 ((if (i + Z.of_nat j =? sel)%Z then "  > " else "    ")
                  +:+ file0 +:+ nl)%string) ∘ S) files).
    { apply imap_ext. intros j file0 _. simpl.
      by replace (i + 1 + Z.of_nat j)%Z with (i + Z.pos (Pos.of_succ_nat j))%Z
        by lia. }
    rewrite Hshift.
    destruct (i =? sel)%Z; by rewrite !string_app_assoc.
Qed.

(** X21. The file list on the screen.  Between the heading and the help
    line there is one line per candidate, in order, and the marker [>]
    is on the line whose position is the selection; with a selection
    outside the list no line carries the marker. *)
Theorem View_file_list (m : Model) :
  viewState m = FileSelectView ->
  parquetFiles m <> [] ->
  let line (j : nat) (file : string) :=
    ((if (Z.of_nat j =? selectedFile m)%Z then "  > " else "    ")
     +:+ file +:+ nl)%string in
  View m
  = (nl +:+ "  Select a parquet file to view:" +:+ nl +:+ nl
     +:+ foldr String.append EmptyString (imap line (parquetFiles m))
     +:+ nl +:+ "  (Press Enter to select, Ctrl+D to quit)" +:+ nl)%string
  /\ (~ (0 <= selectedFile m < GoInt.len (parquetFiles m))%Z ->
      imap line (parquetFiles m)
      = (fun file => ("    " +:+ file +:+ nl)%string) <$> parquetFiles m).
Proof.
  intros Hv Hfiles line. split.
  - unfold View. rewrite Hv.
    destruct (decide (FileSelectView = InputView)); [done|].
    destruct (decide (FileSelectView = FileSelectView)); [|done].
    destruct (Z.eqb_spec (GoInt.len (parquetFiles m)) 0) as [Hz|_].
    { destruct (parquetFiles m); [done|]. unfold GoInt.len in Hz. simpl in Hz. lia. }
    cbv zeta. rewrite viewFiles_lines.
    rewrite !string_app_assoc. done.
  - intros Hout. rewrite <- (imap_const (fun file => ("    " +:+ file +:+ nl)%string)).
    apply imap_ext. intros j file Hj. unfold line.
    apply lookup_lt_Some in Hj. unfold GoInt.len in Hout.
    destruct (Z.eqb_spec (Z.of_nat j) (selectedFile m)); [lia|done].
Qed.

(** X22. The first screen, by the command line.  Without an argument
    the program shows the path input and scans the directory.  With a
    path it shows the loading text and issues the load with the window
    size 32; when that file does not open, the load reports the cause,
    the heap is untouched, and the screen shows the error.  With the
    empty string as argument it is in the table view without loading
    anything: the directory is scanned and the screen says that no data
    was found. *)
Theorem startup (args : list string) (env : Env) (h : Heap) :
  let m := initialModel args in
  match args with
  | [] =>
      viewState m = InputView
      /\ Init m = CmdBatch (CmdWidget textinput_Blink) CmdFindParquetFiles
  | path :: _ =>
      viewState m = TableView
      /\ if String.eqb path EmptyString
         then Init m = CmdBatch (CmdWidget textinput_Blink) CmdFindParquetFiles
              /\ View m
                 = ("No data found in parquet file." +:+ nl +:+ nl
                    +:+ "Press q or ESC to go back, Ctrl+D to quit")%string
         else Init m = CmdLoadParquetData path 32
              /\ View m = "Loading parquet data..."%string
              /\ forall cause,
                  env_open env path = inl cause ->
                  exists d m',
                    loadParquetData env path 32 h
                    = (TMsg (Some (ParquetDataMsg d)), h)
                    /\ Update m (ParquetDataMsg d) h
                       = (Return (Some m') CmdNil, h)
                    /\ View m'
                       = errorText ("failed to open parquet file: " +:+ cause)
  end.
Proof.
  destruct args as [|path rest]; [done|]. cbv zeta. split; [done|].
  destruct (String.eqb_spec path EmptyString) as [->|Hpath]; [done|].
  assert (Hne : String.eqb path EmptyString = false)
    by (by apply String.eqb_neq).
  split_and!.
  - unfold Init, initialModel. simpl. by rewrite Hne.
  - unfold View, initialModel. simpl. by rewrite Hne.
  - intros cause Hopen. eexists _, _. split_and!.
    + unfold loadParquetData. by rewrite Hne, Hopen.
    + done.
    + unfold View, initialModel. simpl. done.
Qed.

End Screens.

(** ** A table session on a valid file shows the table *)

Section QuietSession.

Context `{Bubbles} `{GoValue}.

Lemma Update_moreRows_flags (m : Model) (r : moreRowsMsg) (h : Heap)
    (m' : Model) (cmd : Cmd) (h' : Heap) :
  Update m (MoreRowsMsg r) h = (Return (Some m') cmd, h') ->
  isLoading m' = isLoading m /\ viewState m' = viewState m.
Proof.
  rewrite Update_moreRows.
  destruct (mr_err r); [by intros [= <- _ _]|].
  destruct (rows m); [done|]. by intros [= <- _ _].
Qed.

Lemma Update_data_flags (m : Model) (d : parquetDataMsg) (h : Heap)
    (m' : Model) (cmd : Cmd) (h' : Heap) :
  Update m (ParquetDataMsg d) h = (Return (Some m') cmd, h') ->
  isLoading m' = false.
Proof.
  unfold Update. destruct (pd_err d); [by intros [= <- _ _]|].
  match goal with |- context [updateTail ?m1 ?msg] =>
    destruct (updateTail_returns m1 msg)
      as (m2 & c2 & -> & _ & _ & _ & _ & _ & _ & Hl & _)
  end.
  intros [= <- _ _]. by rewrite Hl.
Qed.

(** Carrying to rest a message that [Update] has handled, in a session
    on a valid file: the one-row read that the handler asked for, if
    any, succeeds, so the error slot and the loading flag are left as
    they are. *)
Lemma settle_quiet (cols : list string) (src : list GoRecord) (w : nat)
    (m0 : Model) (msg : Msg) (h0 : Heap)
    (m1 : Model) (cmd : Cmd) (h : Heap) (s' : State) :
  decodable cols src ->
  (2 * Z.of_nat (length src) < GoInt.half)%Z ->
  (1 <= w)%nat ->
  Update m0 msg h0 = (Return (Some m1) cmd, h) ->
  windowInv cols src w (m1, h) ->
  settle (Return (Some m1) cmd, h) = Some s' ->
  error s'.1 = error m1 /\ isLoading s'.1 = isLoading m1.
Proof.
  intros Hdec Hsmall Hw Hup Hinv1 Hsettle.
  assert (Hrange : (Z.of_nat (length src) < GoInt.half)%Z) by lia.
  destruct (windowInv_bounds _ _ _ (m1, h) Hinv1) as (Hlen & Hbounds & _).
  pose proof Hinv1 as (_ & _ & Ht & _). cbn [fst snd] in Hlen, Hbounds, Ht.
  destruct cmd as [| |c| |path0 maxRows0|mc|c1 c2];
    try (injection Hsettle as <-; done).
  destruct (Update_trigger_needs m0 msg h0 h (Some m1) mc Hup)
    as (Hmc & _ & _ & Hlt).
  injection Hmc as <-.
  assert (Hroom : (currentRowOffset m1 + Z.of_nat w < Z.of_nat (length src))%Z).
  { revert Hlt. unfold GoInt.add, GoInt.len in *.
    rewrite wrap_in_range; [lia|]. unfold_int. lia. }
  destruct (loadMoreRows_session cols src w Hdec m1 h Hinv1)
    as (p & pr & Hp & Hh & Ho & Hmore & _).
  assert (Hpos : (rd_pos pr < length src)%nat) by lia.
  destruct (Hmore Hpos) as (row & Hload & Hrow).
  destruct (take_in_row cols src w Hrange m1 h p pr row Hw Hinv1 Hp Hh Hpos Hrow)
    as (m' & Hup' & _ & _ & Herr).
  cbn [settle] in Hsettle. rewrite Hload, Hup' in Hsettle.
  injection Hsettle as <-. cbn [fst]. split; [done|].
  by destruct (Update_moreRows_flags _ _ _ _ _ _ Hup').
Qed.

Lemma step_quiet (cols : list string) (src : list GoRecord) (w : nat)
    (s s' : State) (msg : Msg) :
  decodable cols src ->
  (2 * Z.of_nat (length src) < GoInt.half)%Z ->
  (1 <= w)%nat -> tableMsg msg = true ->
  windowInv cols src w s -> step s msg = Some s' ->
  error s'.1 = error s.1 /\ isLoading s'.1 = isLoading s.1.
Proof.
  intros Hdec Hsmall Hw Hmsg Hinv Hstep. destruct s as [m h].
  unfold step in Hstep. cbn [fst snd] in *.
  pose proof Hinv as (Hv & _). cbn [fst] in Hv.
  destruct (Update_tableMsg m msg h Hv Hmsg) as [Hu|Hu].
  2: { rewrite Hu in Hstep. by injection Hstep as <-. }
  destruct (updateTail_returns m msg)
    as (m1 & cmd & Heq & He & _ & _ & _ & _ & _ & Hl & _).
  destruct (updateTail_sameWindow m msg) as (m1' & cmd' & Heq' & Hsame).
  rewrite Heq in Heq'. injection Heq' as <- <-.
  rewrite Heq in Hu. rewrite Hu in Hstep.
  pose proof (windowInv_sameWindow _ _ _ _ _ h Hsame Hinv) as Hinv1.
  destruct (settle_quiet cols src w m msg h m1 cmd h s'
              Hdec Hsmall Hw Hu Hinv1 Hstep) as [He' Hl'].
  split; congruence.
Qed.

Lemma run_quiet (cols : list string) (src : list GoRecord) (w : nat)
    (msgs : list Msg) (s s' : State) :
  decodable cols src ->
  (2 * Z.of_nat (length src) < GoInt.half)%Z ->
  (1 <= w)%nat -> forallb tableMsg msgs = true ->
  windowInv cols src w s -> run msgs s = Some s' ->
  error s'.1 = error s.1 /\ isLoading s'.1 = isLoading s.1.
Proof.
  intros Hdec Hsmall Hw. revert s.
  induction msgs as [|msg msgs IH]; intros s Hmsgs Hinv Hrun; simpl in Hrun.
  - by injection Hrun as <-.
  - simpl in Hmsgs. apply andb_true_iff in Hmsgs as [Hmsg Hmsgs].
    assert (Hrange : (Z.of_nat (length src) < GoInt.half)%Z) by lia.
    destruct (step_windowInv cols src w Hdec Hrange s msg Hw Hmsg Hinv)
      as (s1 & Hstep & Hinv1).
    rewrite Hstep in Hrun.
    destruct (step_quiet cols src w s s1 msg Hdec Hsmall Hw Hmsg Hinv Hstep)
      as [He Hl].
    destruct (IH s1 Hmsgs Hinv1 Hrun) as [He' Hl'].
    split; congruence.
Qed.

(** X23. Scrolling a valid file never brings up an error.  When a valid
    file of [T] rows ([2 T < 2^63]) is opened from the table view with
    an empty error slot, then after the load and after any sequence of
    keys (other than [q] and [esc]) and other run-time messages, each
    one-row read being handled before the next message, the program is
    still running, the error slot is still empty, the loading flag is
    off, and the screen shows the table. *)
Theorem valid_session_shows_table (env : Env) (path : string)
    (src : list GoRecord) (m : Model) (h : Heap) (msgs : list Msg) :
  validFile env path src ->
  (2 * Z.of_nat (length src) < GoInt.half)%Z ->
  (1 <= maxRows m)%Z -> viewState m = TableView -> error m = None ->
  forallb tableMsg msgs = true ->
  exists s0 s,
    openFile env path (m, h) = Some s0
    /\ run msgs s0 = Some s
    /\ error s.1 = None /\ isLoading s.1 = false
    /\ View s.1
       = (nl +:+ table_View (table s.1) +:+ nl +:+ nl
          +:+ "Press q or ESC to go back, Ctrl+D to quit")%string.
Proof.
  intros Hvalid Hsmall HW Hview Herr Hmsgs.
  assert (Hrange : (Z.of_nat (length src) < GoInt.half)%Z) by lia.
  destruct (open_windowInv env path src m h Hvalid ltac:(lia) Hview)
    as (d & h' & m' & cmd & Hload & _ & Hup & Hclosure & Herr' & _ & Hinv').
  pose proof Hvalid as [_ _ Hcols Hdec].
  set (w := Nat.min (Z.to_nat (maxRows m)) (length src)) in *.
  assert (Hw : (1 <= w)%nat).
  { destruct (fileColumns_nonempty_src env src Hcols) as (data & rest & ->).
    unfold w. simpl. lia. }
  destruct (settle_windowInv (fileColumns env src) src w Hdec Hrange
              m' cmd h' Hw Hinv' Hclosure) as (s0 & Hsettle & Hinv0).
  destruct (settle_quiet (fileColumns env src) src w m (ParquetDataMsg d) h'
              m' cmd h' s0 Hdec Hsmall Hw Hup Hinv' Hsettle) as [He0 Hl0].
  pose proof (Update_data_flags _ _ _ _ _ _ Hup) as Hl'.
  destruct (run_windowInv (fileColumns env src) src w Hdec Hrange
              msgs s0 Hw Hmsgs Hinv0) as (s & Hrun & Hinv).
  destruct (run_quiet (fileColumns env src) src w msgs s0 s
              Hdec Hsmall Hw Hmsgs Hinv0 Hrun) as [He Hl].
  exists s0, s.
  assert (Hopen : openFile env path (m, h) = Some s0).
  { unfold openFile, step. cbn [fst snd]. rewrite Hload. cbn [fst snd].
    by rewrite Hup. }
  assert (Herr_s : error s.1 = None) by congruence.
  assert (Hload_s : isLoading s.1 = false) by congruence.
  split; [done|]. split; [done|]. split; [done|]. split; [done|].
  destruct Hinv as (Hv & Hc & _). unfold View. rewrite Hv, Hload_s, Herr_s, Hc.
  destruct (decide (TableView = InputView)); [done|].
  destruct (decide (TableView = FileSelectView)); [done|].
  destruct (Z.eqb_spec (GoInt.len (fileColumns env src)) 0) as [Hz|_]; [|done].
  destruct (fileColumns env src); [done|]. unfold GoInt.len in Hz. simpl in Hz. lia.
Qed.

End QuietSession.

(* ===================================================================== *)
(** * Concrete runs *)
(* ===================================================================== *)

#[local] Existing Instance Fixture.bubbles.
#[local] Existing Instance Fixture.values.

(** The struct files of the demo file system are valid files. *)
Lemma structFile_valid (path : string) (n : nat) :
  Fixture.openDemo path = inr (Fixture.structFile n) ->
  (1 <= n)%nat -> (Z.of_nat n < GoInt.half)%Z ->
  validFile Fixture.env path (Fixture.sourceRows n).
Proof.
  intros Hopen Hn Hrange.
  assert (Hlen : length (Fixture.sourceRows n) = n).
  { unfold Fixture.sourceRows. by rewrite length_fmap, length_seq. }
  split.
  - intros ->. vm_compute in Hopen. discriminate.
  - exists (Fixture.structFile n). split; [done|].
    split; try done; simpl; rewrite ?Hlen; done.
  - destruct n as [|n]; [lia|]. vm_compute. discriminate.
  - unfold decodable, Fixture.sourceRows. apply Forall_fmap, Forall_forall.
    intros k _. simpl.
    destruct (decodeRow_plain
                (fileColumns Fixture.env (Fixture.sourceRows n))
                (Fixture.structRow k)) as (row & Hrow & _); [|by eexists].
    intros fields [= <-]. repeat constructor.
Qed.


Lemma valid_sixtyfour :
  validFile Fixture.env "sixtyfour.parquet" (Fixture.sourceRows 64).
Proof. apply structFile_valid; [reflexivity | lia | unfold_int; lia]. Qed.

Lemma valid_hundred :
  validFile Fixture.env "hundred.parquet" (Fixture.sourceRows 100).
Proof. apply structFile_valid; [reflexivity | lia | unfold_int; lia]. Qed.

(** Reading a computed run: [o = Some v] for the visible part [v] of the
    state reached, obtained by evaluation. *)
Ltac evaluated := vm_compute; reflexivity.

(** A test evaluated on the result of a run holds of that result. *)
Lemma test_result {A : Type} (o : option A) (a : A) (test : A -> bool) :
  o = Some a ->
  match o with Some x => test x | None => false end = true ->
  test a = true.
Proof. intros ->. done. Qed.

(** *** C1 *)



(** *** C2 *)



(** *** C3 *)



(** *** C4 *)



(** *** C5 *)

(** X1, witness: a row of two plain fields decoded against three columns,
    one of them absent from the record. *)
Lemma decodeRow_total_on_plain_witness :
  exists row,
    decodeRow ["Sq"; "Missing"; "Id"]%string (Fixture.structRow 7) = Some row
    /\ length row = 3%nat.
Proof.
  apply (decodeRow_total_on_plain ["Sq"; "Missing"; "Id"]%string
           (Fixture.structRow 7)).
  intros fields [= <-]. repeat constructor.
Defined.

Example decodeRow_structRow_cells :
  decodeRow ["Sq"; "Missing"; "Id"]%string (Fixture.structRow 7)
  = Some ["49"; "<nil>"; "7"]%string.
Proof. reflexivity. Qed.

(** *** C6 *)

Lemma forwards_rangesOverKeys : rangesOverKeys Fixture.forwards.
Proof. intros data. done. Qed.

Lemma backwards_rangesOverKeys : rangesOverKeys Fixture.backwards.
Proof.
  intros data. unfold Fixture.backwards, keysOf.
  apply Permutation_sym, Permutation_rev.
Qed.

(** C6, witness: two runs over one map-shaped record give the same
    columns up to order. *)
Lemma extractColumns_runs_witness :
  extractColumns Fixture.forwards [Fixture.mapRow 2]
  ≡ₚ extractColumns Fixture.backwards [Fixture.mapRow 2].
Proof.
  destruct (extractColumns_runs Fixture.forwards Fixture.backwards)
    as (_ & _ & _ & Hperm).
  exact (Hperm forwards_rangesOverKeys backwards_rangesOverKeys _ []).
Defined.

(** C6, counterexample: one map-shaped record, two iteration orders over
    its two keys, two different column sequences. *)
Lemma map_columns_depend_on_run :
  rangesOverKeys Fixture.forwards /\ rangesOverKeys Fixture.backwards
  /\ extractColumns Fixture.forwards [Fixture.mapRow 2] = ["sq"; "id"]%string
  /\ extractColumns Fixture.backwards [Fixture.mapRow 2] = ["id"; "sq"]%string
  /\ extractColumns Fixture.forwards [Fixture.mapRow 2]
     <> extractColumns Fixture.backwards [Fixture.mapRow 2].
Proof.
  split; [apply forwards_rangesOverKeys|].
  split; [apply backwards_rangesOverKeys|].
  split; [evaluated|]. split; [evaluated|]. vm_compute. discriminate.
Qed.

(** *** C7 *)

(** C7, witness: a struct of three fields, of which the second has a tag
    without a name. *)
Lemma extractColumns_struct_fields_witness :
  extractColumns Fixture.forwards
    [StructRecord [Fixture.nameFirst; Fixture.typeOnly; Fixture.plainId]]
  = ["age"; "Id"]%string
  /\ fieldColumns Fixture.nameFirst = ["age"%string]
  /\ fieldColumns Fixture.typeOnly = [].
Proof.
  destruct (extractColumns_struct_fields Fixture.forwards
              [Fixture.nameFirst; Fixture.typeOnly; Fixture.plainId] [])
    as (Hcols & _ & _ & Hnamed & Hnone).
  split; [exact Hcols|]. split.
  - apply (Hnamed Fixture.nameFirst "age"%string); [discriminate | reflexivity].
  - apply (Hnone Fixture.typeOnly); [discriminate | reflexivity].
Defined.

(** C7, counterexample: a declared field [Age] whose tag has no part
    that starts with [name=] contributes no column, its identifier is not
    used; so does a field whose [name=] part follows a comma and a space. *)
Lemma tagged_field_without_name_has_no_column :
  extractColumns Fixture.forwards [StructRecord [Fixture.typeOnly]] = []
  /\ extractColumns Fixture.forwards [StructRecord [Fixture.nameSecond]] = []
  /\ Name Fixture.typeOnly = "Age"%string
  /\ length (extractColumns Fixture.forwards [StructRecord [Fixture.typeOnly]])
     <> length [Fixture.typeOnly].
Proof. repeat split; try reflexivity. vm_compute. discriminate. Qed.

(** *** C8 *)



(** *** C9 *)

(** C9, witness: a load has failed; the user goes back to the list,
    selects the 10-row file and that load succeeds: the table view still
    renders the first error. *)
Lemma error_slot_never_reset_witness :
  exists s',
    handleAll Fixture.thenSuccess Fixture.failedLoad = Some s'
    /\ viewState s'.1 = TableView /\ isLoading s'.1 = false
    /\ columns s'.1 = ["Id"; "Sq"]%string /\ length (rows s'.1) = 10%nat
    /\ View s'.1
       = errorText "failed to open parquet file: no such file or directory".
Proof.
  destruct error_slot_never_reset as [_ Hkept].
  assert (E : (fun s' : State =>
                 (viewState s'.1, isLoading s'.1, columns s'.1,
                  length (rows s'.1), error s'.1))
              <$> handleAll Fixture.thenSuccess Fixture.failedLoad
              = Some (TableView, false, ["Id"; "Sq"]%string, 10%nat,
                      Some "failed to open parquet file: no such file or directory"%string))
    by evaluated.
  destruct (handleAll Fixture.thenSuccess Fixture.failedLoad) as [s'|] eqn:Hrun;
    [|discriminate].
  injection E as E1 E2 E3 E4 E5.
  destruct (Hkept Fixture.failedLoad s' Fixture.thenSuccess
              ltac:(by eexists) Hrun) as (err & Herr & Hview).
  exists s'. repeat split; try assumption.
  rewrite (Hview E1 E2). f_equal. congruence.
Defined.

(** *** C10 *)

(** C10. Three candidates are listed and the third is selected and
    opened; back in the list the directory scan delivers one candidate.
    [selectedFile] is still 2: confirming with enter indexes the list of
    length 1 at 2 and the program panics. *)
Lemma enter_panics_on_shorter_list :
  exists s,
    handleAll Fixture.shorterList Fixture.startedBare = Some s
    /\ viewState s.1 = FileSelectView
    /\ parquetFiles s.1 = ["five.parquet"%string]
    /\ selectedFile s.1 = 2%Z
    /\ Update s.1 (KeyMsg "enter") s.2 = (Panic, s.2).
Proof.
  assert (E : (fun s : State =>
                 (viewState s.1, parquetFiles s.1, selectedFile s.1))
              <$> handleAll Fixture.shorterList Fixture.startedBare
              = Some (FileSelectView, ["five.parquet"%string], 2%Z))
    by evaluated.
  destruct (handleAll Fixture.shorterList Fixture.startedBare) as [s|];
    [|discriminate].
  injection E as E1 E2 E3. exists s. repeat split; try assumption.
  unfold Update. rewrite E1, E2, E3. reflexivity.
Qed.

(** The program is started on a path; the user leaves the table and
    presses up while the candidate list is still empty, which makes
    [selectedFile] -1; then the scan delivers one candidate and enter
    indexes the list at -1: the program panics. *)
Lemma enter_panics_after_up_on_empty_list :
  exists s,
    handleAll Fixture.upOnEmptyList (Fixture.started "nope.parquet") = Some s
    /\ viewState s.1 = FileSelectView
    /\ parquetFiles s.1 = ["five.parquet"%string]
    /\ selectedFile s.1 = (-1)%Z
    /\ Update s.1 (KeyMsg "enter") s.2 = (Panic, s.2).
Proof.
  assert (E : (fun s : State =>
                 (viewState s.1, parquetFiles s.1, selectedFile s.1))
              <$> handleAll Fixture.upOnEmptyList (Fixture.started "nope.parquet")
              = Some (FileSelectView, ["five.parquet"%string], (-1)%Z))
    by evaluated.
  destruct (handleAll Fixture.upOnEmptyList (Fixture.started "nope.parquet"))
    as [s|]; [|discriminate].
  injection E as E1 E2 E3. exists s. repeat split; try assumption.
  unfold Update. rewrite E1, E2, E3. reflexivity.
Qed.

(** *** The scroll limit *)

(** X2, witness: in the 100-row file with the default bound 32 the offset
    stays at or below 68, so source rows 68 to 99 never enter the window. *)
Lemma scroll_limit_witness :
  exists s0 s,
    openFile Fixture.env "hundred.parquet" (Fixture.started "hundred.parquet")
    = Some s0
    /\ run (repeat (KeyMsg "down") 31) s0 = Some s
    /\ (currentRowOffset s.1 <= 68)%Z.
Proof.
  destruct (scroll_limit Fixture.env "hundred.parquet" (Fixture.sourceRows 100)
              (initialModel ["hundred.parquet"%string]) [] valid_hundred
              ltac:(simpl; lia) eq_refl ltac:(unfold_int; simpl; lia))
    as (s0 & Hopen & Hall).
  assert (E : match openFile Fixture.env "hundred.parquet"
                      (Fixture.started "hundred.parquet") with
              | Some s => bool_decide (is_Some (run (repeat (KeyMsg "down") 31) s))
              | None => false
              end = true) by evaluated.
  pose proof (test_result _ s0
                (fun s => bool_decide (is_Some (run (repeat (KeyMsg "down") 31) s)))
                Hopen E) as E'.
  apply bool_decide_eq_true in E' as [s Hs].
  destruct (Hall (repeat (KeyMsg "down") 31) s eq_refl Hs) as [Hle _].
  exists s0, s. split; [exact Hopen|]. split; [exact Hs|]. exact Hle.
Defined.

(** *** The row decoder *)

(** X4, witness: a tagged and an untagged field decoded against three
    columns, one of them absent from the record. *)
Lemma decodeRow_struct_cells_witness :
  decodeRow ["age"; "Id"; "missing"]%string
    (StructRecord [Fixture.nameFirst; Fixture.plainId])
  = Some (structCell [Fixture.nameFirst; Fixture.plainId]
            <$> ["age"; "Id"; "missing"]%string).
Proof.
  apply (decodeRow_struct_cells ["age"; "Id"; "missing"]%string
           [Fixture.nameFirst; Fixture.plainId]).
  - intros col Hcol.
    repeat (apply elem_of_cons in Hcol as [->|Hcol]; [vm_compute; lia|]).
    by apply elem_of_nil in Hcol.
  - intros col field _ Hfield _.
    repeat (apply elem_of_cons in Hfield as [->|Hfield]; [reflexivity|]).
    by apply elem_of_nil in Hfield.
Defined.

Example decodeRow_struct_cells_values :
  structCell [Fixture.nameFirst; Fixture.plainId]
    <$> ["age"; "Id"; "missing"]%string
  = ["18"; "1"; "<nil>"]%string.
Proof. reflexivity. Qed.

(** X5, witness: a key that is not a column, and an unexported field
    between two fields that are read. *)
Lemma decodeRow_ignores_unnamed_witness :
  decodeRow ["id"; "sq"]%string (MapRecord (<["extra" := 5%N]> Samples.idSq))
  = decodeRow ["id"; "sq"]%string (MapRecord Samples.idSq)
  /\ decodeRow ["Id"; "age"]%string
       (StructRecord ([Fixture.plainId] ++ Samples.secret :: [Fixture.nameFirst]))
     = decodeRow ["Id"; "age"]%string
         (StructRecord ([Fixture.plainId] ++ [Fixture.nameFirst])).
Proof.
  split.
  - destruct (decodeRow_ignores_unnamed ["id"; "sq"]%string) as [Hmap _].
    apply Hmap. rewrite !not_elem_of_cons. split_and!; try done.
    apply not_elem_of_nil.
  - destruct (decodeRow_ignores_unnamed ["Id"; "age"]%string) as [_ Hstruct].
    apply Hstruct. intros col Hcol.
    repeat (apply elem_of_cons in Hcol as [->|Hcol]; [reflexivity|]).
    by apply elem_of_nil in Hcol.
Defined.



(** X8, witness: the tag [type=INT32, name=age]. *)
Lemma conventional_tag_first_part_witness :
  schemaPartsLoop
    (GoStrings.Split (String.concat ", " ["type=INT32"; "name=age"]%string)
       ","%char) []
  = (if GoStrings.HasPrefix "type=INT32" "name="
     then [] ++ [GoStrings.TrimSpace
                   (GoStrings.TrimPrefix "type=INT32" "name=")]
     else [])
  /\ rowPartsLoop "age" Fixture.nameSecond
       (GoStrings.Split (String.concat ", " ["type=INT32"; "name=age"]%string)
          ","%char) [] false
     = rowPartsLoop "age" Fixture.nameSecond ["type=INT32"%string] [] false.
Proof.
  apply (conventional_tag_first_part "type=INT32" ["name=age"%string] []
           "age" Fixture.nameSecond [] false).
  repeat constructor.
Defined.

(** *** The directory scan *)

Example findParquetFiles_listing :
  findParquetFiles (Some Samples.listing)
  = ParquetFilesMsg ["a.parquet"; "b.parquet"]%string.
Proof. reflexivity. Qed.

(** *** The file list *)

(** X10, witness: three candidates, the last one selected. *)
Lemma selection_wraps_witness :
  Update Samples.lastOfThree (KeyMsg "down") []
  = (Return (Some (set_selectedFile ((2 + 1) mod 3) Samples.lastOfThree))
       CmdNil, [])
  /\ Update Samples.lastOfThree (KeyMsg "up") []
     = (Return (Some (set_selectedFile ((2 - 1) mod 3) Samples.lastOfThree))
          CmdNil, []).
Proof.
  destruct (selection_wraps Samples.lastOfThree []) as (Hdown & Hup & _).
  - reflexivity.
  - reflexivity.
  - simpl. unfold GoInt.len. simpl. lia.
  - split; [apply Hdown | apply Hup]; by left.
Defined.

(** X11, witness: three candidates, down four times, enter. *)
Lemma kth_file_is_opened_witness :
  exists (s : State) (file : string) (m' : Model),
    handleAll
      (ParquetFilesMsg ["five.parquet"; "hundred.parquet"; "ten.parquet"]
       :: repeat (KeyMsg "down") 4)
      (initialModel [], []) = Some s
    /\ ["five.parquet"; "hundred.parquet"; "ten.parquet"]%string
         !! (4 mod 3)%nat = Some file
    /\ Update s.1 (KeyMsg "enter") s.2
       = (Return (Some m') (CmdLoadParquetData file 32), [])
    /\ filePath m' = file /\ viewState m' = TableView
    /\ isLoading m' = true.
Proof.
  apply (kth_file_is_opened
           ["five.parquet"; "hundred.parquet"; "ten.parquet"]%string 4 []).
  split; reflexivity.
Defined.

(** X12, witness: the empty list after the table was left. *)
Lemma empty_file_list_is_dead_end_witness :
  exists m',
    handleAll (KeyMsg <$> ["a"; "enter"; "up"; "q"]%string)
      (Samples.emptyList, []) = Some (m', [])
    /\ viewState m' = FileSelectView /\ parquetFiles m' = []
    /\ textInput m' = textInput Samples.emptyList
    /\ View m' = View Samples.emptyList
    /\ forall key, key <> "ctrl+d"%string ->
         exists m'', Update m' (KeyMsg key) [] = (Return (Some m'') CmdNil, []).
Proof.
  apply (empty_file_list_is_dead_end Samples.emptyList []
           ["a"; "enter"; "up"; "q"]%string).
  - reflexivity.
  - reflexivity.
  - repeat constructor; discriminate.
Defined.

(** X13, witness: keys and a tick handled from the last of three
    candidates. *)
Lemma selection_stays_in_range_witness :
  exists s',
    handleAll [KeyMsg "down"; KeyMsg "k"; OtherMsg "tick"; KeyMsg "down"]
      (Samples.lastOfThree, []) = Some s'
    /\ parquetFiles s'.1 = parquetFiles Samples.lastOfThree
    /\ (0 <= selectedFile s'.1 < GoInt.len (parquetFiles s'.1))%Z.
Proof.
  destruct (handleAll
              [KeyMsg "down"; KeyMsg "k"; OtherMsg "tick"; KeyMsg "down"]
              (Samples.lastOfThree, [])) as [s'|] eqn:Hrun;
    [|vm_compute in Hrun; discriminate].
  exists s'. split; [reflexivity|].
  destruct (selection_stays_in_range
              [KeyMsg "down"; KeyMsg "k"; OtherMsg "tick"; KeyMsg "down"]
              (Samples.lastOfThree, []) s') as (Hfiles & Hsel & _).
  - repeat constructor; discriminate.
  - reflexivity.
  - simpl. unfold GoInt.len. simpl. lia.
  - exact Hrun.
  - split; [exact Hfiles | exact Hsel].
Defined.

(** *** Leaving the table, and what the handler keeps *)

(** X14, witness: [q] on a table over the two-row file. *)
Lemma leaving_the_table_witness :
  Update Samples.onTwoRows.1 (KeyMsg "q") Samples.onTwoRows.2
  = (Return
       (Some (set_viewState FileSelectView
                (set_parquetFile None
                   (set_parquetReader None Samples.onTwoRows.1))))
       CmdFindParquetFiles,
     [ReadStop (NewParquetReader (Fixture.structFile 2))]).
Proof.
  destruct (leaving_the_table Samples.onTwoRows.1 Samples.onTwoRows.2 "q")
    as (_ & Hok & _).
  - by left.
  - reflexivity.
  - destruct Hok as (Hup & _); [intros fr Hfr; discriminate|].
    exact Hup.
Defined.

(** X15, witness: the same key press, on the heap. *)
Lemma Update_never_reads_witness :
  length (Update Samples.onTwoRows.1 (KeyMsg "q") Samples.onTwoRows.2).2
  = length Samples.onTwoRows.2.
Proof.
  exact (proj1 (Update_never_reads Samples.onTwoRows.1 (KeyMsg "q")
                  Samples.onTwoRows.2)).
Defined.

(** X16, witness: a key typed into the path input. *)
Lemma Update_frame_witness :
  exists m' cmd h',
    Update (initialModel []) (KeyMsg "a") [] = (Return (Some m') cmd, h')
    /\ maxRows m' = maxRows (initialModel [])
    /\ rows m' = rows (initialModel []).
Proof.
  destruct (Update (initialModel []) (KeyMsg "a") [])
    as [[|[m'|] cmd] h'] eqn:Heq;
    try (vm_compute in Heq; discriminate).
  exists m', cmd, h'. split; [reflexivity|].
  destruct (Update_frame (initialModel []) (KeyMsg "a") [] m' cmd h' Heq)
    as (Hmax & _ & Hdata).
  split; [exact Hmax|].
  destruct Hdata as (Hrows & _); [discriminate..|]. exact Hrows.
Defined.

(** *** The two tasks *)

(** The load of the file whose third row cannot be read. *)
Example broken_file_error :
  (loadParquetData Samples.env "broken.parquet" 32 []).1
  = TMsg (Some (ParquetDataMsg
                  (parquetDataErr "failed to read row 2: <nil>"))).
Proof. vm_compute. reflexivity. Qed.

(** X17, witness: the file whose third row cannot be read. *)
Lemma loadParquetData_failure_releases_witness :
  (loadParquetData Samples.env "broken.parquet" 32 []).1
  = TMsg (Some (ParquetDataMsg
                  (parquetDataErr "failed to read row 2: <nil>")))
  /\ exists new,
      (loadParquetData Samples.env "broken.parquet" 32 []).2 = [] ++ new
      /\ (length new <= 2)%nat
      /\ Forall (fun pr => rd_stopped pr = true) new.
Proof.
  split; [exact broken_file_error|].
  destruct (loadParquetData_failure_releases Samples.env "broken.parquet" 32 []
              (loadParquetData Samples.env "broken.parquet" 32 []).1
              (loadParquetData Samples.env "broken.parquet" 32 []).2)
    as (new & Hh & Hlen & Hstopped & _).
  - apply surjective_pairing.
  - right. exists (parquetDataErr "failed to read row 2: <nil>"),
      "failed to read row 2: <nil>"%string.
    split; [exact broken_file_error | reflexivity].
  - exists new. split; [exact Hh|]. split; [exact Hlen | exact Hstopped].
Defined.

(** X18, witness: the five-row file. *)
Lemma loadParquetData_success_witness :
  exists d h' fd sample pr,
    loadParquetData Fixture.env "five.parquet" 32 []
    = (TMsg (Some (ParquetDataMsg d)), h')
    /\ pd_err d = None
    /\ env_open Fixture.env "five.parquet" = inr fd
    /\ h' = [] ++ [sample; pr]
    /\ rd_stopped sample = true /\ rd_stopped pr = false
    /\ rd_pos pr = length (pd_rows d)
    /\ (Z.of_nat (length (pd_rows d)) <= Z.min 32 (pd_totalRows d))%Z.
Proof.
  destruct (loadParquetData Fixture.env "five.parquet" 32 [])
    as [r h'] eqn:Heq.
  assert (E : match (loadParquetData Fixture.env "five.parquet" 32 []).1 with
              | TMsg (Some (ParquetDataMsg d)) =>
                  match pd_err d with None => true | Some _ => false end
              | _ => false
              end = true) by (vm_compute; reflexivity).
  rewrite Heq in E. simpl in E.
  destruct r as [|[[key|files|d|res|tag]|]]; try discriminate.
  destruct (pd_err d) eqn:Herr; [discriminate|].
  destruct (loadParquetData_success Fixture.env "five.parquet" 32 [] d h'
              Heq Herr)
    as (fd & sample & pr & data0 & Hopen & Hh & Hs & Hp & _ & _ & _ & _ & _
        & _ & _ & Hpos & Hlen & _).
  exists d, h', fd, sample, pr. rewrite Herr. split_and!; try done.
Defined.

(** X19, witness: the error of the file whose third row cannot be
    read; the cause, [bad page], is not in it. *)
Lemma load_error_hides_cause_witness :
  loadParquetData Samples.env "broken.parquet" 32 []
  = (TMsg (Some (ParquetDataMsg
                   (parquetDataErr "failed to read row 2: <nil>"))),
     (loadParquetData Samples.env "broken.parquet" 32 []).2)
  /\ exists i : nat,
      (Z.of_nat i < 32)%Z
      /\ "failed to read row 2: <nil>"%string
         = ("failed to read row " +:+ GoStrings.Itoa i +:+ ": <nil>")%string.
Proof.
  assert (Hload :
    loadParquetData Samples.env "broken.parquet" 32 []
    = (TMsg (Some (ParquetDataMsg
                     (parquetDataErr "failed to read row 2: <nil>"))),
       (loadParquetData Samples.env "broken.parquet" 32 []).2)).
  { rewrite <- broken_file_error. apply surjective_pairing. }
  split; [exact Hload|].
  destruct (load_error_hides_cause Samples.env "broken.parquet" 32 []
              (parquetDataErr "failed to read row 2: <nil>")
              (loadParquetData Samples.env "broken.parquet" 32 []).2
              "failed to read row 2: <nil>" Hload eq_refl)
    as [(Hpath & _) | [(cause & Hopen & _) | (fd & _ & [Hfixed | Hrow])]].
  - discriminate.
  - vm_compute in Hopen. discriminate.
  - exfalso.
    repeat (apply elem_of_cons in Hfixed as [Hfixed|Hfixed]; [discriminate|]).
    by apply elem_of_nil in Hfixed.
  - exact Hrow.
Defined.


Example loadMoreRows_two_rows :
  (loadMoreRows Samples.onTwoRows.1 Samples.onTwoRows.2).1
  = TMsg (Some (MoreRowsMsg {| mr_newRow := ["0"; "0"]%string;
                               mr_err := None |})).
Proof. vm_compute. reflexivity. Qed.

(** *** The screen *)

(** X21, witness: three candidates, the last one selected. *)
Lemma View_file_list_witness :
  View Samples.lastOfThree
  = (nl +:+ "  Select a parquet file to view:" +:+ nl +:+ nl
     +:+ foldr String.append EmptyString
           (imap (fun (j : nat) (file : string) =>
                    ((if (Z.of_nat j =? selectedFile Samples.lastOfThree)%Z
                      then "  > " else "    ") +:+ file +:+ nl)%string)
                 (parquetFiles Samples.lastOfThree))
     +:+ nl +:+ "  (Press Enter to select, Ctrl+D to quit)" +:+ nl)%string.
Proof.
  destruct (View_file_list Samples.lastOfThree) as (Hview & _).
  - reflexivity.
  - discriminate.
  - exact Hview.
Defined.

(** X22, witness: started on a path that does not open. *)
Lemma startup_witness :
  viewState (initialModel ["nope.parquet"%string]) = TableView
  /\ Init (initialModel ["nope.parquet"%string])
     = CmdLoadParquetData "nope.parquet" 32
  /\ exists d m',
       loadParquetData Fixture.env "nope.parquet" 32 []
       = (TMsg (Some (ParquetDataMsg d)), [])
       /\ Update (initialModel ["nope.parquet"%string]) (ParquetDataMsg d) []
          = (Return (Some m') CmdNil, [])
       /\ View m'
          = errorText ("failed to open parquet file: "
                       +:+ "no such file or directory").
Proof.
  destruct (startup ["nope.parquet"%string] Fixture.env [])
    as (Hv & Hinit & _ & Hfail).
  split; [exact Hv|]. split; [exact Hinit|].
  apply Hfail. reflexivity.
Defined.

(** *** A table session on a valid file *)

(** X23, witness: the 100-row file, down 40 times. *)
Lemma valid_session_shows_table_witness :
  exists s0 s,
    openFile Fixture.env "hundred.parquet"
      (initialModel ["hundred.parquet"%string], []) = Some s0
    /\ run (repeat (KeyMsg "down") 40) s0 = Some s
    /\ error s.1 = None /\ isLoading s.1 = false
    /\ View s.1
       = (nl +:+ table_View (table s.1) +:+ nl +:+ nl
          +:+ "Press q or ESC to go back, Ctrl+D to quit")%string.
Proof.
  apply (valid_session_shows_table Fixture.env "hundred.parquet"
           (Fixture.sourceRows 100)
           (initialModel ["hundred.parquet"%string]) []
           (repeat (KeyMsg "down") 40)).
  - exact valid_hundred.
  - unfold_int. simpl. lia.
  - simpl. lia.
  - reflexivity.
  - reflexivity.
  - reflexivity.
Defined.

(** *** Readers left behind *)

(** X24, witness: a load result installs the reader at address 1, the
    user scrolls and leaves the table; the reader at address 0 is as it
    was. *)
Lemma orphaned_reader_is_never_stopped_witness :
  exists s',
    handleAll [ParquetDataMsg Samples.laterLoad; KeyMsg "down"; KeyMsg "q"]
      Samples.twoReaders = Some s'
    /\ s'.2 !! 0%nat = Some (NewParquetReader (Fixture.structFile 2))
    /\ parquetReader s'.1 <> Some 0%nat.
Proof.
  destruct (handleAll
              [ParquetDataMsg Samples.laterLoad; KeyMsg "down"; KeyMsg "q"]
              Samples.twoReaders) as [s'|] eqn:Hrun;
    [|vm_compute in Hrun; discriminate].
  exists s'. split; [reflexivity|].
  destruct (orphaned_reader_is_never_stopped 0%nat) as [_ Hkept].
  apply (Hkept [ParquetDataMsg Samples.laterLoad; KeyMsg "down"; KeyMsg "q"]
           Samples.twoReaders s').
  - reflexivity.
  - discriminate.
  - repeat constructor; intros d Hd; try discriminate;
      injection Hd as <-; discriminate.
  - exact Hrun.
Defined.
